(** * DDOS-Rust: the training pipeline of [model_optimized.py]

    A shallow embedding of the class [OptimizedDDoSAnalysis] and the
    properties its specification states about it.

    Conventions of the embedding.
    - Python [str] values are Rocq strings of 8-bit characters; case
      mapping and whitespace follow Python on the ASCII range, other
      characters are left alone.
    - A pandas [DataFrame] is the list of its columns, each a name with
      its vector of cells.  Where a method updates a frame in place, frames
      live in a store indexed by object identity, so that the update and
      the aliasing are visible.
    - A [float] is either a rational number, an infinity or NaN.  Finite
      arithmetic is exact: rounding and overflow of the 32-bit floats are
      outside the model.
    - scikit-learn estimators, the search, the random shuffle and
      [joblib.dump] are black boxes: they enter as Section variables. *)

From Stdlib Require Import QArith Qround Lia Lqa.
From stdpp Require Import base option list sorting gmap strings.
From Stdlib Require Import Ascii.

(** The exceptions the model tells apart: [ValueError], which line 362
    catches, and the others. *)
Inductive exn : Type :=
  | ValueError
  | AttributeError
  | OtherError.

(** ** Python string methods *)

Module PyStr.

(** [str.isspace] on one ASCII character: TAB..CR, FS..US and SPACE. *)
Definition isspace (c : ascii) : bool :=
  let n := nat_of_ascii c in
  (Nat.leb 9 n && Nat.leb n 13) || (Nat.leb 28 n && Nat.leb n 32).

Definition lower_char (c : ascii) : ascii :=
  let n := nat_of_ascii c in
  if Nat.leb 65 n && Nat.leb n 90 then ascii_of_nat (n + 32) else c.

Definition upper_char (c : ascii) : ascii :=
  let n := nat_of_ascii c in
  if Nat.leb 97 n && Nat.leb n 122 then ascii_of_nat (n - 32) else c.

Fixpoint map_chars (f : ascii → ascii) (s : string) : string :=
  match s with
  | EmptyString => EmptyString
  | String c r => String (f c) (map_chars f r)
  end.

(** [s.lower()] and [s.upper()] on ASCII text.  A character from 128
    on is left as it is, where Python also maps the letters among them. *)
Definition lower : string → string := map_chars lower_char.
Definition upper : string → string := map_chars upper_char.

(** [s.replace(' ', '_')]. *)
Definition replace_space (s : string) : string :=
  map_chars (λ c, if Ascii.eqb c " "%char then "_"%char else c) s.

Fixpoint lstrip (s : string) : string :=
  match s with
  | EmptyString => EmptyString
  | String c r => if isspace c then lstrip r else s
  end.

Fixpoint rstrip (s : string) : string :=
  match s with
  | EmptyString => EmptyString
  | String c r =>
      match rstrip r with
      | EmptyString => if isspace c then EmptyString else String c EmptyString
      | r' => String c r'
      end
  end.

(** [s.strip()]: whitespace removed at both ends. *)
Definition strip (s : string) : string := rstrip (lstrip s).

(** [needle in hay]. *)
Fixpoint contains (needle hay : string) : bool :=
  String.prefix needle hay ||
  match hay with
  | EmptyString => false
  | String _ r => contains needle r
  end.

End PyStr.

(** ** Dictionaries and frames *)

(** A dict display [{k1: v1, k2: v2, ...}] inserts its items from left to
    right, a later item replacing an earlier one with the same key. *)
Definition dict_display {V} (items : list (string * V)) : gmap string V :=
  foldl (λ d kv, <[kv.1 := kv.2]> d) ∅ items.

(** [d.get(k, k)]. *)
Definition get_or_self (d : gmap string string) (k : string) : string :=
  default k (d !! k).

(** A frame is its columns in order, each a name with its vector of
    cells. *)
#[warning="-notation-for-abbreviation"]
Notation DataFrame V := (list (string * list V)).

(** [df.columns]. *)
Definition columns {V} (df : DataFrame V) : list string := df.*1.

(** The frame [df] with its column index replaced by [names]. *)
Definition with_columns {V} (names : list string) (df : DataFrame V) : DataFrame V :=
  zip names (df.*2).

(** [df.iloc[idx]]: the rows numbered [idx], in that order. *)
Definition take_rows {V} (idx : list nat) (df : DataFrame V) : DataFrame V :=
  (λ c, (c.1, omap (λ i, c.2 !! i) idx)) <$> df.

(** ** Schema normalizer *)

Module Schema.

(** [self.column_mappings], lines 46-112. *)
Definition column_mappings : gmap string string := dict_display [
  ("Flow Packets/s", "flow_pkts_s");
  ("Packet Length Mean", "pkt_len_mean");
  ("Flow IAT Mean", "flow_iat_mean");
  ("SYN Flag Count", "syn_flag_cnt");
  ("ACK Flag Count", "ack_flag_cnt");
  ("RST Flag Count", "rst_flag_cnt");
  ("FIN Flag Count", "fin_flag_cnt");
  ("Flow Duration", "flow_duration");
  ("Flow Bytes/s", "flow_byts_s");
  ("Down/Up Ratio", "down_up_ratio");
  ("Fwd Packets/s", "fwd_pkts_s");
  ("Bwd Packets/s", "bwd_pkts_s");
  ("Flow IAT Std", "flow_iat_std");
  ("Source IP", "src_ip");
  ("Protocol", "protocol");
  ("Label", "label");
  ("Timestamp", "timestamp");
  ("Total Fwd Packets", "tot_fwd_pkts");
  ("Total Backward Packets", "tot_bwd_pkts");
  ("Total Length of Fwd Packets", "totlen_fwd_pkts");
  ("Total Length of Bwd Packets", "totlen_bwd_pkts");
  ("Fwd Packet Length Max", "fwd_pkt_len_max");
  ("Fwd Packet Length Min", "fwd_pkt_len_min");
  ("Fwd Packet Length Mean", "fwd_pkt_len_mean");
  ("Fwd Packet Length Std", "fwd_pkt_len_std");
  ("Bwd Packet Length Max", "bwd_pkt_len_max");
  ("Bwd Packet Length Min", "bwd_pkt_len_min");
  ("Bwd Packet Length Mean", "bwd_pkt_len_mean");
  ("Bwd Packet Length Std", "bwd_pkt_len_std");
  ("Packet Length Max", "pkt_len_max");
  ("Packet Length Min", "pkt_len_min");
  ("Packet Length Std", "pkt_len_std");
  ("Packet Length Variance", "pkt_len_var");
  ("FIN Flag Count", "fin_flag_cnt");
  ("SYN Flag Count", "syn_flag_cnt");
  ("RST Flag Count", "rst_flag_cnt");
  ("PSH Flag Count", "psh_flag_cnt");
  ("ACK Flag Count", "ack_flag_cnt");
  ("URG Flag Count", "urg_flag_cnt");
  ("CWE Flag Count", "cwr_flag_count");
  ("ECE Flag Count", "ece_flag_cnt");
  ("Init_Win_bytes_forward", "init_fwd_win_byts");
  ("Init_Win_bytes_backward", "init_bwd_win_byts");
  ("act_data_pkt_fwd", "fwd_act_data_pkts");
  ("min_seg_size_forward", "fwd_seg_size_min");
  ("Active Mean", "active_mean");
  ("Active Std", "active_std");
  ("Active Max", "active_max");
  ("Active Min", "active_min");
  ("Idle Mean", "idle_mean");
  ("Idle Std", "idle_std");
  ("Idle Max", "idle_max");
  ("Idle Min", "idle_min");
  ("src_ip", "src_ip"); ("dst_ip", "dst_ip");
  ("src_port", "src_port"); ("dst_port", "dst_port");
  ("protocol", "protocol"); ("timestamp", "timestamp");
  ("flow_duration", "flow_duration"); ("flow_byts_s", "flow_byts_s");
  ("flow_pkts_s", "flow_pkts_s"); ("fwd_pkts_s", "fwd_pkts_s");
  ("bwd_pkts_s", "bwd_pkts_s"); ("pkt_len_mean", "pkt_len_mean");
  ("flow_iat_mean", "flow_iat_mean"); ("flow_iat_std", "flow_iat_std");
  ("fin_flag_cnt", "fin_flag_cnt"); ("syn_flag_cnt", "syn_flag_cnt");
  ("rst_flag_cnt", "rst_flag_cnt"); ("ack_flag_cnt", "ack_flag_cnt");
  ("down_up_ratio", "down_up_ratio"); ("label", "label")
].

(** Line 117: [df.columns.str.strip().str.replace(' ', '_').str.lower()]. *)
Definition tidy_name (col : string) : string :=
  PyStr.lower (PyStr.replace_space (PyStr.strip col)).

(** One turn of the loop of lines 121-135: the entry, if any, that the
    column [col] adds to [current_mapping]. *)
Definition mapping_entry (col : string) : option string :=
  match column_mappings !! col with
  | Some canonical => Some canonical
  | None =>
      if PyStr.contains "source" col && PyStr.contains "ip" col then Some "src_ip"
      else if PyStr.contains "destination" col && PyStr.contains "ip" col then Some "dst_ip"
      else if PyStr.contains "source" col && PyStr.contains "port" col then Some "src_port"
      else if PyStr.contains "destination" col && PyStr.contains "port" col then Some "dst_port"
      else if bool_decide (col ∈ ["class"; "attack"; "type"]) then Some "label"
      else None
  end.

(** Lines 120-135: the dict [current_mapping] after the loop. *)
Definition build_mapping (cols : list string) : gmap string string :=
  foldl (λ current_mapping col,
           match mapping_entry col with
           | Some canonical => <[col := canonical]> current_mapping
           | None => current_mapping
           end) ∅ cols.

(** [df.rename(columns=current_mapping)] on the column index. *)
Definition rename_columns (current_mapping : gmap string string)
    (cols : list string) : list string :=
  get_or_self current_mapping <$> cols.

(** The column index of the frame that line 137 returns, from the raw
    index. *)
Definition normalized_columns (raw : list string) : list string :=
  let cols := tidy_name <$> raw in
  rename_columns (build_mapping cols) cols.

Section Frames.
Context {V : Type}.

(** [normalize_column_names], lines 114-137.  [df] is a reference
    into the store [h].  Line 117 assigns to [df.columns], which
    updates the frame the caller passed; line 137 returns a frame of
    its own, allocated at a fresh reference. *)
Definition normalize_column_names (h : gmap nat (DataFrame V)) (df : nat)
    : option (gmap nat (DataFrame V) * nat) :=
  fr ← h !! df;
  let cols := tidy_name <$> columns fr in
  let h1 := <[df := with_columns cols fr]> h in
  let current_mapping := build_mapping cols in
  let result := fresh (dom h1) in
  Some (<[result := with_columns (rename_columns current_mapping cols) fr]> h1,
        result).

End Frames.

End Schema.

(** ** Label standardizer *)

Module Labels.

(** [label_mapping], lines 276-296. *)
Definition label_mapping : gmap string string := dict_display [
  ("BENIGN", "BENIGN");
  ("NORMAL", "BENIGN");
  ("DNS", "DNS");
  ("NTP", "NTP");
  ("HTTP", "HTTP");
  ("LDAP", "LDAP");
  ("MSSQL", "MSSQL");
  ("NETBIOS", "NetBIOS");
  ("NETBIOS_NAME_SERVICE", "NetBIOS");
  ("PORTMAP", "Portmap");
  ("RECURSIVE_GET", "RECURSIVE_GET");
  ("SLOWLORIS", "SLOWLORIS");
  ("SLOW_POST", "SLOW_POST");
  ("SYN", "SYN");
  ("UDP", "UDP");
  ("UDPLAG", "UDPLag");
  ("DDOS", "UDP");
  ("ATTACK", "UDP");
  ("FLOOD", "UDP")
].

(** Line 215 of [load_all_datasets]: [.str.strip().str.upper()]. *)
Definition clean_label (l : string) : string := PyStr.upper (PyStr.strip l).

(** Line 299 of [preprocess_unified_data]:
    [.map(label_mapping).fillna(df[target_column])], a label without
    entry keeps its value. *)
Definition map_label (l : string) : string := get_or_self label_mapping l.

(** The two steps in pipeline order, on one label and on a column. *)
Definition standardize (l : string) : string := map_label (clean_label l).

Definition standardize_labels (ls : list string) : list string :=
  standardize <$> ls.

End Labels.

(** ** Floats and the numpy/pandas reductions the cleaner calls *)

Module Np.

Inductive float : Type :=
  | Fin (q : Q)
  | PInf
  | NInf
  | NaN.

Definition isnan (x : float) : bool :=
  match x with NaN => true | _ => false end.

Definition isinf (x : float) : bool :=
  match x with PInf | NInf => true | _ => false end.

Definition isfinite (x : float) : bool :=
  match x with Fin _ => true | _ => false end.

Definition neg (x : float) : float :=
  match x with
  | Fin q => Fin (- q)%Q
  | PInf => NInf
  | NInf => PInf
  | NaN => NaN
  end.

Definition add (x y : float) : float :=
  match x, y with
  | NaN, _ | _, NaN => NaN
  | Fin a, Fin b => Fin (a + b)%Q
  | PInf, NInf | NInf, PInf => NaN
  | PInf, _ | _, PInf => PInf
  | NInf, _ | _, NInf => NInf
  end.

Definition sub (x y : float) : float := add x (neg y).

(** An infinity times a finite number: the sign of the number decides,
    and zero gives NaN. *)
Definition scale_inf (inf : float) (a : Q) : float :=
  match Qcompare a 0 with
  | Eq => NaN
  | Gt => inf
  | Lt => neg inf
  end.

Definition mul (x y : float) : float :=
  match x, y with
  | NaN, _ | _, NaN => NaN
  | Fin a, Fin b => Fin (a * b)%Q
  | Fin a, inf => scale_inf inf a
  | inf, Fin b => scale_inf inf b
  | PInf, PInf | NInf, NInf => PInf
  | PInf, NInf | NInf, PInf => NInf
  end.

(** [x <= y]; a comparison with NaN is false. *)
Definition leb (x y : float) : bool :=
  match x, y with
  | NaN, _ | _, NaN => false
  | NInf, _ | _, PInf => true
  | Fin a, Fin b => Qle_bool a b
  | _, _ => false
  end.

Definition sum (l : list float) : float := foldl add (Fin 0) l.

(** The values that are not missing, as the [skipna] reductions of
    pandas see a column. *)
Definition dropna (l : list float) : list float :=
  List.filter (λ x, negb (isnan x)) l.

Fixpoint insert_sorted (x : float) (l : list float) : list float :=
  match l with
  | [] => [x]
  | y :: r => if leb x y then x :: l else y :: insert_sorted x r
  end.

(** [np.sort] of a vector without NaN. *)
Definition sort (l : list float) : list float := foldr insert_sorted [] l.

(** [Series.median()]: the middle order statistic of the values present,
    the mean of the two middle ones when their number is even, NaN when
    there is none. *)
Definition median (col : list float) : float :=
  let v := sort (dropna col) in
  let n := length v in
  if Nat.eqb n 0 then NaN
  else if Nat.odd n then nth (n / 2)%nat v NaN
  else mul (Fin (1 # 2)) (add (nth (n / 2 - 1)%nat v NaN) (nth (n / 2)%nat v NaN)).

(** numpy's linear interpolation between two neighbouring order
    statistics. *)
Definition lerp (a b : float) (t : Q) : float :=
  if Qle_bool (1 # 2) t
  then sub b (mul (sub b a) (Fin (1 - t)%Q))
  else add a (mul (sub b a) (Fin t)).

(** [Series.quantile(q)] with the default linear interpolation: the
    values present are sorted, the virtual index is [(n - 1) * q]. *)
Definition quantile (q : Q) (col : list float) : float :=
  let v := sort (dropna col) in
  let n := length v in
  if Nat.eqb n 0 then NaN
  else
    let pos := (inject_Z (Z.of_nat (n - 1)) * q)%Q in
    let lo := Z.to_nat (Qfloor pos) in
    let hi := Nat.min (lo + 1) (n - 1) in
    lerp (nth lo v NaN) (nth hi v NaN) (pos - inject_Z (Qfloor pos))%Q.

(** [Series.var()] with [ddof=1], as pandas' [nanvar] computes it. *)
Definition var (col : list float) : float :=
  let v := dropna col in
  let count := length v in
  if Nat.leb count 1 then NaN
  else
    let avg := mul (sum v) (Fin (1 # Pos.of_nat count)) in
    let sqr := (λ x, mul (sub avg x) (sub avg x)) <$> v in
    mul (sum sqr) (Fin (1 # Pos.of_nat (count - 1)%nat)).

(** [Series.std() == 0]: the square root of the variance is zero exactly
    when the variance is. *)
Definition std_is_zero (col : list float) : bool :=
  match var col with
  | Fin v => Qeq_bool v 0
  | _ => false
  end.

(** [Series.fillna(m)]. *)
Definition fillna (m : float) (col : list float) : list float :=
  (λ x, if isnan x then m else x) <$> col.

(** [Series.replace([np.inf, -np.inf], np.nan)]. *)
Definition replace_inf (col : list float) : list float :=
  (λ x, if isinf x then NaN else x) <$> col.

(** [Series.clip(lower, upper)] with the bounds of that column.  pandas
    treats a missing bound as no bound, keeps missing values, and tests
    the value before clipping against either bound. *)
Definition clip_value (lower upper x : float) : float :=
  let above := isnan lower || leb lower x || isnan x in
  let r := if above then x else lower in
  let below := isnan upper || leb x upper || isnan r in
  if below then r else upper.

Definition clip (lower upper : float) (col : list float) : list float :=
  clip_value lower upper <$> col.

End Np.

(** ** Dataset cleaner *)

Module Cleaner.

Import Np.

(** Lines 332 and 337: [X = X.fillna(X.median())]. *)
Definition fill_median (X : DataFrame float) : DataFrame float :=
  (λ c, (c.1, fillna (median c.2) c.2)) <$> X.

(** Line 336: [X = X.replace([np.inf, -np.inf], np.nan)]. *)
Definition drop_inf (X : DataFrame float) : DataFrame float :=
  (λ c, (c.1, replace_inf c.2)) <$> X.

(** Lines 332-337. *)
Definition impute (X : DataFrame float) : DataFrame float :=
  fill_median (drop_inf (fill_median X)).

(** Line 341: [X.columns[X.std() == 0]]. *)
Definition constant_features (X : DataFrame float) : list string :=
  (List.filter (λ c, std_is_zero c.2) X).*1.

(** Lines 342-343: [X.drop(columns=constant_features)]. *)
Definition drop_constant (X : DataFrame float) : DataFrame float :=
  let names := constant_features X in
  if Nat.ltb 0 (length names)
  then List.filter (λ c, negb (bool_decide (c.1 ∈ names))) X
  else X.

(** Lines 349-353 on one column. *)
Definition lower_bound (col : list float) : float :=
  let Q1 := quantile (1 # 4) col in
  let Q3 := quantile (3 # 4) col in
  let IQR := sub Q3 Q1 in
  sub Q1 (mul (Fin 3) IQR).

Definition upper_bound (col : list float) : float :=
  let Q1 := quantile (1 # 4) col in
  let Q3 := quantile (3 # 4) col in
  let IQR := sub Q3 Q1 in
  add Q3 (mul (Fin 3) IQR).

(** Line 354: [X.clip(lower=lower_bound, upper=upper_bound, axis=1)],
    the bounds being those of the frame that is clipped. *)
Definition clip_outliers (X : DataFrame float) : DataFrame float :=
  (λ c, (c.1, clip (lower_bound c.2) (upper_bound c.2) c.2)) <$> X.

(** Lines 329-355, "Advanced data cleaning", on the numeric frame [X]
    of line 323.  The result is the frame that is split afterwards. *)
Definition advanced_data_cleaning (X : DataFrame float) : DataFrame float :=
  clip_outliers (drop_constant (impute X)).

End Cleaner.

(** ** Train/test split *)

Module Split.

(** scikit-learn's [_validate_shuffle_split] for [test_size=0.2] and
    [train_size=None]: [n_test = ceil(0.2 * n_samples)], the rest is the
    training part, and an empty training part is a [ValueError]. *)
Definition validate_shuffle_split (n_samples : nat) : exn + nat * nat :=
  let n_test := ((n_samples + 4) / 5)%nat in
  let n_train := (n_samples - n_test)%nat in
  if Nat.eqb n_train 0 then inl ValueError else inr (n_train, n_test).

(** [np.bincount] of the labels: the size of each class. *)
Definition class_counts (y : list string) : list nat :=
  (λ c, length (List.filter (String.eqb c) y)) <$> remove_dups y.

(** [y.iloc[idx]]. *)
Definition take_labels (idx : list nat) (y : list string) : list string :=
  omap (λ i, y !! i) idx.

Section TrainTestSplit.

(** [np.random.RandomState(seed).permutation(n)]. *)
Variable permutation : nat → nat → list nat.

(** The per-class index draw of [StratifiedShuffleSplit] for a seed,
    the labels and the two sizes, once its checks have passed. *)
Variable stratified_draw : nat → list string → nat → nat → list nat * list nat.

(** [ShuffleSplit]: the first [n_test] indices of the permutation are
    the test rows, the next [n_train] the training rows. *)
Definition shuffle_split (seed n_samples n_train n_test : nat)
    : list nat * list nat :=
  let p := permutation seed n_samples in
  (take n_train (drop n_test p), take n_test p).

(** [StratifiedShuffleSplit]: a [ValueError] when the least populated
    class has fewer than two members or a part is smaller than the
    number of classes. *)
Definition stratified_shuffle_split (seed : nat) (y : list string)
    (n_train n_test : nat) : exn + list nat * list nat :=
  let counts := class_counts y in
  let n_classes := length counts in
  if Nat.ltb (foldr Nat.min (hd 0%nat counts) counts) 2 then inl ValueError
  else if Nat.ltb n_train n_classes then inl ValueError
  else if Nat.ltb n_test n_classes then inl ValueError
  else inr (stratified_draw seed y n_train n_test).

(** [train_test_split(X, y, test_size=0.2, random_state=seed,
    stratify=...)].  [X] and [y] are cut from one frame and have the
    same number of rows. *)
Definition train_test_split {V} (X : DataFrame V) (y : list string)
    (random_state : nat) (stratify : option (list string))
    : exn + DataFrame V * DataFrame V * list string * list string :=
  match validate_shuffle_split (length y) with
  | inl e => inl e
  | inr (n_train, n_test) =>
      let indices :=
        match stratify with
        | Some labels => stratified_shuffle_split random_state labels n_train n_test
        | None => inr (shuffle_split random_state (length y) n_train n_test)
        end in
      match indices with
      | inl e => inl e
      | inr (train, test) =>
          inr (take_rows train X, take_rows test X,
               take_labels train y, take_labels test y)
      end
  end.

(** Lines 357-366 of [preprocess_unified_data]. *)
Definition split_with_fallback {V} (X : DataFrame V) (y : list string)
    : exn + DataFrame V * DataFrame V * list string * list string :=
  match train_test_split X y 42 (Some y) with
  | inl ValueError => train_test_split X y 42 None
  | r => r
  end.

(** Lines 329-372 of [preprocess_unified_data]: cleaning, then the
    split of the cleaned frame. *)
Definition clean_and_split (X : DataFrame Np.float) (y : list string)
    : exn + DataFrame Np.float * DataFrame Np.float * list string * list string :=
  split_with_fallback (Cleaner.advanced_data_cleaning X) y.

End TrainTestSplit.

End Split.

(** ** Model search and ensemble *)

Module Search.

(** [a > b] on scores. *)
Definition Qgtb (a b : Q) : bool := negb (Qle_bool a b).

Section TrainBestModel.

Context {estimator : Type}.

(** The entries of a [results[name]] dict that selection reads; the
    parameters, the cross-validation score and the reports are
    carried along by the source and never read back. *)
Record result : Type := mkResult {
  model : estimator;
  test_accuracy : Q;
  test_f1 : Q
}.

(** Lines 517-547 for one learner: the grid search, the prediction on
    the held-out split and the scores; [None] when a call in the
    [try] block raises. *)
Variable search_and_evaluate : string → option result.

(** Lines 564-571: the soft-voting classifier over the given named
    estimators, fitted and scored.  No handler surrounds these lines. *)
Variable fit_ensemble : list (string * estimator) → exn + result.

(** The keys of the dict [models], lines 430-504, in insertion order. *)
Definition models (n_train : N) : list string :=
  ["Optimized Random Forest"; "XGBoost"; "Gradient Boosting"; "Extra Trees"]
  ++ (if N.ltb 10000 n_train then ["Neural Network"] else [])
  ++ (if N.ltb n_train 50000 then ["Optimized SVM"] else []).

(** [results[name] = r] on a dict kept in insertion order. *)
Fixpoint dict_set (name : string) (r : result) (results : list (string * result))
    : list (string * result) :=
  match results with
  | [] => [(name, r)]
  | (k, v) :: rest =>
      if String.eqb k name then (k, r) :: rest
      else (k, v) :: dict_set name r rest
  end.

Record state : Type := mkState {
  results : list (string * result);
  best_model : option estimator;
  best_score : Q;
  best_model_name : string
}.

(** Lines 506-507. *)
Definition initial : state := mkState [] None 0 "".

(** One turn of the loop of lines 512-556. *)
Definition train_one (st : state) (name : string) : state :=
  match search_and_evaluate name with
  | Some r =>
      let results' := dict_set name r (results st) in
      if Qgtb (test_f1 r) (best_score st)
      then mkState results' (Some (model r)) (test_f1 r) name
      else mkState results' (best_model st) (best_score st) (best_model_name st)
  | None => st
  end.

Definition train_candidates (names : list string) : state :=
  foldl train_one initial names.

(** [sorted(items, key=test_f1, reverse=True)]: descending and stable,
    equal scores keep their order. *)
Fixpoint insert_desc (x : string * result) (l : list (string * result))
    : list (string * result) :=
  match l with
  | [] => [x]
  | y :: rest =>
      if Qgtb (test_f1 y.2) (test_f1 x.2) then y :: insert_desc x rest
      else x :: l
  end.

Definition sorted_by_f1 (l : list (string * result)) : list (string * result) :=
  foldr insert_desc [] l.

(** Line 561. *)
Definition top_models (st : state) : list (string * result) :=
  take 3 (sorted_by_f1 (results st)).

(** Line 563. *)
Definition voting_models (top : list (string * result)) : list (string * estimator) :=
  (λ x, (PyStr.replace_space x.1, model x.2)) <$> top.

(** Lines 558-588. *)
Definition add_ensemble (st : state) : exn + state :=
  if Nat.leb 3 (length (results st)) then
    match fit_ensemble (voting_models (top_models st)) with
    | inl e => inl e
    | inr ens =>
        let results' := dict_set "Ensemble" ens (results st) in
        if Qgtb (test_f1 ens) (best_score st)
        then inr (mkState results' (Some (model ens)) (test_f1 ens) "Ensemble")
        else inr (mkState results' (best_model st) (best_score st) (best_model_name st))
    end
  else inr st.

(** [train_best_model], lines 421-591, for a training split of
    [n_train] rows.  The state returned holds the tuple the method
    returns; its [best_model] is also what [self.best_model] becomes. *)
Definition train_best_model (n_train : N) : exn + state :=
  add_ensemble (train_candidates (models n_train)).

End TrainBestModel.

Arguments result : clear implicits.
Arguments state : clear implicits.

End Search.

(** ** Artifact store and inference *)

Module Artifact.

(** What inference needs of a fitted estimator: [predict], and
    [predict_proba] when the estimator has that attribute.  A batch is a
    list of rows. *)
Record classifier : Type := mkClassifier {
  predict : list (list Np.float) → list string;
  predict_proba : option (list (list Np.float) → list (list Np.float))
}.

(** [np.max] of one row: NaN wins, an empty row is a [ValueError]. *)
Definition np_max (row : list Np.float) : exn + Np.float :=
  match row with
  | [] => inl ValueError
  | x :: rest =>
      inr (foldl (λ m v, if Np.isnan m then m
                         else if Np.isnan v then v
                         else if Np.leb m v then v else m) x rest)
  end.

(** [np.max(probabilities, axis=1)]. *)
Fixpoint np_max_rows (rows : list (list Np.float)) : exn + list Np.float :=
  match rows with
  | [] => inr []
  | row :: rest =>
      match np_max row with
      | inl e => inl e
      | inr m =>
          match np_max_rows rest with
          | inl e => inl e
          | inr ms => inr (m :: ms)
          end
      end
  end.

Section Store.

Context {scaler_t encoders_t network_data_t selector_t pca_t : Type}.

(** The fields of [self] that the store and inference read. *)
Record analysis : Type := mkAnalysis {
  scaler : option scaler_t;
  best_model : option classifier;
  feature_columns : option (list string);
  label_encoders : encoders_t;
  original_network_data : network_data_t;
  feature_selector : option selector_t;
  pca : option pca_t;
  column_mappings : gmap string string
}.

(** A [metadata] dict as a file holds it: each key with its value, or
    missing.  The dict of lines 599-606 has all six keys; [None] is a
    value like any other. *)
Record metadata : Type := mkMetadata {
  md_feature_columns : option (option (list string));
  md_label_encoders : option encoders_t;
  md_original_network_data : option network_data_t;
  md_column_mappings : option (gmap string string);
  md_feature_selector : option (option selector_t);
  md_pca : option (option pca_t)
}.

(** The content of a file written by [joblib.dump]. *)
Inductive pickle : Type :=
  | PModel (m : classifier)
  | PScaler (s : scaler_t)
  | PMetadata (md : metadata).

(** [joblib.dump(obj, path)] on a file system that maps a path to the
    file's content: the file system it leaves behind and the exception it
    raises, if any (a path that cannot be written, a full disk, an object
    that cannot be pickled). *)
Variable dump : pickle → string → gmap string pickle → gmap string pickle * option exn.

(** [save_model_and_scaler], lines 593-614.  A fitted estimator or
    scaler is a true value for [and]; [None] is not.  The three dumps are
    made in turn and none is guarded: an exception leaves the method at
    once, with the file system as the dumps so far have left it. *)
Definition save_model_and_scaler (self : analysis) (fs : gmap string pickle)
    (model_name : string)
    : gmap string pickle * (exn + option string * option string * option string) :=
  match best_model self, scaler self with
  | Some m, Some sc =>
      let d1 := dump (PModel m) (model_name +:+ ".pkl") fs in
      match d1.2 with
      | Some e => (d1.1, inl e)
      | None =>
          let d2 := dump (PScaler sc) (model_name +:+ "_scaler.pkl") d1.1 in
          match d2.2 with
          | Some e => (d2.1, inl e)
          | None =>
              let md := mkMetadata (Some (feature_columns self))
                          (Some (label_encoders self))
                          (Some (original_network_data self))
                          (Some (column_mappings self))
                          (Some (feature_selector self)) (Some (pca self)) in
              let d3 := dump (PMetadata md) (model_name +:+ "_metadata.pkl") d2.1 in
              match d3.2 with
              | Some e => (d3.1, inl e)
              | None =>
                  (d3.1, inr (Some (model_name +:+ ".pkl"),
                              Some (model_name +:+ "_scaler.pkl"),
                              Some (model_name +:+ "_metadata.pkl")))
              end
          end
      end
  | _, _ => (fs, inr (None, None, None))
  end.

(** [predict_with_confidence], lines 635-646.  With [self.best_model]
    unset the attribute [predict] is missing. *)
Definition predict_with_confidence (self : analysis) (X : list (list Np.float))
    : exn + list string * list Np.float :=
  match best_model self with
  | None => inl AttributeError
  | Some m =>
      match predict_proba m with
      | Some proba =>
          let probabilities := proba X in
          let predictions := predict m X in
          match np_max_rows probabilities with
          | inl e => inl e
          | inr confidences => inr (predictions, confidences)
          end
      | None =>
          let predictions := predict m X in
          let confidences :=
            (λ one, Np.mul one (Np.Fin (8 # 10))) <$>
            replicate (length predictions) (Np.Fin 1) in
          inr (predictions, confidences)
      end
  end.

End Store.

Arguments analysis : clear implicits.
Arguments metadata : clear implicits.
Arguments pickle : clear implicits.

End Artifact.

(** ** Frames addressed by column name *)

(** [df[name]], the first column of that name; the methods below read a
    column only where its presence has been tested, and the frames they
    work on have distinct column names. *)
Fixpoint get_column {V} (name : string) (df : DataFrame V) : option (list V) :=
  match df with
  | [] => None
  | c :: rest => if String.eqb c.1 name then Some c.2 else get_column name rest
  end.

(** [name in df.columns]. *)
Definition has_column {V} (name : string) (df : DataFrame V) : bool :=
  bool_decide (name ∈ columns df).

(** [df[name] = cells]: the column of that name is replaced where it
    stands, a new name is appended. *)
Fixpoint set_column {V} (name : string) (cells : list V) (df : DataFrame V)
    : DataFrame V :=
  match df with
  | [] => [(name, cells)]
  | c :: rest =>
      if String.eqb c.1 name then (name, cells) :: rest
      else c :: set_column name cells rest
  end.

(** [df.drop(columns=names)]. *)
Definition drop_columns {V} (names : list string) (df : DataFrame V) : DataFrame V :=
  List.filter (λ c, negb (bool_decide (c.1 ∈ names))) df.

(** [s.isascii()]: every character is below 128.  On such strings
    [PyStr.lower], [PyStr.upper] and [PyStr.strip] are Python's methods. *)
Fixpoint isascii (s : string) : bool :=
  match s with
  | EmptyString => true
  | String c r => Nat.ltb (nat_of_ascii c) 128 && isascii r
  end.

(** ** Feature engineer *)

Module Features.

Import Np.

(** Float division as numpy does it: a finite number over zero is the
    infinity of its sign, zero over zero is NaN, a finite number over an
    infinity is zero. *)
Definition div (x y : float) : float :=
  match x, y with
  | NaN, _ | _, NaN => NaN
  | Fin a, Fin b =>
      match Qcompare b 0 with
      | Eq => scale_inf PInf a
      | _ => Fin (a / b)%Q
      end
  | Fin _, _ => Fin 0
  | inf, Fin b =>
      match Qcompare b 0 with
      | Lt => neg inf
      | _ => inf
      end
  | _, _ => NaN
  end.

(** [df[name]] under a guard that has found the column. *)
Definition col (name : string) (df : DataFrame float) : list float :=
  default [] (get_column name df).

(** The bounds of [int64] and the largest [uint64]. *)
Definition int64_max : Z := 9223372036854775807.
Definition int64_min : Z := -9223372036854775808.
Definition uint64_max : Z := 18446744073709551615.

(** [x + 1] on one cell of a numeric column as [read_csv] types it.  A
    column of whole numbers is [int64], or [uint64] beyond that range, and
    its addition wraps around at the largest value of the type; neither
    largest value is a [float64], so the cell itself tells the case. *)
Definition add_one (x : float) : float :=
  match x with
  | Fin q =>
      if Qeq_bool q (inject_Z int64_max) then Fin (inject_Z int64_min)
      else if Qeq_bool q (inject_Z uint64_max) then Fin 0
      else Fin (q + 1)%Q
  | _ => add x (Fin 1)
  end.

(** [series + 1]. *)
Definition plus_one (cells : list float) : list float := add_one <$> cells.

(** [(mask).astype(int)] on one cell. *)
Definition as_int (b : bool) : float := if b then Fin 1 else Fin 0.

(** [x == k], [x > 0] and [x.isin(values)] on one cell; all are false on
    NaN. *)
Definition eq_num (k : Q) (x : float) : bool :=
  match x with
  | Fin q => Qeq_bool q k
  | _ => false
  end.

Definition gt_zero (x : float) : bool :=
  match x with
  | Fin q => negb (Qle_bool q 0)
  | PInf => true
  | _ => false
  end.

Definition isin (values : list Q) (x : float) : bool :=
  match x with
  | Fin q => existsb (Qeq_bool q) values
  | _ => false
  end.

(** [frame.sum(axis=1)] over the given columns of one frame: missing
    cells count as zero. *)
Definition row_sum (cols : list (list float)) : list float :=
  match cols with
  | [] => []
  | c :: _ =>
      foldl (λ acc cells, zip_with (λ a x, add a (if isnan x then Fin 0 else x)) acc cells)
            (replicate (length c) (Fin 0)) cols
  end.

(** Lines 144-146. *)
Definition ratio_features (df : DataFrame float) : DataFrame float :=
  if has_column "tot_fwd_pkts" df && has_column "tot_bwd_pkts" df then
    let df1 := set_column "fwd_bwd_ratio"
                 (zip_with div (col "tot_fwd_pkts" df) (plus_one (col "tot_bwd_pkts" df))) df in
    set_column "bwd_fwd_ratio"
      (zip_with div (col "tot_bwd_pkts" df1) (plus_one (col "tot_fwd_pkts" df1))) df1
  else df.

(** Lines 149-152. *)
Definition packet_size_features (df : DataFrame float) : DataFrame float :=
  let df1 :=
    if has_column "totlen_fwd_pkts" df && has_column "tot_fwd_pkts" df then
      set_column "avg_fwd_pkt_size"
        (zip_with div (col "totlen_fwd_pkts" df) (plus_one (col "tot_fwd_pkts" df))) df
    else df in
  if has_column "totlen_bwd_pkts" df1 && has_column "tot_bwd_pkts" df1 then
    set_column "avg_bwd_pkt_size"
      (zip_with div (col "totlen_bwd_pkts" df1) (plus_one (col "tot_bwd_pkts" df1))) df1
  else df1.

(** Lines 155-156. *)
Definition flow_efficiency_feature (df : DataFrame float) : DataFrame float :=
  if has_column "flow_duration" df && has_column "flow_pkts_s" df then
    set_column "flow_efficiency"
      (zip_with mul (col "flow_pkts_s" df) (col "flow_duration" df)) df
  else df.

(** Line 159. *)
Definition flag_cols : list string :=
  ["fin_flag_cnt"; "syn_flag_cnt"; "rst_flag_cnt"; "psh_flag_cnt";
   "ack_flag_cnt"; "urg_flag_cnt"].

(** Line 160. *)
Definition available_flags (df : DataFrame float) : list string :=
  List.filter (λ name, has_column name df) flag_cols.

(** Lines 161-163. *)
Definition flag_features (df : DataFrame float) : DataFrame float :=
  let available := available_flags df in
  if Nat.leb 2 (length available) then
    let df1 := set_column "total_flags"
                 (row_sum ((λ name, col name df) <$> available)) df in
    set_column "flag_diversity"
      (row_sum ((λ name, (λ x, as_int (gt_zero x)) <$> col name df1) <$> available)) df1
  else df.

(** Lines 166-169. *)
Definition protocol_features (df : DataFrame float) : DataFrame float :=
  if has_column "protocol" df then
    let df1 := set_column "is_tcp" ((λ x, as_int (eq_num 6 x)) <$> col "protocol" df) df in
    let df2 := set_column "is_udp" ((λ x, as_int (eq_num 17 x)) <$> col "protocol" df1) df1 in
    set_column "is_icmp" ((λ x, as_int (eq_num 1 x)) <$> col "protocol" df2) df2
  else df.

(** Line 177. *)
Definition common_ports : list Q :=
  [80; 443; 22; 21; 25; 53; 110; 995; 993; 143]%Q.

(** Lines 172-179. *)
Definition port_features (df : DataFrame float) : DataFrame float :=
  if has_column "src_port" df && has_column "dst_port" df then
    let df1 := set_column "src_is_wellknown"
                 ((λ x, as_int (leb x (Fin 1024))) <$> col "src_port" df) df in
    let df2 := set_column "dst_is_wellknown"
                 ((λ x, as_int (leb x (Fin 1024))) <$> col "dst_port" df1) df1 in
    let df3 := set_column "src_is_common"
                 ((λ x, as_int (isin common_ports x)) <$> col "src_port" df2) df2 in
    set_column "dst_is_common"
      ((λ x, as_int (isin common_ports x)) <$> col "dst_port" df3) df3
  else df.

(** [create_engineered_features], lines 139-182, on a frame of numeric
    columns.  The method updates the frame it is given and returns it; the
    function gives the content the frame ends with. *)
Definition create_engineered_features (df : DataFrame float) : DataFrame float :=
  port_features (protocol_features (flag_features (flow_efficiency_feature
    (packet_size_features (ratio_features df))))).

End Features.

(** ** Loading a source file *)

Module Loading.

(** Line 205. *)
Definition label_alternatives : list string :=
  ["Label"; "label"; "LABEL"; "target"; "Target"; "class"; "Class"; "attack"; "Attack"].

(** [df.rename(columns={alt: target}, inplace=True)] on the column
    index. *)
Definition rename_one (alt target : string) (cols : list string) : list string :=
  (λ c, if String.eqb c alt then target else c) <$> cols.

(** Lines 203-212 of [load_all_datasets] on the column index of a file:
    the index once the label column is in place, or [None] when the loop
    ends without a match and the file is skipped. *)
Definition locate_label (target_column : string) (cols : list string)
    : option (list string) :=
  if bool_decide (target_column ∈ cols) then Some cols
  else
    match List.find (λ alt, bool_decide (alt ∈ cols)) label_alternatives with
    | Some alt => Some (rename_one alt target_column cols)
    | None => None
    end.

(** How many columns bear the name. *)
Definition occurrences (name : string) (cols : list string) : nat :=
  length (List.filter (String.eqb name) cols).

(** Lines 203-215 on the column index of a file: the index with which
    the file goes on, or [None] when the file is skipped.  Line 215 takes
    [df[target_column]] for a column; with two columns of that name it is
    a frame, [.str] raises [AttributeError] and the handler of line 230
    skips the file. *)
Definition label_step (target_column : string) (cols : list string)
    : option (list string) :=
  match locate_label target_column cols with
  | Some cols' =>
      if Nat.eqb (occurrences target_column cols') 1 then Some cols' else None
  | None => None
  end.

Fixpoint insert_key (k : string) (keys : list string) : list string :=
  match keys with
  | [] => [k]
  | k' :: rest => if String.leb k k' then k :: keys else k' :: insert_key k rest
  end.

(** The group keys of [df.groupby(target_column)]: the labels present,
    each once, in ascending order. *)
Definition group_keys (y : list string) : list string :=
  foldr insert_key [] (remove_dups y).

(** The rows of one group. *)
Definition group_rows (y : list string) (key : string) : list nat :=
  List.filter (λ i, bool_decide (y !! i = Some key)) (seq 0 (length y)).

Section Sampling.

(** [x.sample(n, random_state=seed)] on the rows [x] of a group: the rows
    drawn. *)
Variable sample : nat → list nat → nat → list nat.

(** Lines 219-224: the rows of the file that are kept, for its label
    column [y].  A file within the cap keeps all its rows; beyond the cap
    every class is sampled down to its share. *)
Definition balanced_sampling (max_samples_per_file : nat) (y : list string)
    : list nat :=
  if Nat.ltb max_samples_per_file (length y) then
    let samples_per_class := (max_samples_per_file / length (remove_dups y))%nat in
    mjoin ((λ key, let x := group_rows y key in
                   sample 42%nat x (Nat.min (length x) samples_per_class))
           <$> group_keys y)
  else seq 0 (length y).

End Sampling.

(** Lines 265-267 of [preprocess_unified_data]: the bookkeeping columns
    are dropped. *)
Definition drop_bookkeeping {V} (df : DataFrame V) : DataFrame V :=
  let df1 := drop_columns ["source_file"] df in
  let df2 := drop_columns
               (List.filter (λ c, has_column c df1) ["timestamp"; "Timestamp"]) df1 in
  drop_columns (List.filter (PyStr.contains "Unnamed") (columns df2)) df2.

End Loading.

(** ** Reloading the bundle *)

Module Reload.

Section Load.

Context {scaler_t encoders_t network_data_t selector_t pca_t : Type}.

(** The empty dict [{}], the default of line 625. *)
Variable empty_dict : network_data_t.

(** [load_model_and_scaler], lines 616-633, on the file system of
    [save_model_and_scaler].  The assignments are made one by one inside
    the [try] block: when a [joblib.load] raises for a missing file, or a
    subscript of lines 623-624 raises for a missing key or on a file that
    holds no dict, the handler returns [False] and the fields assigned
    before stay assigned.  The three [get] calls of lines 625-627 fall
    back on their defaults.  The result is [None] where the model or the
    scaler file holds an object of another kind: Python would store it in
    the field, which the typed state cannot. *)
Definition load_model_and_scaler
    (self : Artifact.analysis scaler_t encoders_t network_data_t selector_t pca_t)
    (fs : gmap string (Artifact.pickle scaler_t encoders_t network_data_t selector_t pca_t))
    (model_name : string)
    : option (Artifact.analysis scaler_t encoders_t network_data_t selector_t pca_t * bool) :=
  match fs !! (model_name +:+ ".pkl") with
  | None => Some (self, false)
  | Some (Artifact.PModel m) =>
      let self1 :=
        Artifact.mkAnalysis (Artifact.scaler self) (Some m)
          (Artifact.feature_columns self) (Artifact.label_encoders self)
          (Artifact.original_network_data self) (Artifact.feature_selector self)
          (Artifact.pca self) (Artifact.column_mappings self) in
      match fs !! (model_name +:+ "_scaler.pkl") with
      | None => Some (self1, false)
      | Some (Artifact.PScaler sc) =>
          let self2 :=
            Artifact.mkAnalysis (Some sc) (Some m)
              (Artifact.feature_columns self) (Artifact.label_encoders self)
              (Artifact.original_network_data self) (Artifact.feature_selector self)
              (Artifact.pca self) (Artifact.column_mappings self) in
          match fs !! (model_name +:+ "_metadata.pkl") with
          | Some (Artifact.PMetadata md) =>
              match Artifact.md_feature_columns md with
              | None => Some (self2, false)
              | Some cols =>
                  let self3 :=
                    Artifact.mkAnalysis (Some sc) (Some m) cols
                      (Artifact.label_encoders self)
                      (Artifact.original_network_data self)
                      (Artifact.feature_selector self)
                      (Artifact.pca self) (Artifact.column_mappings self) in
                  match Artifact.md_label_encoders md with
                  | None => Some (self3, false)
                  | Some encoders =>
                      Some (Artifact.mkAnalysis (Some sc) (Some m) cols encoders
                              (default empty_dict (Artifact.md_original_network_data md))
                              (default None (Artifact.md_feature_selector md))
                              (default None (Artifact.md_pca md))
                              (Artifact.column_mappings self),
                            true)
                  end
              end
          | _ => Some (self2, false)
          end
      | Some _ => None
      end
  | Some _ => None
  end.

End Load.

End Reload.

(** * Vocabulary of the properties *)

(** ** Strings *)

(** A string that is empty or starts with a visible character. *)
Definition left_tidy (s : string) : Prop :=
  match s with
  | EmptyString => True
  | String c _ => PyStr.isspace c = false
  end.

(** ** Floats and columns *)

(** A column of whole numbers. *)
Definition integers (zs : list Z) : list Np.float :=
  (λ z, Np.Fin (inject_Z z)) <$> zs.

(** Every cell is a finite number; every cell is missing. *)
Definition all_finite (col : list Np.float) : Prop :=
  Forall (λ x, Np.isfinite x = true) col.

Definition all_nan (col : list Np.float) : Prop :=
  Forall (λ x, x = Np.NaN) col.

(** On a column of finite values [Np.sort], [Np.lerp] and [Np.quantile]
    are the following functions on the rationals behind the values
    (lemmas [sort_fin], [lerp_fin] and [quantile_fin]). *)
Fixpoint qinsert (x : Q) (l : list Q) : list Q :=
  match l with
  | [] => [x]
  | y :: r => if Qle_bool x y then x :: l else y :: qinsert x r
  end.

Definition qsort (l : list Q) : list Q := foldr qinsert [] l.

Definition qlerp (a b t : Q) : Q :=
  if Qle_bool (1 # 2) t
  then (b + - ((b + - a) * (1 - t)))%Q
  else (a + (b + - a) * t)%Q.

Definition qposition (n : nat) (q : Q) : Q := (inject_Z (Z.of_nat (n - 1)) * q)%Q.

Definition qquantile (q : Q) (l : list Q) : Q :=
  let v := qsort l in
  let n := length v in
  let pos := qposition n q in
  let lo := Z.to_nat (Qfloor pos) in
  let hi := Nat.min (lo + 1) (n - 1) in
  qlerp (nth lo v 0%Q) (nth hi v 0%Q) (pos - inject_Z (Qfloor pos))%Q.

(** Lines 332-337 on one column. *)
Definition impute_column (col : list Np.float) : list Np.float :=
  let c1 := Np.fillna (Np.median col) col in
  let c2 := Np.replace_inf c1 in
  Np.fillna (Np.median c2) c2.

(** ** Splits and bounds *)

(** [clean_and_split] when the shuffle draws the rows in the order [p]. *)
Definition split_in_order (p : list nat) (X : DataFrame Np.float) (y : list string)
    : exn + DataFrame Np.float * DataFrame Np.float * list string * list string :=
  Split.clean_and_split
    (λ _ _, p)
    (λ _ _ n_train n_test, (take n_train (drop n_test p), take n_test p))
    X y.

(** A value of the test part lies above the upper bound Q3 + 3*IQR taken
    on the same column of the training part. *)
Definition above_training_bound (X_train X_test : DataFrame Np.float) : Prop :=
  ∃ j name train test v,
    X_train !! j = Some (name, train) ∧ X_test !! j = Some (name, test) ∧
    v ∈ test ∧ Np.isnan v = false ∧
    Np.isnan (Cleaner.upper_bound train) = false ∧
    Np.leb v (Cleaner.upper_bound train) = false.

(** The same as a test that computes. *)
Definition above_training_boundb (X_train X_test : DataFrame Np.float) : bool :=
  existsb (λ p : (string * list Np.float) * (string * list Np.float),
             String.eqb p.1.1 p.2.1 &&
             negb (Np.isnan (Cleaner.upper_bound p.1.2)) &&
             existsb (λ v, negb (Np.isnan v) &&
                           negb (Np.leb v (Cleaner.upper_bound p.1.2))) p.2.2)
          (zip X_train X_test).

(** ** Inference *)

(** A float between 0 and 1, both included. *)
Definition unit_interval (x : Np.float) : Prop :=
  Np.leb (Np.Fin 0) x = true ∧ Np.leb x (Np.Fin 1) = true.

(** [c] is the largest entry of [row]. *)
Definition is_max_of (row : list Np.float) (c : Np.float) : Prop :=
  c ∈ row ∧ ∀ p, p ∈ row → Np.leb p c = true.

(** The contract of a fitted scikit-learn classifier on the batch [X]: one
    prediction per row, and, when it has [predict_proba], one row of class
    probabilities per row of the batch, over at least one class. *)
Definition classifier_contract (m : Artifact.classifier) (X : list (list Np.float)) : Prop :=
  length (Artifact.predict m X) = length X ∧
  match Artifact.predict_proba m with
  | Some proba =>
      length (proba X) = length X ∧
      Forall (λ row, row ≠ [] ∧ Forall unit_interval row) (proba X)
  | None => True
  end.

(** ** Search *)

Section SearchVocabulary.

Context {estimator : Type}.
Variable search_and_evaluate : string → option (Search.result estimator).

(** The learners of [names] whose search succeeded, with their results,
    in the order of evaluation. *)
Definition succeeded (names : list string)
    : list (string * Search.result estimator) :=
  omap (λ name, pair name <$> search_and_evaluate name) names.

(** Entry [i] of [rs] has the highest score, and is the first to have
    it. *)
Definition first_best (rs : list (string * Search.result estimator))
    (i : nat) (name : string) (r : Search.result estimator) : Prop :=
  rs !! i = Some (name, r) ∧
  (∀ j x, rs !! j = Some x → (Search.test_f1 x.2 <= Search.test_f1 r)%Q) ∧
  (∀ j x, (j < i)%nat → rs !! j = Some x →
     (Search.test_f1 x.2 < Search.test_f1 r)%Q).

(** What lines 506-551 leave in the three [best_] variables for the
    successful results [rs]: nothing when no score is above zero, else the
    first entry with the highest score. *)
Definition provisional_best (rs : list (string * Search.result estimator))
    (st : Search.state estimator) : Prop :=
  (Search.best_model st = None ∧ Search.best_score st = 0%Q ∧
   Search.best_model_name st = "" ∧
   ∀ x, x ∈ rs → (Search.test_f1 x.2 <= 0)%Q)
  ∨
  (∃ i name r,
     first_best rs i name r ∧ (0 < Search.test_f1 r)%Q ∧
     Search.best_model st = Some (Search.model r) ∧
     Search.best_score st = Search.test_f1 r ∧
     Search.best_model_name st = name).

(** [top] holds three of the results [rs], in descending order of score,
    and none of the others scores higher than one of them. *)
Definition top_three (top rs : list (string * Search.result estimator)) : Prop :=
  length top = 3%nat ∧
  StronglySorted (λ a b, (Search.test_f1 b.2 <= Search.test_f1 a.2)%Q) top ∧
  ∃ others, top ++ others ≡ₚ rs ∧
    ∀ a b, a ∈ top → b ∈ others → (Search.test_f1 b.2 <= Search.test_f1 a.2)%Q.

End SearchVocabulary.

(** ** Example data *)

(** A model with two classes on a batch of two rows. *)
Definition two_class_model : Artifact.classifier :=
  Artifact.mkClassifier
    (λ X, (λ _, "BENIGN") <$> X)
    (Some (λ X, (λ _, [Np.Fin (3 # 4); Np.Fin (1 # 4)]) <$> X)).

(** Scenario C of the specification: five classes, one of them with a
    single sample. *)
Definition scenario_c_labels : list string :=
  ["BENIGN"; "BENIGN"; "DNS"; "DNS"; "NTP"; "NTP"; "SYN"; "SYN"; "UDP"].

Definition scenario_c_frame : DataFrame Np.float :=
  [("flow_duration", integers [1; 2; 3; 4; 5; 6; 7; 8; 9]%Z)].

(** A search on a small training split: Extra Trees fails, XGBoost and
    Gradient Boosting tie for the highest held-out F1, and the ensemble of
    the top three scores above them. *)
Definition demo_search (name : string) : option (Search.result string) :=
  if String.eqb name "Optimized Random Forest"
  then Some (Search.mkResult "rf" (90 # 100) (90 # 100))
  else if String.eqb name "XGBoost"
  then Some (Search.mkResult "xgb" (95 # 100) (95 # 100))
  else if String.eqb name "Gradient Boosting"
  then Some (Search.mkResult "gb" (94 # 100) (95 # 100))
  else if String.eqb name "Optimized SVM"
  then Some (Search.mkResult "svm" (80 # 100) (80 # 100))
  else None.

Definition demo_ensemble (members : list (string * string)) : exn + Search.result string :=
  inr (Search.mkResult "voting" (97 # 100) (97 # 100)).

(** A search in which only XGBoost succeeds, with a held-out F1 of zero. *)
Definition only_xgboost_at_zero (name : string) : option (Search.result string) :=
  if String.eqb name "XGBoost" then Some (Search.mkResult "xgb" 0 0) else None.

(** Five rows and five features; every row holds the largest value of one
    feature. *)
Definition leakage_table : DataFrame Np.float :=
  [("flow_duration", integers [4; 1; 0; 0; 0]%Z);
   ("flow_byts_s", integers [0; 4; 1; 0; 0]%Z);
   ("flow_pkts_s", integers [0; 0; 4; 1; 0]%Z);
   ("fwd_pkts_s", integers [0; 0; 0; 4; 1]%Z);
   ("bwd_pkts_s", integers [1; 0; 0; 0; 4]%Z)].

Definition benign_labels : list string :=
  ["BENIGN"; "BENIGN"; "BENIGN"; "BENIGN"; "BENIGN"].

(** The split of [leakage_table] in the order [p] has a test value above
    its training bound. *)
Definition leaks_in_order (p : list nat) : bool :=
  match split_in_order p leakage_table benign_labels with
  | inr (X_train, X_test, _, _) => above_training_boundb X_train X_test
  | inl _ => false
  end.

(** A table in which one numeric column has no value at all. *)
Definition missing_column_table : DataFrame Np.float :=
  [("flow_duration", integers [1; 2; 3; 4; 5]%Z);
   ("idle_mean", [Np.NaN; Np.NaN; Np.NaN; Np.NaN; Np.NaN])].

(** ** Headers *)

(** The canonical name lines 121-135 give to one tidied header: its entry
    in [current_mapping], or the header itself. *)
Definition canonical_name (c : string) : string :=
  default c (Schema.mapping_entry c).

(** No upper-case ASCII letter; no space character; no whitespace at
    either end. *)
Definition lower_case (s : string) : Prop := PyStr.lower s = s.

Definition space_free (s : string) : Prop := PyStr.replace_space s = s.

Definition trimmed (s : string) : Prop := PyStr.lstrip s = s ∧ PyStr.rstrip s = s.

(** A name that normalization leaves alone: tidying and the mapping both
    return it. *)
Definition settled (c : string) : Prop :=
  Schema.tidy_name c = c ∧ canonical_name c = c.

#[global] Instance settled_dec c : Decision (settled c).
Proof. unfold settled. apply _. Defined.

(** ** Frames *)

(** [df'] is [df] with columns of the names [D] set: the columns of other
    names are as they were, none is removed or moved, and a new column
    bears one of the names [D]. *)
Definition extends_by {V} (D : list string) (df df' : DataFrame V) : Prop :=
  (∀ name, name ∉ D → get_column name df' = get_column name df) ∧
  columns df `prefix_of` columns df' ∧
  (∀ c, c ∈ columns df' → c ∈ columns df ∨ c ∈ D).

(** The names [create_engineered_features] assigns to, in the order of
    the assignments. *)
Definition derived_names : list string :=
  ["fwd_bwd_ratio"; "bwd_fwd_ratio"; "avg_fwd_pkt_size"; "avg_bwd_pkt_size";
   "flow_efficiency"; "total_flags"; "flag_diversity";
   "is_tcp"; "is_udp"; "is_icmp";
   "src_is_wellknown"; "dst_is_wellknown"; "src_is_common"; "dst_is_common"].

(** A cell that holds 0 or 1. *)
Definition indicator (x : Np.float) : Prop := x = Np.Fin 0 ∨ x = Np.Fin 1.

(** ** Example frames for the cleaner *)

(** A frame with gaps and infinities in which every column holds a
    value. *)
Definition gappy_table : DataFrame Np.float :=
  [("flow_duration", [Np.Fin 1; Np.NaN; Np.PInf; Np.Fin 3]);
   ("tot_fwd_pkts", [Np.Fin 2; Np.Fin 5; Np.NInf; Np.NaN])].

(** A frame with a column that never varies. *)
Definition constant_table : DataFrame Np.float :=
  [("flow_duration", integers [1; 2; 3]%Z);
   ("bwd_psh_flags", integers [0; 0; 0]%Z)].

Definition one_row_table : DataFrame Np.float :=
  [("flow_duration", integers [7]%Z);
   ("bwd_psh_flags", integers [0]%Z)].

Definition skewed_column : list Np.float := integers [1; 2; 3; 4; 100]%Z.

(** Every cell of the column is the finite number [q], in whatever
    fraction it is written. *)
Definition constant_column (q : Q) (col : list Np.float) : Prop :=
  Forall (λ x, ∃ r, x = Np.Fin r ∧ (r == q)%Q) col.

(** ** The outcome of the search *)

Section SelectionVocabulary.

Context {estimator : Type}.

(** The tuple returned by [train_best_model] agrees with itself: the best
    score is no lower than zero and than any recorded F1; with no model
    selected the score is 0 and the name empty; a selected model is the
    model of the result recorded under the returned name, whose F1 is the
    returned score; and the returned name is a key of the results exactly
    when a model is selected. *)
Definition selection_consistent (st : Search.state estimator) : Prop :=
  (0 <= Search.best_score st)%Q ∧
  (∀ x, x ∈ Search.results st → (Search.test_f1 x.2 <= Search.best_score st)%Q) ∧
  (Search.best_model st = None →
     Search.best_score st = 0%Q ∧ Search.best_model_name st = "") ∧
  (∀ m, Search.best_model st = Some m →
     ∃ r, (Search.best_model_name st, r) ∈ Search.results st ∧
          Search.model r = m ∧ Search.test_f1 r = Search.best_score st ∧
          (0 < Search.test_f1 r)%Q) ∧
  (Search.best_model_name st ∈ (Search.results st).*1 ↔
     is_Some (Search.best_model st)).

End SelectionVocabulary.

(** An ensemble that scores below the best single learner of
    [demo_search], and the state [train_best_model] then returns. *)
Definition demo_weak_ensemble (members : list (string * string))
    : exn + Search.result string :=
  inr (Search.mkResult "voting" (93 # 100) (93 # 100)).

Definition demo_final : Search.state string :=
  Search.mkState
    [("Optimized Random Forest", Search.mkResult "rf" (90 # 100) (90 # 100));
     ("XGBoost", Search.mkResult "xgb" (95 # 100) (95 # 100));
     ("Gradient Boosting", Search.mkResult "gb" (94 # 100) (95 # 100));
     ("Optimized SVM", Search.mkResult "svm" (80 # 100) (80 # 100));
     ("Ensemble", Search.mkResult "voting" (93 # 100) (93 # 100))]
    (Some "xgb") (95 # 100) "XGBoost".

(** ** Example states of the artifact store *)

(** A trained analysis, and one that has just been constructed. *)
Definition trained_analysis : Artifact.analysis unit unit unit unit unit :=
  Artifact.mkAnalysis (Some tt) (Some two_class_model)
    (Some ["flow_duration"; "tot_fwd_pkts"]) tt tt (Some tt) None ∅.

Definition fresh_analysis : Artifact.analysis unit unit unit unit unit :=
  Artifact.mkAnalysis None None None tt tt None None ∅.

(** The metadata that [save_model_and_scaler] writes for
    [trained_analysis]. *)
Definition trained_metadata : Artifact.metadata unit unit unit unit :=
  Artifact.mkMetadata (Some (Some ["flow_duration"; "tot_fwd_pkts"]))
    (Some tt) (Some tt) (Some ∅) (Some (Some tt)) (Some None).

(** What is asked of [joblib.dump]: a dump that returns has written its
    file, and a dump, whether it returns or raises, touches no file but
    its own. *)
Definition dump_contract {S E N F P : Type}
    (dump : Artifact.pickle S E N F P → string →
            gmap string (Artifact.pickle S E N F P) →
            gmap string (Artifact.pickle S E N F P) * option exn) : Prop :=
  (∀ obj path fs, (dump obj path fs).2 = None →
     (dump obj path fs).1 = <[path := obj]> fs) ∧
  (∀ obj path fs other, other ≠ path →
     (dump obj path fs).1 !! other = fs !! other).

(** A disk on which every dump succeeds, and one on which the scaler
    file cannot be written. *)
Definition reliable_dump (obj : Artifact.pickle unit unit unit unit unit)
    (path : string) (fs : gmap string (Artifact.pickle unit unit unit unit unit))
    : gmap string (Artifact.pickle unit unit unit unit unit) * option exn :=
  (<[path := obj]> fs, None).

Definition scaler_refusing_dump (obj : Artifact.pickle unit unit unit unit unit)
    (path : string) (fs : gmap string (Artifact.pickle unit unit unit unit unit))
    : gmap string (Artifact.pickle unit unit unit unit unit) * option exn :=
  if String.eqb path "unified_ddos_best_model_scaler.pkl"
  then (fs, Some OtherError)
  else (<[path := obj]> fs, None).

(** A directory whose metadata file holds a dict with the feature
    columns and nothing else, and [fresh_analysis] after a load from it
    has given up at the label encoders. *)
Definition short_metadata_fs : gmap string (Artifact.pickle unit unit unit unit unit) :=
  {[ "unified_ddos_best_model.pkl" := Artifact.PModel two_class_model;
     "unified_ddos_best_model_scaler.pkl" := Artifact.PScaler tt;
     "unified_ddos_best_model_metadata.pkl" :=
       Artifact.PMetadata
         (Artifact.mkMetadata (Some (Some ["flow_duration"])) None None None None None) ]}.

Definition half_loaded_analysis : Artifact.analysis unit unit unit unit unit :=
  Artifact.mkAnalysis (Some tt) (Some two_class_model) (Some ["flow_duration"])
    tt tt None None ∅.

(** * Properties *)

(** ** Strings *)

Section StringFacts.

Import PyStr.

Lemma isspace_upper_char c : isspace (upper_char c) = isspace c.
Proof.
  destruct c as [[] [] [] [] [] [] [] []]; reflexivity.
Qed.

Lemma upper_char_idemp c : upper_char (upper_char c) = upper_char c.
Proof.
  destruct c as [[] [] [] [] [] [] [] []]; reflexivity.
Qed.

Lemma upper_idemp s : upper (upper s) = upper s.
Proof.
  unfold upper. induction s as [|c s IH]; cbn [map_chars]; [done|].
  by rewrite upper_char_idemp, IH.
Qed.

Lemma lstrip_upper s : lstrip (upper s) = upper (lstrip s).
Proof.
  unfold upper. induction s as [|c s IH]; cbn [map_chars lstrip]; [done|].
  rewrite isspace_upper_char. by destruct (isspace c).
Qed.

Lemma rstrip_upper s : rstrip (upper s) = upper (rstrip s).
Proof.
  unfold upper. induction s as [|c s IH]; cbn [map_chars rstrip]; [done|].
  rewrite IH, isspace_upper_char.
  destruct (rstrip s); cbn [map_chars]; [by destruct (isspace c)|done].
Qed.

Lemma strip_upper s : strip (upper s) = upper (strip s).
Proof. unfold strip. by rewrite lstrip_upper, rstrip_upper. Qed.

Lemma rstrip_idemp s : rstrip (rstrip s) = rstrip s.
Proof.
  induction s as [|c s IH]; cbn [rstrip]; [done|].
  destruct (rstrip s) as [|d r] eqn:E.
  - destruct (isspace c) eqn:Ec; cbn [rstrip]; [done|]. by rewrite Ec.
  - remember (String d r) as t. cbn [rstrip]. rewrite IH. by subst t.
Qed.

Lemma lstrip_left_tidy s : left_tidy (lstrip s).
Proof.
  induction s as [|c s IH]; cbn [lstrip]; [done|].
  destruct (isspace c) eqn:E; [done|]. exact E.
Qed.

Lemma rstrip_left_tidy s : left_tidy s → left_tidy (rstrip s).
Proof.
  destruct s as [|c s]; cbn [rstrip left_tidy]; [done|]. intros Hc.
  destruct (rstrip s); [by rewrite Hc|done].
Qed.

Lemma lstrip_tidy s : left_tidy s → lstrip s = s.
Proof. destruct s as [|c s]; cbn [lstrip left_tidy]; [done|]. by intros ->. Qed.

Lemma strip_idemp s : strip (strip s) = strip s.
Proof.
  unfold strip.
  rewrite (lstrip_tidy (rstrip (lstrip s))).
  - apply rstrip_idemp.
  - apply rstrip_left_tidy, lstrip_left_tidy.
Qed.

Lemma append_inj_r (s a b : string) : s +:+ a = s +:+ b → a = b.
Proof. induction s as [|c s IH]; simpl; [done|]. intros [= H]. auto. Qed.

End StringFacts.

(** ** Label standardizer *)

Lemma clean_label_idemp l :
  Labels.clean_label (Labels.clean_label l) = Labels.clean_label l.
Proof.
  unfold Labels.clean_label.
  by rewrite strip_upper, upper_idemp, strip_idemp.
Qed.

(** Every canonical label of the table is again one of its keys once
    upper-cased, and is mapped to itself from there. *)
Lemma label_mapping_values_fixed :
  map_Forall (λ _ v, Labels.standardize v = v) Labels.label_mapping.
Proof.
  eapply (bool_decide_unpack _). vm_compute. exact I.
Qed.

(** C5. Label standardization (trimming and upper-casing, then the
    collapsing table with pass-through) is idempotent: standardizing a
    standardized label gives the same label, for every label. *)
Theorem standardize_idempotent (l : string) :
  Labels.standardize (Labels.standardize l) = Labels.standardize l.
Proof.
  unfold Labels.standardize at 2 3. unfold Labels.map_label, get_or_self.
  destruct (Labels.label_mapping !! Labels.clean_label l) as [v|] eqn:E; simpl.
  - exact (label_mapping_values_fixed _ _ E).
  - unfold Labels.standardize, Labels.map_label, get_or_self.
    rewrite clean_label_idemp. by rewrite E.
Qed.

(** C6. The labels normal, DDoS, ddos standardize to BENIGN, UDP, UDP. *)
Theorem standardize_scenario_b :
  Labels.standardize_labels ["normal"; "DDoS"; "ddos"] = ["BENIGN"; "UDP"; "UDP"].
Proof. vm_compute. reflexivity. Qed.

(** ** Schema normalizer *)

(** C2. The specification has the raw headers [Flow Packets/s] and
    [flow_pkts_s] both end as the column [flow_pkts_s].  The table does
    list [Flow Packets/s], but line 117 has already lower-cased and
    underscored the header when line 123 looks it up, so the entry is never
    found: the header ends as [flow_packets/s], and two files that differ
    in this header do not share the column. *)
Theorem flow_packets_header_keeps_tidied_name :
  Schema.column_mappings !! "Flow Packets/s" = Some "flow_pkts_s" ∧
  Schema.column_mappings !! "flow_packets/s" = None ∧
  Schema.normalized_columns ["Flow Packets/s"] = ["flow_packets/s"] ∧
  Schema.normalized_columns ["flow_pkts_s"] = ["flow_pkts_s"] ∧
  Schema.normalized_columns ["Flow Packets/s"]
    ≠ Schema.normalized_columns ["flow_pkts_s"] ∧
  ∃ h1 file1 h2 file2,
    Schema.normalize_column_names
      ({[ 0%nat := [("Flow Packets/s", [Np.Fin 1])] ]}) 0%nat = Some (h1, file1) ∧
    h1 !! file1 = Some [("flow_packets/s", [Np.Fin 1])] ∧
    Schema.normalize_column_names
      ({[ 0%nat := [("flow_pkts_s", [Np.Fin 2])] ]}) 0%nat = Some (h2, file2) ∧
    h2 !! file2 = Some [("flow_pkts_s", [Np.Fin 2])].
Proof.
  do 5 (split; [by vm_compute|]).
  eexists _, _, _, _.
  split; [vm_compute; reflexivity|]. split; [by vm_compute|].
  split; [vm_compute; reflexivity|]. by vm_compute.
Qed.

Lemma with_columns_cells {V} (f : string → string) (fr : DataFrame V) :
  (with_columns (f <$> columns fr) fr).*2 = fr.*2.
Proof.
  unfold with_columns, columns. apply snd_zip. by rewrite !length_fmap.
Qed.

Lemma with_columns_names {V} (f : string → string) (fr : DataFrame V) :
  columns (with_columns (f <$> columns fr) fr) = f <$> columns fr.
Proof.
  unfold with_columns, columns. apply fst_zip. by rewrite !length_fmap.
Qed.

(** C9, as the specification has it, fails: after the call the frame that
    was passed in carries the tidied header [label] in place of [Label]. *)
Lemma normalize_rewrites_argument_header :
  ∃ h' r,
    Schema.normalize_column_names ({[ 0%nat := [("Label", [1%nat])] ]}) 0%nat = Some (h', r) ∧
    h' !! 0%nat = Some [("label", [1%nat])] ∧
    h' !! 0%nat ≠ Some [("Label", [1%nat])].
Proof.
  eexists _, _. split; [vm_compute; reflexivity|].
  split; [by vm_compute|]. vm_compute. congruence.
Qed.

(** C9, amended. [normalize_column_names] returns the normalized table as
    a new value, and leaves every cell of the table passed in and every
    other table of the store as it was; the column names of the table
    passed in are rewritten in place to their trimmed, underscored and
    lower-cased form. *)
Theorem normalize_column_names_frame {V} (h : gmap nat (DataFrame V)) (df : nat)
    (fr : DataFrame V) :
  h !! df = Some fr →
  ∃ h' result fr_in fr_out,
    Schema.normalize_column_names h df = Some (h', result) ∧
    h !! result = None ∧
    h' !! result = Some fr_out ∧
    columns fr_out = Schema.normalized_columns (columns fr) ∧
    fr_out.*2 = fr.*2 ∧
    h' !! df = Some fr_in ∧
    columns fr_in = Schema.tidy_name <$> columns fr ∧
    fr_in.*2 = fr.*2 ∧
    ∀ other, other ≠ df → other ≠ result → h' !! other = h !! other.
Proof.
  intros Hdf. unfold Schema.normalize_column_names. rewrite Hdf. simpl.
  set (cols := Schema.tidy_name <$> columns fr).
  set (h1 := <[df := with_columns cols fr]> h).
  set (r := fresh (dom h1)).
  assert (Hfresh : r ∉ dom h1) by apply is_fresh.
  assert (Hne : r ≠ df).
  { intros ->. apply Hfresh. subst h1. rewrite dom_insert. set_solver. }
  assert (Hr : h !! r = None).
  { apply not_elem_of_dom. intros Hin. apply Hfresh. subst h1.
    rewrite dom_insert. set_solver. }
  eexists _, r, (with_columns cols fr), _. split; [reflexivity|].
  split; [exact Hr|].
  split; [apply lookup_insert_eq|].
  split.
  { unfold Schema.normalized_columns, Schema.rename_columns. fold cols.
    unfold with_columns, columns.
    rewrite fst_zip; [done|].
    rewrite !length_fmap. subst cols. unfold columns. by rewrite !length_fmap. }
  split.
  { unfold with_columns. rewrite snd_zip; [done|].
    unfold Schema.rename_columns. subst cols. unfold columns.
    by rewrite !length_fmap. }
  split.
  { rewrite lookup_insert_ne by done. subst h1. apply lookup_insert_eq. }
  split; [apply with_columns_names|].
  split; [apply with_columns_cells|].
  intros other Hdf' Hres. rewrite lookup_insert_ne by done.
  subst h1. by rewrite lookup_insert_ne.
Qed.

Lemma normalize_column_names_frame_witness :
  ∃ h' result fr_in fr_out,
    Schema.normalize_column_names ({[ 7%nat := [(" Source IP", [1%nat; 2%nat])] ]}) 7%nat
      = Some (h', result) ∧
    ({[ 7%nat := [(" Source IP", [1%nat; 2%nat])] ]} : gmap nat (DataFrame nat)) !! result
      = None ∧
    h' !! result = Some fr_out ∧
    columns fr_out = Schema.normalized_columns [" Source IP"] ∧
    fr_out.*2 = [[1%nat; 2%nat]] ∧
    h' !! 7%nat = Some fr_in ∧
    columns fr_in = Schema.tidy_name <$> [" Source IP"] ∧
    fr_in.*2 = [[1%nat; 2%nat]] ∧
    ∀ other, other ≠ 7%nat → other ≠ result →
      h' !! other
      = ({[ 7%nat := [(" Source IP", [1%nat; 2%nat])] ]} : gmap nat (DataFrame nat)) !! other.
Proof.
  apply (normalize_column_names_frame
           ({[ 7%nat := [(" Source IP", [1%nat; 2%nat])] ]}) 7%nat
           [(" Source IP", [1%nat; 2%nat])]).
  reflexivity.
Defined.

(** ** Artifact store *)

Section StoreFacts.

Context {S E N F P : Type}.

#[warning="-notation-for-abbreviation"]
Local Notation files := (gmap string (Artifact.pickle S E N F P)).

Variable dump : Artifact.pickle S E N F P → string → files → files * option exn.

Lemma artifact_paths_differ (model_name : string) :
  model_name +:+ ".pkl" ≠ model_name +:+ "_scaler.pkl" ∧
  model_name +:+ ".pkl" ≠ model_name +:+ "_metadata.pkl" ∧
  model_name +:+ "_scaler.pkl" ≠ model_name +:+ "_metadata.pkl".
Proof.
  repeat split; intros H; by apply append_inj_r in H.
Qed.

(** C10, amended. With [best_model] or [scaler] unset,
    [save_model_and_scaler] writes nothing and returns three [None].  With
    both set it dumps the model, the scaler and the metadata, in that
    order, to three different paths and touches no other file.  When the
    three dumps complete, the three files are there and their paths are
    returned.  When a dump raises, the exception leaves the method and the
    files dumped before it stay as written. *)
Theorem save_model_and_scaler_bundle
    (self : Artifact.analysis S E N F P) (fs : files) (model_name : string) :
  dump_contract dump →
  let model_path := model_name +:+ ".pkl" in
  let scaler_path := model_name +:+ "_scaler.pkl" in
  let metadata_path := model_name +:+ "_metadata.pkl" in
  let fs' := (Artifact.save_model_and_scaler dump self fs model_name).1 in
  let outcome := (Artifact.save_model_and_scaler dump self fs model_name).2 in
  match Artifact.best_model self, Artifact.scaler self with
  | Some m, Some sc =>
      let md := Artifact.mkMetadata (Some (Artifact.feature_columns self))
                  (Some (Artifact.label_encoders self))
                  (Some (Artifact.original_network_data self))
                  (Some (Artifact.column_mappings self))
                  (Some (Artifact.feature_selector self))
                  (Some (Artifact.pca self)) in
      let fs1 := <[model_path := Artifact.PModel m]> fs in
      let fs2 := <[scaler_path := Artifact.PScaler sc]> fs1 in
      model_path ≠ scaler_path ∧ model_path ≠ metadata_path ∧
      scaler_path ≠ metadata_path ∧
      (∀ path, path ≠ model_path → path ≠ scaler_path → path ≠ metadata_path →
         fs' !! path = fs !! path) ∧
      match outcome with
      | inr paths =>
          paths = (Some model_path, Some scaler_path, Some metadata_path) ∧
          fs' !! model_path = Some (Artifact.PModel m) ∧
          fs' !! scaler_path = Some (Artifact.PScaler sc) ∧
          fs' !! metadata_path = Some (Artifact.PMetadata md)
      | inl e =>
          (dump (Artifact.PModel m) model_path fs).2 = Some e
          ∨ ((dump (Artifact.PScaler sc) scaler_path fs1).2 = Some e ∧
             fs' !! model_path = Some (Artifact.PModel m))
          ∨ ((dump (Artifact.PMetadata md) metadata_path fs2).2 = Some e ∧
             fs' !! model_path = Some (Artifact.PModel m) ∧
             fs' !! scaler_path = Some (Artifact.PScaler sc))
      end
  | _, _ => fs' = fs ∧ outcome = inr (None, None, None)
  end.
Proof.
  intros [Hwrites Hframe] model_path scaler_path metadata_path fs' outcome.
  subst fs' outcome. unfold Artifact.save_model_and_scaler.
  destruct (Artifact.best_model self) as [m|]; [|done].
  destruct (Artifact.scaler self) as [sc|]; [|done].
  fold model_path scaler_path metadata_path.
  destruct (artifact_paths_differ model_name) as (H1 & H2 & H3).
  fold model_path scaler_path metadata_path in H1, H2, H3.
  cbv zeta.
  set (md := Artifact.mkMetadata _ _ _ _ _ _).
  set (fs1 := <[model_path := Artifact.PModel m]> fs).
  set (fs2 := <[scaler_path := Artifact.PScaler sc]> fs1).
  split; [done|]. split; [done|]. split; [done|].
  destruct (dump (Artifact.PModel m) model_path fs) as [g1 r1] eqn:E1.
  pose proof (Hframe (Artifact.PModel m) model_path fs) as Hf1.
  pose proof (Hwrites (Artifact.PModel m) model_path fs) as Hw1.
  rewrite E1 in Hf1, Hw1. cbn [fst snd] in *.
  destruct r1 as [e|].
  { cbn [fst snd]. split; [|by left]. intros path ? ? ?. by apply Hf1. }
  specialize (Hw1 eq_refl). subst g1. fold fs1.
  destruct (dump (Artifact.PScaler sc) scaler_path fs1) as [g2 r2] eqn:E2.
  pose proof (Hframe (Artifact.PScaler sc) scaler_path fs1) as Hf2.
  pose proof (Hwrites (Artifact.PScaler sc) scaler_path fs1) as Hw2.
  rewrite E2 in Hf2, Hw2. cbn [fst snd] in *.
  destruct r2 as [e|].
  { cbn [fst snd]. split.
    - intros path ? ? ?. rewrite Hf2 by done. unfold fs1. by rewrite lookup_insert_ne.
    - right. left. split; [done|]. rewrite Hf2 by done. apply lookup_insert_eq. }
  specialize (Hw2 eq_refl). subst g2. fold fs2. fold md.
  destruct (dump (Artifact.PMetadata md) metadata_path fs2) as [g3 r3] eqn:E3.
  pose proof (Hframe (Artifact.PMetadata md) metadata_path fs2) as Hf3.
  pose proof (Hwrites (Artifact.PMetadata md) metadata_path fs2) as Hw3.
  rewrite E3 in Hf3, Hw3. cbn [fst snd] in *.
  assert (Hm : fs2 !! model_path = Some (Artifact.PModel m)).
  { unfold fs2, fs1. rewrite lookup_insert_ne by done. apply lookup_insert_eq. }
  assert (Hs : fs2 !! scaler_path = Some (Artifact.PScaler sc)).
  { unfold fs2. apply lookup_insert_eq. }
  assert (Hother : ∀ path, path ≠ model_path → path ≠ scaler_path →
                     fs2 !! path = fs !! path).
  { intros path ? ?. unfold fs2, fs1. by rewrite !lookup_insert_ne. }
  destruct r3 as [e|]; cbn [fst snd].
  { split.
    - intros path ? ? ?. rewrite Hf3 by done. by apply Hother.
    - right. right. split; [done|]. by rewrite !Hf3. }
  specialize (Hw3 eq_refl). subst g3.
  split.
  { intros path ? ? ?. rewrite lookup_insert_ne by done. by apply Hother. }
  split; [done|].
  rewrite !lookup_insert_ne by done. split; [done|]. split; [done|].
  apply lookup_insert_eq.
Qed.

End StoreFacts.

Lemma save_model_and_scaler_bundle_witness :
  "unified_ddos_best_model.pkl" ≠ "unified_ddos_best_model_scaler.pkl" ∧
  "unified_ddos_best_model.pkl" ≠ "unified_ddos_best_model_metadata.pkl" ∧
  "unified_ddos_best_model_scaler.pkl" ≠ "unified_ddos_best_model_metadata.pkl" ∧
  (∀ path, path ≠ "unified_ddos_best_model.pkl" →
     path ≠ "unified_ddos_best_model_scaler.pkl" →
     path ≠ "unified_ddos_best_model_metadata.pkl" →
     (Artifact.save_model_and_scaler reliable_dump trained_analysis ∅
        "unified_ddos_best_model").1 !! path = (∅ : gmap string _) !! path) ∧
  match (Artifact.save_model_and_scaler reliable_dump trained_analysis ∅
           "unified_ddos_best_model").2 with
  | inr paths =>
      paths = (Some "unified_ddos_best_model.pkl",
               Some "unified_ddos_best_model_scaler.pkl",
               Some "unified_ddos_best_model_metadata.pkl") ∧
      (Artifact.save_model_and_scaler reliable_dump trained_analysis ∅
         "unified_ddos_best_model").1 !! "unified_ddos_best_model.pkl"
        = Some (Artifact.PModel two_class_model) ∧
      (Artifact.save_model_and_scaler reliable_dump trained_analysis ∅
         "unified_ddos_best_model").1 !! "unified_ddos_best_model_scaler.pkl"
        = Some (Artifact.PScaler tt) ∧
      (Artifact.save_model_and_scaler reliable_dump trained_analysis ∅
         "unified_ddos_best_model").1 !! "unified_ddos_best_model_metadata.pkl"
        = Some (Artifact.PMetadata trained_metadata)
  | inl e => False
  end.
Proof.
  apply (save_model_and_scaler_bundle reliable_dump trained_analysis ∅
           "unified_ddos_best_model").
  split; [reflexivity|]. intros obj path fs other Hne.
  apply lookup_insert_ne. congruence.
Defined.

(** C10, as the specification has it, fails when a dump raises: with a
    scaler file that cannot be written, the model file is written, the
    scaler and the metadata files are not, and the exception leaves the
    method.  A partial bundle is on the disk. *)
Lemma failed_dump_leaves_partial_bundle :
  Artifact.best_model trained_analysis = Some two_class_model ∧
  Artifact.scaler trained_analysis = Some tt ∧
  (Artifact.save_model_and_scaler scaler_refusing_dump trained_analysis ∅
     "unified_ddos_best_model").2 = inl OtherError ∧
  (Artifact.save_model_and_scaler scaler_refusing_dump trained_analysis ∅
     "unified_ddos_best_model").1 !! "unified_ddos_best_model.pkl"
    = Some (Artifact.PModel two_class_model) ∧
  (Artifact.save_model_and_scaler scaler_refusing_dump trained_analysis ∅
     "unified_ddos_best_model").1 !! "unified_ddos_best_model_scaler.pkl" = None ∧
  (Artifact.save_model_and_scaler scaler_refusing_dump trained_analysis ∅
     "unified_ddos_best_model").1 !! "unified_ddos_best_model_metadata.pkl" = None.
Proof. repeat split; by vm_compute. Qed.

(** ** Inference *)

Lemma unit_interval_finite x : unit_interval x → ∃ q, x = Np.Fin q.
Proof. destruct x; intros [H1 H2]; simpl in *; try done. eauto. Qed.

Lemma leb_fin_total a b :
  Np.leb (Np.Fin a) (Np.Fin b) = false → Np.leb (Np.Fin b) (Np.Fin a) = true.
Proof.
  simpl. intros H. apply Qle_bool_iff.
  destruct (Qlt_le_dec a b) as [Hlt|Hle]; [|done].
  apply Qlt_le_weak, Qle_bool_iff in Hlt. congruence.
Qed.

Lemma leb_fin_refl a : Np.leb (Np.Fin a) (Np.Fin a) = true.
Proof. simpl. apply Qle_bool_iff, Qle_refl. Qed.

Lemma leb_fin_trans a b c :
  Np.leb (Np.Fin a) (Np.Fin b) = true → Np.leb (Np.Fin b) (Np.Fin c) = true →
  Np.leb (Np.Fin a) (Np.Fin c) = true.
Proof.
  simpl. rewrite !Qle_bool_iff. apply Qle_trans.
Qed.

(** The running maximum of [np_max] over probabilities. *)
Lemma running_max_spec (rest : list Np.float) (x : Np.float) :
  unit_interval x → Forall unit_interval rest →
  let m := foldl (λ m v, if Np.isnan m then m
                         else if Np.isnan v then v
                         else if Np.leb m v then v else m) x rest in
  unit_interval m ∧ is_max_of (x :: rest) m.
Proof.
  intros Hx Hrest m. subst m. revert x Hx Hrest.
  induction rest as [|v rest IH]; intros x Hx Hrest; simpl.
  - split; [done|]. split; [apply elem_of_cons; by left|].
    intros p Hp. apply list_elem_of_singleton in Hp as ->.
    destruct (unit_interval_finite _ Hx) as [q ->]. apply leb_fin_refl.
  - apply Forall_cons in Hrest as [Hv Hrest].
    destruct (unit_interval_finite _ Hx) as [a ->].
    destruct (unit_interval_finite _ Hv) as [b ->].
    cbn [Np.isnan].
    destruct (Np.leb (Np.Fin a) (Np.Fin b)) eqn:E.
    + destruct (IH (Np.Fin b) Hv Hrest) as [Hu [Hin Hmax]].
      set (m := foldl _ _ rest) in *.
      split; [done|]. split; [apply elem_of_cons; by right|].
      intros p Hp. apply elem_of_cons in Hp as [->|Hp]; [|by apply Hmax].
      assert (Hb : Np.leb (Np.Fin b) m = true).
      { apply Hmax, elem_of_cons. by left. }
      destruct (unit_interval_finite _ Hu) as [c Hc]. rewrite Hc in *.
      by eapply leb_fin_trans.
    + destruct (IH (Np.Fin a) Hx Hrest) as [Hu [Hin Hmax]].
      set (m := foldl _ _ rest) in *.
      assert (Ha : Np.leb (Np.Fin a) m = true).
      { apply Hmax, elem_of_cons. by left. }
      split; [done|]. split.
      { apply elem_of_cons in Hin as [->|Hin]; apply elem_of_cons; [by left|].
        right. apply elem_of_cons. by right. }
      intros p Hp. apply elem_of_cons in Hp as [->|Hp]; [done|].
      apply elem_of_cons in Hp as [->|Hp].
      * destruct (unit_interval_finite _ Hu) as [c Hc]. rewrite Hc in *.
        eapply leb_fin_trans; [|exact Ha]. by apply leb_fin_total.
      * apply Hmax, elem_of_cons. by right.
Qed.

Lemma np_max_rows_spec (rows : list (list Np.float)) :
  Forall (λ row, row ≠ [] ∧ Forall unit_interval row) rows →
  ∃ confidences,
    Artifact.np_max_rows rows = inr confidences ∧
    Forall unit_interval confidences ∧
    Forall2 is_max_of rows confidences.
Proof.
  induction rows as [|row rows IH]; intros H.
  - exists []. by repeat split.
  - apply Forall_cons in H as [[Hne Hrow] Hrows].
    destruct (IH Hrows) as (cs & Hcs & Hu & Hm).
    destruct row as [|x rest]; [done|].
    apply Forall_cons in Hrow as [Hx Hrest].
    destruct (running_max_spec rest x Hx Hrest) as [Hum Hmax].
    eexists (_ :: cs). cbn [Artifact.np_max_rows Artifact.np_max]. rewrite Hcs.
    split; [reflexivity|]. split; by constructor.
Qed.

(** C8. For every batch and every model that honours the classifier
    contract on it, [predict_with_confidence] returns one confidence per
    row, each between 0 and 1: the largest class probability of the row
    when the model has [predict_proba], the constant 0.8 otherwise. *)
Theorem predict_with_confidence_bounds {S E N F P : Type}
    (self : Artifact.analysis S E N F P) (m : Artifact.classifier)
    (X : list (list Np.float)) :
  Artifact.best_model self = Some m →
  classifier_contract m X →
  ∃ confidences,
    Artifact.predict_with_confidence self X = inr (Artifact.predict m X, confidences) ∧
    length confidences = length X ∧
    Forall unit_interval confidences ∧
    match Artifact.predict_proba m with
    | Some proba => Forall2 is_max_of (proba X) confidences
    | None => confidences = replicate (length X) (Np.Fin (8 # 10))
    end.
Proof.
  intros Hm [Hlen Hproba]. unfold Artifact.predict_with_confidence. rewrite Hm.
  destruct (Artifact.predict_proba m) as [proba|].
  - destruct Hproba as [Hrows Hunit].
    destruct (np_max_rows_spec _ Hunit) as (cs & -> & Hu & Hmax).
    exists cs. repeat split; try done.
    apply Forall2_length in Hmax. congruence.
  - eexists. split; [reflexivity|]. rewrite Hlen.
    rewrite length_fmap, length_replicate, fmap_replicate. cbn [Np.mul].
    repeat split; try done.
    apply Forall_replicate. by split.
Qed.

Lemma predict_with_confidence_bounds_witness :
  ∃ confidences,
    Artifact.predict_with_confidence
      (Artifact.mkAnalysis (None : option unit) (Some two_class_model) None tt tt
         (None : option unit) (None : option unit) ∅)
      [[Np.Fin 1]; [Np.Fin 2]]
    = inr (Artifact.predict two_class_model [[Np.Fin 1]; [Np.Fin 2]], confidences) ∧
    length confidences = 2%nat ∧
    Forall unit_interval confidences ∧
    Forall2 is_max_of [[Np.Fin (3 # 4); Np.Fin (1 # 4)]; [Np.Fin (3 # 4); Np.Fin (1 # 4)]]
      confidences.
Proof.
  apply (predict_with_confidence_bounds
           (Artifact.mkAnalysis (None : option unit) (Some two_class_model) None tt tt
              (None : option unit) (None : option unit) ∅)
           two_class_model [[Np.Fin 1]; [Np.Fin 2]]).
  - reflexivity.
  - split; [reflexivity|]. split; [reflexivity|].
    repeat constructor; discriminate.
Defined.

(** ** Train/test split *)

Lemma validate_shuffle_split_small (n : nat) :
  (n ≤ 1)%nat → Split.validate_shuffle_split n = inl ValueError.
Proof.
  intros Hn. assert (n = 0 ∨ n = 1)%nat as [-> | ->] by lia; reflexivity.
Qed.

Lemma validate_shuffle_split_ok (n : nat) :
  (2 ≤ n)%nat →
  Split.validate_shuffle_split n = inr ((n - (n + 4) / 5)%nat, ((n + 4) / 5)%nat) ∧
  (1 ≤ n - (n + 4) / 5)%nat.
Proof.
  intros Hn. unfold Split.validate_shuffle_split.
  assert (H : ((n + 4) / 5 < n)%nat).
  { apply Nat.Div0.div_lt_upper_bound. lia. }
  destruct (Nat.eqb_spec (n - (n + 4) / 5) 0) as [E|E]; [lia|].
  split; [done|lia].
Qed.

(** Below two rows both calls of [train_test_split] raise, the fallback
    included, whatever the shuffle. *)
Lemma split_with_fallback_small {V} permutation stratified_draw
    (X : DataFrame V) (y : list string) :
  (length y ≤ 1)%nat →
  Split.split_with_fallback permutation stratified_draw X y = inl ValueError.
Proof.
  intros Hn. unfold Split.split_with_fallback, Split.train_test_split.
  by rewrite (validate_shuffle_split_small _ Hn).
Qed.

(** C7, as the specification has it, fails on a table of one row: its only
    class is too small to stratify, the stratified call raises
    [ValueError], and so does the unstratified call of the handler, which
    nothing catches. *)
Lemma one_row_split_raises :
  Split.train_test_split (λ _ n, seq 0 n) (λ _ _ _ _, ([], []))
    [("flow_duration", [Np.Fin 1])] ["BENIGN"] 42 (Some ["BENIGN"]) = inl ValueError ∧
  Split.split_with_fallback (λ _ n, seq 0 n) (λ _ _ _ _, ([], []))
    [("flow_duration", [Np.Fin 1])] ["BENIGN"] = inl ValueError.
Proof. split; reflexivity. Qed.

(** C7, amended. For every dataset of at least two rows on which the
    stratified 80/20 split raises [ValueError], the split does not raise:
    it is the unstratified split with the same seed 42, which puts the
    first fifth (rounded up) of the seed's permutation in the test part and
    the rest in the training part, and so is determined by the seed. *)
Theorem split_fallback_unstratified {V} permutation stratified_draw
    (X : DataFrame V) (y : list string) :
  (2 ≤ length y)%nat →
  Split.train_test_split permutation stratified_draw X y 42 (Some y) = inl ValueError →
  let n_test := ((length y + 4) / 5)%nat in
  let n_train := (length y - n_test)%nat in
  let p := permutation 42%nat (length y) in
  let train := take n_train (drop n_test p) in
  let test := take n_test p in
  Split.split_with_fallback permutation stratified_draw X y
    = Split.train_test_split permutation stratified_draw X y 42 None ∧
  Split.split_with_fallback permutation stratified_draw X y
    = inr (take_rows train X, take_rows test X,
           Split.take_labels train y, Split.take_labels test y).
Proof.
  intros Hn Hstrat. simpl.
  unfold Split.split_with_fallback. rewrite Hstrat.
  split; [done|].
  unfold Split.train_test_split, Split.shuffle_split.
  by destruct (validate_shuffle_split_ok _ Hn) as [-> _].
Qed.

Lemma split_fallback_unstratified_witness :
  Split.split_with_fallback (λ _ n, seq 0 n) (λ _ _ _ _, ([], []))
    scenario_c_frame scenario_c_labels
    = Split.train_test_split (λ _ n, seq 0 n) (λ _ _ _ _, ([], []))
        scenario_c_frame scenario_c_labels 42 None ∧
  Split.split_with_fallback (λ _ n, seq 0 n) (λ _ _ _ _, ([], []))
    scenario_c_frame scenario_c_labels
    = inr (take_rows [2; 3; 4; 5; 6; 7; 8]%nat scenario_c_frame,
           take_rows [0; 1]%nat scenario_c_frame,
           Split.take_labels [2; 3; 4; 5; 6; 7; 8]%nat scenario_c_labels,
           Split.take_labels [0; 1]%nat scenario_c_labels).
Proof.
  apply (split_fallback_unstratified (λ _ n, seq 0 n) (λ _ _ _ _, ([], []))
           scenario_c_frame scenario_c_labels).
  - simpl. lia.
  - reflexivity.
Defined.

(** ** Model search *)

Section SearchFacts.

Context {estimator : Type}.
Variable search_and_evaluate : string → option (Search.result estimator).
Variable fit_ensemble : list (string * estimator) → exn + Search.result estimator.

#[warning="-notation-for-abbreviation"]
Local Notation result := (Search.result estimator).
#[warning="-notation-for-abbreviation"]
Local Notation state := (Search.state estimator).
#[warning="-notation-for-abbreviation"]
Local Notation f1 := Search.test_f1.

Lemma Qgtb_true a b : Search.Qgtb a b = true ↔ (b < a)%Q.
Proof.
  unfold Search.Qgtb. rewrite negb_true_iff.
  split.
  - intros H. apply Qnot_le_lt. intros Hle.
    apply Qle_bool_iff in Hle. congruence.
  - intros H. destruct (Qle_bool a b) eqn:E; [|done].
    apply Qle_bool_iff in E. by apply Qlt_not_le in H.
Qed.

Lemma Qgtb_false a b : Search.Qgtb a b = false ↔ (a <= b)%Q.
Proof.
  unfold Search.Qgtb. rewrite negb_false_iff. apply Qle_bool_iff.
Qed.

Lemma dict_set_fresh name (r : result) rs :
  name ∉ rs.*1 → Search.dict_set name r rs = rs ++ [(name, r)].
Proof.
  induction rs as [|[k v] rs IH]; simpl; [done|].
  intros Hn. apply not_elem_of_cons in Hn as [Hk Hn].
  destruct (String.eqb_spec k name) as [->|_]; [done|].
  by rewrite IH.
Qed.

Lemma succeeded_snoc names name :
  succeeded search_and_evaluate (names ++ [name]) =
  succeeded search_and_evaluate names ++
    match search_and_evaluate name with Some r => [(name, r)] | None => [] end.
Proof.
  unfold succeeded. rewrite omap_app. f_equal. simpl.
  by destruct (search_and_evaluate name).
Qed.

Lemma succeeded_names names x :
  x ∈ (succeeded search_and_evaluate names).*1 → x ∈ names.
Proof.
  unfold succeeded. intros H.
  apply list_elem_of_fmap in H as ([n r] & -> & H).
  apply list_elem_of_omap in H as (n' & Hin & Hn').
  destruct (search_and_evaluate n'); simplify_eq/=. done.
Qed.

Lemma train_candidates_snoc names name :
  Search.train_candidates search_and_evaluate (names ++ [name]) =
  Search.train_one search_and_evaluate
    (Search.train_candidates search_and_evaluate names) name.
Proof. unfold Search.train_candidates. by rewrite foldl_app. Qed.

(** The loop over the learners: its results are the successes in order,
    and its best is the first highest score above zero, if any. *)
Lemma train_candidates_spec names :
  NoDup names →
  let st := Search.train_candidates search_and_evaluate names in
  Search.results st = succeeded search_and_evaluate names ∧
  provisional_best (succeeded search_and_evaluate names) st.
Proof.
  induction names as [|name names IH] using rev_ind; intros Hnd; simpl.
  { split; [done|]. left. repeat split; try done. intros x Hx. inversion Hx. }
  apply NoDup_app in Hnd as (Hnd & Hfresh & _).
  destruct (IH Hnd) as [Hres Hbest]. clear IH.
  rewrite train_candidates_snoc, succeeded_snoc.
  set (st := Search.train_candidates search_and_evaluate names) in *.
  set (rs := succeeded search_and_evaluate names) in *.
  unfold Search.train_one.
  destruct (search_and_evaluate name) as [r|] eqn:Hrun; simpl.
  2:{ rewrite app_nil_r. done. }
  assert (Hset : Search.dict_set name r (Search.results st) = rs ++ [(name, r)]).
  { rewrite Hres. apply dict_set_fresh. intros Hin.
    apply succeeded_names in Hin. apply (Hfresh name Hin). apply elem_of_cons. by left. }
  rewrite Hset.
  destruct (Search.Qgtb (f1 r) (Search.best_score st)) eqn:Hcmp; simpl.
  - (* a strictly better score: the new result becomes the best *)
    apply Qgtb_true in Hcmp.
    split; [done|]. right. exists (length rs), name, r.
    assert (Hold : ∀ j x, rs !! j = Some x → (f1 x.2 < f1 r)%Q).
    { intros j x Hj. destruct Hbest as [(_ & Hs & _ & Hle)|(i & n & r0 & Hfb & _ & _ & Hs & _)].
      - rewrite Hs in Hcmp. eapply Qle_lt_trans; [|exact Hcmp].
        apply Hle. by eapply list_elem_of_lookup_2.
      - rewrite Hs in Hcmp. eapply Qle_lt_trans; [|exact Hcmp].
        destruct Hfb as (_ & Hmax & _). by eapply Hmax. }
    assert (Hpos : (0 < f1 r)%Q).
    { destruct Hbest as [(_ & Hs & _)|(i & n & r0 & _ & Hp & _ & Hs & _)].
      - by rewrite Hs in Hcmp.
      - rewrite Hs in Hcmp. by eapply Qlt_trans. }
    repeat split; try done.
    + rewrite lookup_app_r by done. by rewrite Nat.sub_diag.
    + intros j x Hj. destruct (decide (j < length rs)%nat) as [Hlt|Hge].
      * rewrite lookup_app_l in Hj by done. apply Qlt_le_weak. by eapply Hold.
      * rewrite lookup_app_r in Hj by lia.
        destruct (j - length rs)%nat; simplify_eq/=. apply Qle_refl.
    + intros j x Hlt Hj. rewrite lookup_app_l in Hj by done. by eapply Hold.
  - (* not better: the best stays *)
    apply Qgtb_false in Hcmp.
    split; [done|].
    destruct Hbest as [(Hm & Hs & Hn & Hle)|(i & n & r0 & Hfb & Hp & Hm & Hs & Hn)].
    + left. repeat split; try done.
      intros x Hx. apply elem_of_app in Hx as [Hx|Hx]; [by apply Hle|].
      apply list_elem_of_singleton in Hx as ->. simpl. by rewrite Hs in Hcmp.
    + right. exists i, n, r0. rewrite Hs in Hcmp.
      destruct Hfb as (Hi & Hmax & Hfirst).
      repeat split; try done.
      * rewrite lookup_app_l; [done|]. by eapply lookup_lt_Some.
      * intros j x Hj. destruct (decide (j < length rs)%nat) as [Hlt|Hge].
        -- rewrite lookup_app_l in Hj by done. by eapply Hmax.
        -- rewrite lookup_app_r in Hj by lia.
           destruct (j - length rs)%nat; simplify_eq/=. done.
      * intros j x Hlt Hj.
        assert (j < length rs)%nat.
        { apply lookup_lt_Some in Hi. lia. }
        rewrite lookup_app_l in Hj by done. by eapply Hfirst.
Qed.

Lemma insert_desc_perm (x : string * result) l : Search.insert_desc x l ≡ₚ x :: l.
Proof.
  induction l as [|y l IH]; simpl; [done|].
  destruct (Search.Qgtb _ _); [|done].
  rewrite IH. apply Permutation_swap.
Qed.

Lemma sorted_by_f1_perm (l : list (string * result)) : Search.sorted_by_f1 l ≡ₚ l.
Proof.
  induction l as [|x l IH]; simpl; [done|].
  by rewrite insert_desc_perm, IH.
Qed.

Lemma insert_desc_sorted (x : string * result) l :
  StronglySorted (λ a b, (f1 b.2 <= f1 a.2)%Q) l →
  StronglySorted (λ a b, (f1 b.2 <= f1 a.2)%Q) (Search.insert_desc x l).
Proof.
  induction 1 as [|y l Hl IH Hy]; simpl.
  { repeat constructor. }
  destruct (Search.Qgtb (f1 y.2) (f1 x.2)) eqn:E.
  - apply Qgtb_true in E. constructor; [done|].
    rewrite insert_desc_perm. constructor; [by apply Qlt_le_weak|done].
  - apply Qgtb_false in E. constructor; [by constructor|].
    constructor; [done|].
    eapply Forall_impl; [exact Hy|]. intros z Hz. simpl in Hz.
    by eapply Qle_trans.
Qed.

Lemma sorted_by_f1_sorted (l : list (string * result)) :
  StronglySorted (λ a b, (f1 b.2 <= f1 a.2)%Q) (Search.sorted_by_f1 l).
Proof.
  induction l as [|x l IH]; simpl; [constructor|]. by apply insert_desc_sorted.
Qed.

Lemma top_models_top_three (st : state) :
  (3 ≤ length (Search.results st))%nat →
  top_three (Search.top_models st) (Search.results st).
Proof.
  intros Hlen. unfold Search.top_models.
  pose proof (sorted_by_f1_perm (Search.results st)) as Hperm.
  pose proof (sorted_by_f1_sorted (Search.results st)) as Hsorted.
  set (sorted := Search.sorted_by_f1 (Search.results st)) in *.
  rewrite <- (take_drop 3 sorted) in Hsorted.
  repeat split.
  - rewrite length_take. apply Permutation_length in Hperm. lia.
  - by apply StronglySorted_app_1_l in Hsorted.
  - exists (drop 3 sorted). split; [by rewrite take_drop|].
    intros a b Ha Hb.
    exact (StronglySorted_app_1_elem_of _ _ _ _ _ Hsorted Ha Hb).
Qed.

Lemma models_NoDup n_train : NoDup (Search.models n_train).
Proof.
  unfold Search.models.
  destruct (N.ltb 10000 n_train), (N.ltb n_train 50000);
    apply (bool_decide_unpack _); by vm_compute.
Qed.

Lemma models_not_ensemble n_train : "Ensemble" ∉ Search.models n_train.
Proof.
  unfold Search.models.
  destruct (N.ltb 10000 n_train), (N.ltb n_train 50000);
    apply (bool_decide_unpack _); by vm_compute.
Qed.

Lemma provisional_best_name (rs : list (string * result)) (st : state) :
  provisional_best rs st →
  Search.best_model_name st = "" ∨ Search.best_model_name st ∈ rs.*1.
Proof.
  intros [(_ & _ & Hn & _)|(i & n & r & (Hi & _) & _ & _ & _ & Hn)]; [by left|].
  right. rewrite Hn. apply list_elem_of_fmap. exists (n, r).
  split; [done|]. by eapply list_elem_of_lookup_2.
Qed.

(** C4, amended. [train_best_model] keeps as provisional best the first
    evaluated among the successful candidates with the highest held-out
    weighted F1, provided that score is above zero; with no score above
    zero no candidate is selected and the provisional best score is 0.
    With fewer than three successful candidates that is the outcome.
    With three or more, the top three by held-out F1 are put in a
    soft-voting ensemble; once it is fitted and scored its result is
    recorded, and it becomes the selected best if and only if its F1 is
    strictly above the provisional best score. *)
Theorem train_best_model_selection (n_train : N) :
  let st := Search.train_candidates search_and_evaluate (Search.models n_train) in
  let rs := succeeded search_and_evaluate (Search.models n_train) in
  let outcome := Search.train_best_model search_and_evaluate fit_ensemble n_train in
  Search.results st = rs ∧
  provisional_best rs st ∧
  ((length rs < 3)%nat → outcome = inr st) ∧
  ((3 ≤ length rs)%nat →
     top_three (Search.top_models st) rs ∧
     match fit_ensemble (Search.voting_models (Search.top_models st)) with
     | inl e => outcome = inl e
     | inr ens =>
         ∃ final,
           outcome = inr final ∧
           Search.results final = rs ++ [("Ensemble", ens)] ∧
           (Search.best_model_name final = "Ensemble" ↔ (Search.best_score st < f1 ens)%Q) ∧
           ((Search.best_score st < f1 ens)%Q →
              Search.best_model final = Some (Search.model ens) ∧
              Search.best_score final = f1 ens) ∧
           (¬ (Search.best_score st < f1 ens)%Q →
              Search.best_model final = Search.best_model st ∧
              Search.best_score final = Search.best_score st ∧
              Search.best_model_name final = Search.best_model_name st)
     end).
Proof.
  intros st rs outcome.
  destruct (train_candidates_spec _ (models_NoDup n_train)) as [Hres Hbest].
  fold st rs in Hres, Hbest.
  split; [done|]. split; [done|].
  subst outcome. unfold Search.train_best_model, Search.add_ensemble. fold st.
  rewrite Hres.
  split.
  { intros Hlt. destruct (Nat.leb_spec 3 (length rs)); [lia|done]. }
  intros Hge. destruct (Nat.leb_spec 3 (length rs)) as [_|]; [|lia].
  split.
  { rewrite <- Hres. apply top_models_top_three. by rewrite Hres. }
  destruct (fit_ensemble _) as [e|ens]; [done|].
  assert (Hname : Search.best_model_name st ≠ "Ensemble").
  { destruct (provisional_best_name _ _ Hbest) as [->|Hin]; [done|].
    intros Heq. rewrite Heq in Hin. apply succeeded_names in Hin.
    by apply models_not_ensemble in Hin. }
  assert (Hset : Search.dict_set "Ensemble" ens rs = rs ++ [("Ensemble", ens)]).
  { apply dict_set_fresh. intros Hin. apply succeeded_names in Hin.
    by apply models_not_ensemble in Hin. }
  rewrite Hset.
  destruct (Search.Qgtb (f1 ens) (Search.best_score st)) eqn:Hcmp.
  - apply Qgtb_true in Hcmp. eexists. split; [reflexivity|]. simpl.
    repeat split; try done.
  - apply Qgtb_false in Hcmp. eexists. split; [reflexivity|]. simpl.
    assert (Hnot : ¬ (Search.best_score st < f1 ens)%Q) by by apply Qle_not_lt.
    repeat split; try done.
Qed.

End SearchFacts.

Lemma train_best_model_selection_witness :
  Search.results (Search.train_candidates demo_search (Search.models 100))
    = succeeded demo_search (Search.models 100) ∧
  Search.best_model_name (Search.train_candidates demo_search (Search.models 100))
    = "XGBoost" ∧
  (Search.top_models (Search.train_candidates demo_search (Search.models 100))).*1
    = ["XGBoost"; "Gradient Boosting"; "Optimized Random Forest"] ∧
  ∃ final,
    Search.train_best_model demo_search demo_ensemble 100 = inr final ∧
    Search.best_model_name final = "Ensemble".
Proof.
  destruct (train_best_model_selection demo_search demo_ensemble 100)
    as (Hres & _ & _ & Hens).
  split; [exact Hres|]. split; [reflexivity|]. split; [reflexivity|].
  destruct Hens as [_ Hens]; [vm_compute; lia|].
  change (demo_ensemble _) with
    (inr (Search.mkResult "voting" (97 # 100) (97 # 100)) : exn + Search.result string)
    in Hens.
  destruct Hens as (final & Hfinal & _ & Hname & _).
  exists final. split; [exact Hfinal|]. apply Hname. reflexivity.
Defined.

(** C4, as the specification has it, fails when the highest held-out F1 is
    zero: XGBoost is the one successful candidate and has the highest
    score, and no model is selected. *)
Lemma zero_f1_selects_nothing :
  ∃ st,
    Search.train_best_model only_xgboost_at_zero (λ _, inl OtherError) 100 = inr st ∧
    Search.results st = [("XGBoost", Search.mkResult "xgb" 0 0)] ∧
    Search.best_model st = None ∧
    Search.best_model_name st = "".
Proof. eexists. by vm_compute. Qed.

(** ** Dataset cleaner *)

(** *** Columns of finite values, seen as lists of rationals *)

Lemma all_finite_fmap (col : list Np.float) :
  all_finite col → ∃ qs, col = Np.Fin <$> qs.
Proof.
  induction 1 as [|x col Hx _ [qs ->]]; [by exists []|].
  destruct x as [q| | |]; try done. by exists (q :: qs).
Qed.

Lemma dropna_fin (qs : list Q) : Np.dropna (Np.Fin <$> qs) = Np.Fin <$> qs.
Proof.
  unfold Np.dropna. induction qs as [|q qs IH]; simpl; [done|].
  f_equal. exact IH.
Qed.

Lemma insert_sorted_fin (q : Q) (qs : list Q) :
  Np.insert_sorted (Np.Fin q) (Np.Fin <$> qs) = Np.Fin <$> qinsert q qs.
Proof.
  induction qs as [|y qs IH]; simpl; [done|].
  destruct (Qle_bool q y); simpl; [done|]. f_equal. exact IH.
Qed.

Lemma sort_fin (qs : list Q) : Np.sort (Np.Fin <$> qs) = Np.Fin <$> qsort qs.
Proof.
  unfold Np.sort. induction qs as [|q qs IH]; simpl; [done|].
  etrans; [|apply insert_sorted_fin]. f_equal. exact IH.
Qed.

Lemma qinsert_perm (x : Q) l : qinsert x l ≡ₚ x :: l.
Proof.
  induction l as [|y l IH]; simpl; [done|].
  destruct (Qle_bool x y); [done|]. rewrite IH. apply Permutation_swap.
Qed.

Lemma qsort_perm l : qsort l ≡ₚ l.
Proof.
  induction l as [|x l IH]; simpl; [done|]. by rewrite qinsert_perm, IH.
Qed.

Lemma qsort_length l : length (qsort l) = length l.
Proof. apply Permutation_length, qsort_perm. Qed.

Lemma qinsert_sorted (x : Q) l :
  StronglySorted Qle l → StronglySorted Qle (qinsert x l).
Proof.
  induction 1 as [|y l Hl IH Hy]; simpl.
  { repeat constructor. }
  destruct (Qle_bool x y) eqn:E.
  - apply Qle_bool_iff in E. constructor; [by constructor|].
    constructor; [done|].
    eapply Forall_impl; [exact Hy|]. intros z Hz. simpl in Hz. by eapply Qle_trans.
  - assert (Hyx : (y <= x)%Q).
    { destruct (Qlt_le_dec y x) as [H|H]; [by apply Qlt_le_weak|].
      apply Qle_bool_iff in H. congruence. }
    constructor; [done|]. rewrite qinsert_perm. by constructor.
Qed.

Lemma qsort_sorted l : StronglySorted Qle (qsort l).
Proof.
  induction l as [|x l IH]; simpl; [constructor|]. by apply qinsert_sorted.
Qed.

Lemma sorted_nth_le (v : list Q) (i j : nat) :
  StronglySorted Qle v → (i ≤ j)%nat → (j < length v)%nat →
  (nth i v 0 <= nth j v 0)%Q.
Proof.
  intros Hs. revert i j. induction Hs as [|x v Hv IH Hx]; intros i j Hij Hj.
  { simpl in Hj. lia. }
  destruct i as [|i], j as [|j]; simpl in *; try lia.
  - apply Qle_refl.
  - rewrite Forall_forall in Hx. apply Hx, list_elem_of_In, nth_In. lia.
  - apply IH; lia.
Qed.

Lemma nth_fin (v : list Q) (i : nat) :
  (i < length v)%nat → nth i (Np.Fin <$> v) Np.NaN = Np.Fin (nth i v 0%Q).
Proof.
  revert i. induction v as [|x v IH]; intros i Hi; simpl in *; [lia|].
  destruct i; [done|]. apply IH. lia.
Qed.

Lemma lerp_fin (a b t : Q) : Np.lerp (Np.Fin a) (Np.Fin b) t = Np.Fin (qlerp a b t).
Proof. unfold Np.lerp, qlerp. by destruct (Qle_bool (1 # 2) t). Qed.

Lemma qlerp_eq (a b t : Q) : (qlerp a b t == a + (b - a) * t)%Q.
Proof. unfold qlerp. destruct (Qle_bool (1 # 2) t); ring. Qed.

(** The virtual index of a quantile between 0 and 1 stays inside the
    column, and its fractional part inside the unit interval. *)
Lemma qposition_facts (n : nat) (q : Q) :
  (0 < n)%nat → (0 <= q)%Q → (q <= 1)%Q →
  let pos := qposition n q in
  (0 ≤ Qfloor pos)%Z ∧ (Z.to_nat (Qfloor pos) ≤ n - 1)%nat ∧
  (0 <= pos - inject_Z (Qfloor pos))%Q ∧ (pos - inject_Z (Qfloor pos) < 1)%Q.
Proof.
  intros Hn Hq0 Hq1 pos.
  assert (Hm : (0 <= inject_Z (Z.of_nat (n - 1)))%Q).
  { change 0%Q with (inject_Z 0). rewrite <- Zle_Qle. lia. }
  assert (Hpos0 : (0 <= pos)%Q).
  { unfold pos, qposition. by apply Qmult_le_0_compat. }
  assert (Hpos1 : (pos <= inject_Z (Z.of_nat (n - 1)))%Q).
  { unfold pos, qposition. nra. }
  assert (Hf0 : (0 ≤ Qfloor pos)%Z).
  { change 0%Z with (Qfloor 0). by apply Qfloor_resp_le. }
  assert (Hf1 : (Qfloor pos ≤ Z.of_nat (n - 1))%Z).
  { rewrite <- (Qfloor_Z (Z.of_nat (n - 1))). by apply Qfloor_resp_le. }
  pose proof (Qfloor_le pos) as Hle.
  pose proof (Qlt_floor pos) as Hlt.
  rewrite inject_Z_plus in Hlt. change (inject_Z 1) with 1%Q in Hlt.
  repeat split; [done|lia|lra|lra].
Qed.

Lemma quantile_fin (q : Q) (qs : list Q) :
  qs ≠ [] → (0 <= q)%Q → (q <= 1)%Q →
  Np.quantile q (Np.Fin <$> qs) = Np.Fin (qquantile q qs).
Proof.
  intros Hne Hq0 Hq1. unfold Np.quantile, qquantile.
  rewrite dropna_fin, sort_fin, length_fmap.
  assert (Hn : (0 < length (qsort qs))%nat).
  { rewrite qsort_length. destruct qs; [done|simpl; lia]. }
  destruct (Nat.eqb_spec (length (qsort qs)) 0) as [E|_]; [lia|].
  fold (qposition (length (qsort qs)) q).
  destruct (qposition_facts _ q Hn Hq0 Hq1) as (_ & Hlo & _).
  rewrite !nth_fin by lia. apply lerp_fin.
Qed.

Lemma qquantile_between (q : Q) (qs : list Q) :
  qs ≠ [] → (0 <= q)%Q → (q <= 1)%Q →
  let v := qsort qs in
  let lo := Z.to_nat (Qfloor (qposition (length v) q)) in
  let hi := Nat.min (lo + 1) (length v - 1) in
  (nth lo v 0 <= qquantile q qs)%Q ∧ (qquantile q qs <= nth hi v 0)%Q.
Proof.
  intros Hne Hq0 Hq1 v lo hi.
  assert (Hn : (0 < length v)%nat).
  { unfold v. rewrite qsort_length. destruct qs; [done|simpl; lia]. }
  destruct (qposition_facts _ q Hn Hq0 Hq1) as (_ & Hlo & Ht0 & Ht1).
  fold lo in Hlo.
  assert (Hab : (nth lo v 0 <= nth hi v 0)%Q).
  { apply sorted_nth_le; [apply qsort_sorted|lia|lia]. }
  unfold qquantile. fold v lo hi.
  set (t := (qposition (length v) q - inject_Z (Qfloor (qposition (length v) q)))%Q) in *.
  rewrite qlerp_eq. split; nra.
Qed.

Lemma qquantile_mono (q1 q2 : Q) (qs : list Q) :
  qs ≠ [] → (0 <= q1)%Q → (q1 <= q2)%Q → (q2 <= 1)%Q →
  (qquantile q1 qs <= qquantile q2 qs)%Q.
Proof.
  intros Hne H0 H12 H1.
  assert (Hq1 : (q1 <= 1)%Q) by lra.
  assert (Hq2 : (0 <= q2)%Q) by lra.
  pose proof (qquantile_between q1 qs Hne H0 Hq1) as [_ Hup].
  pose proof (qquantile_between q2 qs Hne Hq2 H1) as [Hdown _].
  cbv zeta in Hup, Hdown.
  set (v := qsort qs) in *.
  assert (Hn : (0 < length v)%nat).
  { unfold v. rewrite qsort_length. destruct qs; [done|simpl; lia]. }
  destruct (qposition_facts _ q1 Hn H0 Hq1) as (Hf1 & Hlo1 & Ht1 & _).
  destruct (qposition_facts _ q2 Hn Hq2 H1) as (Hf2 & Hlo2 & _ & Ht2).
  assert (Hm : (0 <= inject_Z (Z.of_nat (length v - 1)))%Q).
  { change 0%Q with (inject_Z 0). rewrite <- Zle_Qle. lia. }
  assert (Hpos : (qposition (length v) q1 <= qposition (length v) q2)%Q).
  { unfold qposition. nra. }
  pose proof (Qfloor_resp_le _ _ Hpos) as Hfloor.
  destruct (decide (Qfloor (qposition (length v) q1) = Qfloor (qposition (length v) q2)))
    as [Heq|Hneq].
  - (* both between the same two order statistics *)
    unfold qquantile. fold v. rewrite <- Heq.
    set (f := Qfloor (qposition (length v) q1)) in *.
    set (lo := Z.to_nat f) in *.
    assert (Hab : (nth lo v 0 <= nth (Nat.min (lo + 1) (length v - 1)) v 0)%Q).
    { apply sorted_nth_le; [apply qsort_sorted|lia|lia]. }
    rewrite !qlerp_eq.
    set (a := nth lo v 0%Q) in *.
    set (b := nth (Nat.min (lo + 1) (length v - 1)) v 0%Q) in *.
    set (p1 := qposition (length v) q1) in *.
    set (p2 := qposition (length v) q2) in *.
    clearbody a b p1 p2.
    assert (Hprod : (0 <= (b - a) * (p2 - p1))%Q).
    { apply Qmult_le_0_compat; lra. }
    lra.
  - (* the lower quantile ends where the upper one starts, or before *)
    eapply Qle_trans; [exact Hup|]. eapply Qle_trans; [|exact Hdown].
    apply sorted_nth_le; [apply qsort_sorted|lia|lia].
Qed.

(** *** Imputation leaves a column all finite or all missing *)

Lemma impute_columns (X : DataFrame Np.float) :
  Cleaner.impute X = (λ c, (c.1, impute_column c.2)) <$> X.
Proof.
  unfold Cleaner.impute, Cleaner.fill_median, Cleaner.drop_inf.
  rewrite <- !list_fmap_compose. by apply list_fmap_ext.
Qed.

Lemma replace_inf_no_inf (col : list Np.float) :
  Forall (λ x, Np.isinf x = false) (Np.replace_inf col).
Proof.
  unfold Np.replace_inf. apply Forall_fmap, Forall_forall.
  by intros [q| | |] _.
Qed.

Lemma dropna_no_inf (col : list Np.float) :
  Forall (λ x, Np.isinf x = false) col → all_finite (Np.dropna col).
Proof.
  unfold Np.dropna, all_finite. induction 1 as [|x col Hx _ IH]; simpl; [constructor|].
  destruct x; simpl in *; try done. by constructor.
Qed.

Lemma dropna_nil_all_nan (col : list Np.float) :
  Np.dropna col = [] → all_nan col.
Proof.
  unfold Np.dropna, all_nan. induction col as [|x col IH]; simpl; [constructor|].
  destruct x; simpl; try done. intros H. constructor; auto.
Qed.

Lemma median_fin (qs : list Q) :
  qs ≠ [] → ∃ m, Np.median (Np.Fin <$> qs) = Np.Fin m.
Proof.
  intros Hne. unfold Np.median.
  rewrite dropna_fin, sort_fin, length_fmap.
  assert (Hn : (0 < length (qsort qs))%nat).
  { rewrite qsort_length. destruct qs; [done|simpl; lia]. }
  destruct (Nat.eqb_spec (length (qsort qs)) 0) as [E|_]; [lia|].
  assert (Hhalf : (length (qsort qs) / 2 < length (qsort qs))%nat).
  { apply Nat.div_lt; lia. }
  destruct (Nat.odd _).
  - rewrite nth_fin by done. eauto.
  - rewrite !nth_fin by lia. simpl. eauto.
Qed.

Lemma median_all_nan (col : list Np.float) :
  all_nan col → Np.median col = Np.NaN.
Proof.
  intros H. unfold Np.median.
  assert (Np.dropna col = []) as ->; [|done].
  unfold Np.dropna. induction H as [|x col -> _ IH]; simpl; done.
Qed.

Lemma fillna_fin_no_inf (m : Q) (col : list Np.float) :
  Forall (λ x, Np.isinf x = false) col → all_finite (Np.fillna (Np.Fin m) col).
Proof.
  intros H. unfold Np.fillna, all_finite. apply Forall_fmap.
  eapply Forall_impl; [exact H|]. by intros [q| | |].
Qed.

Lemma fillna_nan_all_nan (col : list Np.float) :
  all_nan col → all_nan (Np.fillna Np.NaN col).
Proof.
  intros H. unfold Np.fillna, all_nan. apply Forall_fmap.
  eapply Forall_impl; [exact H|]. by intros x ->.
Qed.

Lemma impute_column_cases (col : list Np.float) :
  all_finite (impute_column col) ∨ all_nan (impute_column col).
Proof.
  unfold impute_column.
  set (c2 := Np.replace_inf _).
  pose proof (replace_inf_no_inf (Np.fillna (Np.median col) col)) as Hinf.
  fold c2 in Hinf.
  destruct (Np.dropna c2) as [|x rest] eqn:Hdrop.
  - right. apply dropna_nil_all_nan in Hdrop.
    rewrite (median_all_nan _ Hdrop). by apply fillna_nan_all_nan.
  - left.
    destruct (all_finite_fmap _ (dropna_no_inf _ Hinf)) as [qs Hqs].
    assert (Hmed : ∃ m, Np.median c2 = Np.Fin m).
    { assert (Hsame : Np.median c2 = Np.median (Np.Fin <$> qs)).
      { unfold Np.median. by rewrite dropna_fin, Hqs. }
      rewrite Hsame. apply median_fin. intros ->. by rewrite Hdrop in Hqs. }
    destruct Hmed as [m ->]. by apply fillna_fin_no_inf.
Qed.

(** *** Clipping keeps a finite column inside its own bounds *)

Lemma clip_all_nan (lower upper : Np.float) (col : list Np.float) (v : Np.float) :
  all_nan col → v ∈ Np.clip lower upper col → v = Np.NaN.
Proof.
  intros Hnan Hv. unfold Np.clip in Hv.
  apply list_elem_of_fmap in Hv as (x & -> & Hx).
  unfold all_nan in Hnan. rewrite Forall_forall in Hnan.
  rewrite (Hnan x Hx). unfold Np.clip_value. simpl.
  by rewrite !orb_true_r.
Qed.

Lemma clip_value_fin (l u x : Q) :
  (l <= u)%Q →
  Np.leb (Np.Fin l) (Np.clip_value (Np.Fin l) (Np.Fin u) (Np.Fin x)) = true ∧
  Np.leb (Np.clip_value (Np.Fin l) (Np.Fin u) (Np.Fin x)) (Np.Fin u) = true.
Proof.
  intros Hlu. unfold Np.clip_value. simpl. rewrite !orb_false_r.
  destruct (Qle_bool l x) eqn:E1, (Qle_bool x u) eqn:E2; simpl;
    rewrite ?Qle_bool_iff in *; repeat split; try done; try apply Qle_refl.
Qed.

Lemma bounds_fin (qs : list Q) :
  qs ≠ [] →
  ∃ l u, Cleaner.lower_bound (Np.Fin <$> qs) = Np.Fin l ∧
         Cleaner.upper_bound (Np.Fin <$> qs) = Np.Fin u ∧ (l <= u)%Q.
Proof.
  intros Hne. unfold Cleaner.lower_bound, Cleaner.upper_bound.
  rewrite !quantile_fin by (done || lra). simpl.
  pose proof (qquantile_mono (1 # 4) (3 # 4) qs Hne) as Hmono.
  assert (H : (qquantile (1 # 4) qs <= qquantile (3 # 4) qs)%Q).
  { apply Hmono; lra. }
  eexists _, _. split; [reflexivity|]. split; [reflexivity|]. lra.
Qed.

Lemma clip_all_finite (col : list Np.float) (v : Np.float) :
  all_finite col →
  v ∈ Np.clip (Cleaner.lower_bound col) (Cleaner.upper_bound col) col →
  Np.leb (Cleaner.lower_bound col) v = true ∧
  Np.leb v (Cleaner.upper_bound col) = true.
Proof.
  intros Hfin Hv. destruct (all_finite_fmap _ Hfin) as [qs ->].
  destruct qs as [|q qs]; [inversion Hv|].
  destruct (bounds_fin (q :: qs)) as (l & u & Hl & Hu & Hlu); [done|].
  rewrite Hl, Hu in *. unfold Np.clip in Hv.
  apply list_elem_of_fmap in Hv as (x & -> & Hx).
  apply list_elem_of_fmap in Hx as (y & -> & _).
  by apply clip_value_fin.
Qed.

(** *** From columns to the frames that are returned *)

Lemma drop_constant_subset (X : DataFrame Np.float) (c : string * list Np.float) :
  c ∈ Cleaner.drop_constant X → c ∈ X.
Proof.
  unfold Cleaner.drop_constant. destruct (Nat.ltb _ _); [|done].
  rewrite list_elem_of_In, filter_In, <- list_elem_of_In. by intros [? _].
Qed.

Lemma take_rows_lookup {V} (idx : list nat) (F : DataFrame V) (j : nat)
    (name : string) (col : list V) :
  take_rows idx F !! j = Some (name, col) →
  ∃ whole, F !! j = Some (name, whole) ∧ ∀ v, v ∈ col → v ∈ whole.
Proof.
  unfold take_rows. rewrite list_lookup_fmap.
  destruct (F !! j) as [[n whole]|]; [|done]. simpl. intros [= <- <-].
  exists whole. split; [done|]. intros v Hv.
  apply list_elem_of_omap in Hv as (i & _ & Hi). by eapply list_elem_of_lookup_2.
Qed.

Lemma split_with_fallback_rows {V} permutation stratified_draw
    (F : DataFrame V) (y : list string) Xtr Xte ytr yte :
  Split.split_with_fallback permutation stratified_draw F y = inr (Xtr, Xte, ytr, yte) →
  ∃ train test, Xtr = take_rows train F ∧ Xte = take_rows test F.
Proof.
  assert (Hone : ∀ stratify,
    Split.train_test_split permutation stratified_draw F y 42 stratify
      = inr (Xtr, Xte, ytr, yte) →
    ∃ train test, Xtr = take_rows train F ∧ Xte = take_rows test F).
  { intros stratify. unfold Split.train_test_split.
    destruct (Split.validate_shuffle_split _) as [e|[n_train n_test]]; [done|].
    destruct (match stratify with Some _ => _ | None => _ end) as [e|[train test]]; [done|].
    intros [= <- <- _ _]. eauto. }
  unfold Split.split_with_fallback.
  destruct (Split.train_test_split _ _ F y 42 (Some y)) as [[]|r] eqn:E.
  - apply Hone.
  - done.
  - done.
  - intros [= ->]. by eapply Hone.
Qed.

Lemma impute_column_keeps_finite (col : list Np.float) (x : Np.float) :
  x ∈ col → Np.isfinite x = true → x ∈ impute_column col.
Proof.
  intros Hx Hfin. destruct x as [q| | |]; try done.
  unfold impute_column, Np.fillna, Np.replace_inf.
  apply list_elem_of_fmap. exists (Np.Fin q). split; [done|].
  apply list_elem_of_fmap. exists (Np.Fin q). split; [done|].
  apply list_elem_of_fmap. exists (Np.Fin q). by split.
Qed.

(** What cleaning does achieve: when every column of the frame holds at
    least one finite value, every value of the cleaned frame is finite. *)
Lemma cleaning_finite_when_columns_hold_a_value (X : DataFrame Np.float) :
  (∀ c, c ∈ X → ∃ x, x ∈ c.2 ∧ Np.isfinite x = true) →
  ∀ c v, c ∈ Cleaner.advanced_data_cleaning X → v ∈ c.2 → Np.isfinite v = true.
Proof.
  intros Hcols c v Hc Hv.
  unfold Cleaner.advanced_data_cleaning, Cleaner.clip_outliers in Hc.
  apply list_elem_of_fmap in Hc as ([n whole] & -> & Hw). simpl in Hv.
  apply drop_constant_subset in Hw. rewrite impute_columns in Hw.
  apply list_elem_of_fmap in Hw as (c & [= -> ->] & Hc).
  destruct (Hcols c Hc) as (x & Hx & Hfin).
  pose proof (impute_column_keeps_finite _ _ Hx Hfin) as Hkept.
  destruct (impute_column_cases c.2) as [Hall|Hnan].
  - destruct (clip_all_finite _ _ Hall Hv) as [Hlo Hup].
    destruct (all_finite_fmap _ Hall) as [qs Hqs]. rewrite Hqs in *.
    destruct qs as [|q qs]; [inversion Hkept|].
    destruct (bounds_fin (q :: qs)) as (l & u & Hl & Hu & _); [done|].
    rewrite Hl in Hlo. rewrite Hu in Hup. by destruct v.
  - unfold all_nan in Hnan. rewrite Forall_forall in Hnan.
    apply Hnan in Hkept. subst x. done.
Qed.

(** C1, amended. Every value v of the cleaned feature matrix, in the
    training part and in the test part alike, satisfies
    Q1 - 3*IQR <= v <= Q3 + 3*IQR where Q1, Q3 and IQR are those of the
    whole column as it stands before the train/test split, after
    imputation and the removal of constant columns; the one exception is a
    column without any finite value, which is NaN throughout.  The bounds
    are taken once, on all rows; the split only selects rows of the
    clipped matrix. *)
Theorem clipped_within_whole_matrix_bounds permutation stratified_draw
    (X : DataFrame Np.float) (y : list string)
    (X_train X_test : DataFrame Np.float) (y_train y_test : list string)
    (j : nat) (name : string) (col : list Np.float) (v : Np.float) :
  Split.clean_and_split permutation stratified_draw X y
    = inr (X_train, X_test, y_train, y_test) →
  X_train !! j = Some (name, col) ∨ X_test !! j = Some (name, col) →
  v ∈ col →
  ∃ whole,
    Cleaner.drop_constant (Cleaner.impute X) !! j = Some (name, whole) ∧
    ((all_nan whole ∧ v = Np.NaN) ∨
     (all_finite whole ∧
      Np.leb (Cleaner.lower_bound whole) v = true ∧
      Np.leb v (Cleaner.upper_bound whole) = true)).
Proof.
  intros Hsplit Hpart Hv. unfold Split.clean_and_split in Hsplit.
  apply split_with_fallback_rows in Hsplit as (train & test & -> & ->).
  assert (∃ idx, take_rows idx (Cleaner.advanced_data_cleaning X) !! j = Some (name, col))
    as [idx Hj] by (destruct Hpart; eauto).
  apply take_rows_lookup in Hj as (clipped & Hj & Hsub).
  apply Hsub in Hv. clear Hsub Hpart.
  unfold Cleaner.advanced_data_cleaning, Cleaner.clip_outliers in Hj.
  rewrite list_lookup_fmap in Hj.
  destruct (Cleaner.drop_constant (Cleaner.impute X) !! j) as [[n whole]|] eqn:Hw; [|done].
  simpl in Hj. injection Hj as <- <-.
  exists whole. split; [done|].
  apply list_elem_of_lookup_2, drop_constant_subset in Hw.
  rewrite impute_columns in Hw.
  apply list_elem_of_fmap in Hw as (c & [= -> ->] & _).
  destruct (impute_column_cases c.2) as [Hfin|Hnan].
  - right. split; [done|]. by apply clip_all_finite.
  - left. split; [done|]. by eapply clip_all_nan.
Qed.

Lemma clipped_within_whole_matrix_bounds_witness :
  ∃ whole,
    Cleaner.drop_constant (Cleaner.impute leakage_table) !! 0%nat
      = Some ("flow_duration", whole) ∧
    ((all_nan whole ∧ Np.Fin (inject_Z 4) = Np.NaN) ∨
     (all_finite whole ∧
      Np.leb (Cleaner.lower_bound whole) (Np.Fin (inject_Z 4)) = true ∧
      Np.leb (Np.Fin (inject_Z 4)) (Cleaner.upper_bound whole) = true)).
Proof.
  apply (clipped_within_whole_matrix_bounds
           (λ _ n, seq 0 n)
           (λ _ _ n_train n_test, (seq n_test n_train, seq 0 n_test))
           leakage_table benign_labels
           (take_rows [1; 2; 3; 4]%nat leakage_table)
           (take_rows [0]%nat leakage_table)
           ["BENIGN"; "BENIGN"; "BENIGN"; "BENIGN"] ["BENIGN"]
           0%nat "flow_duration" [Np.Fin (inject_Z 4)] (Np.Fin (inject_Z 4))).
  - vm_compute. reflexivity.
  - right. reflexivity.
  - apply elem_of_cons. by left.
Defined.

Lemma above_training_boundb_sound (X_train X_test : DataFrame Np.float) :
  above_training_boundb X_train X_test = true → above_training_bound X_train X_test.
Proof.
  unfold above_training_boundb. rewrite existsb_exists.
  intros ([[n1 train] [n2 test]] & Hin & H). simpl in H.
  apply andb_prop in H as [H Hv]. apply andb_prop in H as [Hn Hb].
  apply String.eqb_eq in Hn as <-.
  apply existsb_exists in Hv as (v & Hv & Hcmp).
  apply andb_prop in Hcmp as [Hnan Hcmp].
  apply list_elem_of_In, list_elem_of_lookup_1 in Hin as [j Hj].
  apply lookup_zip_with_Some in Hj as (a & b & [= <- <-] & Ha & Hb').
  exists j, n1, train, test, v.
  rewrite negb_true_iff in Hnan, Hcmp, Hb.
  repeat split; try done. by apply list_elem_of_In.
Qed.

Lemma leaks_in_order_sound (p : list nat) :
  leaks_in_order p = true →
  ∃ X_train X_test y_train y_test,
    split_in_order p leakage_table benign_labels
      = inr (X_train, X_test, y_train, y_test) ∧
    above_training_bound X_train X_test.
Proof.
  unfold leaks_in_order.
  destruct (split_in_order p leakage_table benign_labels)
    as [e|[[[X_train X_test] y_train] y_test]]; [done|].
  intros H. eexists _, _, _, _. split; [reflexivity|].
  by apply above_training_boundb_sound.
Qed.

Lemma all_orders_leak :
  Forall (λ p, leaks_in_order p = true) (permutations (seq 0 5)).
Proof. apply (bool_decide_unpack _). by vm_compute. Qed.

(** Whatever order of the five rows the shuffle draws. *)
Lemma any_order_leaks (p : list nat) :
  p ≡ₚ seq 0 5 →
  ∃ X_train X_test y_train y_test,
    split_in_order p leakage_table benign_labels
      = inr (X_train, X_test, y_train, y_test) ∧
    above_training_bound X_train X_test.
Proof.
  intros Hp. apply leaks_in_order_sound.
  pose proof all_orders_leak as Hall. rewrite Forall_forall in Hall.
  apply Hall, permutations_Permutation. by symmetry.
Qed.

(** C1, as the specification has it, fails.  On [leakage_table] cleaning
    changes no value, so the rows of the training part are the raw
    training rows; and in whichever order the shuffle draws the five rows,
    the test part holds a value above the bound Q3 + 3*IQR of the training
    part. *)
Lemma test_value_above_training_bound :
  Cleaner.advanced_data_cleaning leakage_table = leakage_table ∧
  Forall (λ p, ∃ X_train X_test y_train y_test,
            split_in_order p leakage_table benign_labels
              = inr (X_train, X_test, y_train, y_test) ∧
            above_training_bound X_train X_test)
         (permutations (seq 0 5)).
Proof.
  split; [by vm_compute|].
  eapply Forall_impl; [exact all_orders_leak|exact leaks_in_order_sound].
Qed.

(** C3. The specification has every value finite after cleaning, for every
    table.  A column without any value has the median NaN, so both
    imputations leave it as it is, its standard deviation is NaN and not
    zero, so it is not dropped, and clipping keeps missing values: the
    column reaches both returned parts with NaN in every row. *)
Theorem all_missing_column_survives_cleaning :
  Cleaner.advanced_data_cleaning missing_column_table = missing_column_table ∧
  split_in_order [0; 1; 2; 3; 4]%nat missing_column_table benign_labels
    = inr ([("flow_duration", integers [2; 3; 4; 5]%Z);
            ("idle_mean", [Np.NaN; Np.NaN; Np.NaN; Np.NaN])],
           [("flow_duration", integers [1]%Z); ("idle_mean", [Np.NaN])],
           ["BENIGN"; "BENIGN"; "BENIGN"; "BENIGN"], ["BENIGN"]).
Proof. split; by vm_compute. Qed.

(** * Further properties of the pipeline *)

(** ** Header normalization, header by header *)

Section HeaderFacts.

Import PyStr.

Lemma map_chars_compose (f g : ascii → ascii) s :
  map_chars f (map_chars g s) = map_chars (λ c, f (g c)) s.
Proof. induction s as [|c s IH]; cbn [map_chars]; [done|]. by rewrite IH. Qed.

Lemma map_chars_ext (f g : ascii → ascii) s :
  (∀ c, f c = g c) → map_chars f s = map_chars g s.
Proof.
  intros H. induction s as [|c s IH]; cbn [map_chars]; [done|]. by rewrite H, IH.
Qed.

Lemma lstrip_map_trimmed (f : ascii → ascii) s :
  (∀ c, isspace c = false → isspace (f c) = false) →
  lstrip s = s → lstrip (map_chars f s) = map_chars f s.
Proof.
  intros Hf. destruct s as [|c s]; cbn [lstrip map_chars]; [done|].
  destruct (isspace c) eqn:Hc.
  - intros H. exfalso.
    assert (Hlen : (String.length (lstrip s) ≤ String.length s)%nat).
    { clear. induction s as [|d s IH]; cbn [lstrip]; [done|].
      destruct (isspace d); simpl; lia. }
    rewrite H in Hlen. simpl in Hlen. lia.
  - intros _. by rewrite (Hf c Hc).
Qed.

Lemma rstrip_map_trimmed (f : ascii → ascii) s :
  (∀ c, isspace c = false → isspace (f c) = false) →
  rstrip s = s → rstrip (map_chars f s) = map_chars f s.
Proof.
  intros Hf. induction s as [|c s IH]; cbn [rstrip map_chars]; [done|].
  destruct (rstrip s) as [|d r] eqn:E.
  - destruct (isspace c) eqn:Hc; [done|]. intros [= <-].
    cbn [rstrip map_chars]. by rewrite (Hf c Hc).
  - intros [= Hs]. rewrite <- Hs in *. rewrite (IH eq_refl).
    by cbn [map_chars].
Qed.

Lemma strip_trimmed s : trimmed (strip s).
Proof.
  split.
  - apply lstrip_tidy. unfold strip. apply rstrip_left_tidy, lstrip_left_tidy.
  - unfold strip. apply rstrip_idemp.
Qed.

Lemma trimmed_map (f : ascii → ascii) s :
  (∀ c, isspace c = false → isspace (f c) = false) →
  trimmed s → trimmed (map_chars f s).
Proof.
  intros Hf [Hl Hr]. split; [by apply lstrip_map_trimmed|by apply rstrip_map_trimmed].
Qed.

Lemma trimmed_strip s : trimmed s → strip s = s.
Proof. intros [Hl Hr]. unfold strip. by rewrite Hl, Hr. Qed.

Lemma tidy_name_trimmed s : trimmed (Schema.tidy_name s).
Proof.
  unfold Schema.tidy_name, lower, replace_space.
  apply trimmed_map.
  { intros c. destruct c as [[] [] [] [] [] [] [] []]; by vm_compute. }
  apply trimmed_map; [|apply strip_trimmed].
  intros c. destruct c as [[] [] [] [] [] [] [] []]; by vm_compute.
Qed.

Lemma tidy_name_lower_case s : lower_case (Schema.tidy_name s).
Proof.
  unfold lower_case, Schema.tidy_name, lower. rewrite map_chars_compose.
  apply map_chars_ext. intros c. destruct c as [[] [] [] [] [] [] [] []]; reflexivity.
Qed.

Lemma tidy_name_space_free s : space_free (Schema.tidy_name s).
Proof.
  unfold space_free, Schema.tidy_name, lower, replace_space.
  rewrite !map_chars_compose. apply map_chars_ext.
  intros c. destruct c as [[] [] [] [] [] [] [] []]; reflexivity.
Qed.

Lemma tidy_name_fixed s :
  trimmed s → space_free s → lower_case s → Schema.tidy_name s = s.
Proof.
  intros Ht Hs Hl. unfold Schema.tidy_name.
  rewrite (trimmed_strip _ Ht). unfold space_free in Hs. rewrite Hs. exact Hl.
Qed.

Lemma tidy_name_idemp s : Schema.tidy_name (Schema.tidy_name s) = Schema.tidy_name s.
Proof.
  apply tidy_name_fixed;
    [apply tidy_name_trimmed|apply tidy_name_space_free|apply tidy_name_lower_case].
Qed.

End HeaderFacts.

Lemma build_mapping_snoc cols c :
  Schema.build_mapping (cols ++ [c]) =
  match Schema.mapping_entry c with
  | Some canonical => <[c := canonical]> (Schema.build_mapping cols)
  | None => Schema.build_mapping cols
  end.
Proof. unfold Schema.build_mapping. by rewrite foldl_app. Qed.

Lemma build_mapping_lookup cols c :
  Schema.build_mapping cols !! c =
  if bool_decide (c ∈ cols) then Schema.mapping_entry c else None.
Proof.
  induction cols as [|x cols IH] using rev_ind.
  { by rewrite bool_decide_eq_false_2 by apply not_elem_of_nil. }
  rewrite build_mapping_snoc.
  destruct (decide (c = x)) as [->|Hne].
  - rewrite bool_decide_eq_true_2 by (apply elem_of_app; right; by apply elem_of_cons; left).
    destruct (Schema.mapping_entry x) as [v|] eqn:E.
    + by rewrite lookup_insert_eq.
    + rewrite IH. by case_bool_decide.
  - assert (Hiff : c ∈ cols ++ [x] ↔ c ∈ cols).
    { rewrite elem_of_app, list_elem_of_singleton. tauto. }
    rewrite (bool_decide_ext _ _ Hiff).
    destruct (Schema.mapping_entry x) as [v|]; [|done].
    by rewrite lookup_insert_ne.
Qed.

(** X1. [normalize_column_names] works header by header: the name a
    column ends with depends on its own raw header only, not on the other
    columns of the file, and the columns keep their number and order. *)
Theorem normalized_columns_pointwise (raw : list string) :
  Schema.normalized_columns raw = (λ h, canonical_name (Schema.tidy_name h)) <$> raw.
Proof.
  unfold Schema.normalized_columns, Schema.rename_columns. cbv zeta.
  rewrite <- list_fmap_compose. apply list_fmap_ext. intros i h Hi. simpl.
  unfold get_or_self, canonical_name.
  rewrite build_mapping_lookup, bool_decide_eq_true_2; [done|].
  apply list_elem_of_fmap. exists h. split; [done|]. by eapply list_elem_of_lookup_2.
Qed.

Lemma column_mappings_values_settled :
  map_Forall (λ _ v, settled v) Schema.column_mappings.
Proof. eapply (bool_decide_unpack _). by vm_compute. Qed.

Lemma mapping_entry_settled c v : Schema.mapping_entry c = Some v → settled v.
Proof.
  unfold Schema.mapping_entry.
  destruct (Schema.column_mappings !! c) as [w|] eqn:E.
  { intros [= <-]. exact (column_mappings_values_settled _ _ E). }
  repeat (match goal with
          | |- context [if ?b then _ else _] => destruct b
          end; [intros [= <-]; by vm_compute|]).
  done.
Qed.

Lemma canonical_name_settled t : Schema.tidy_name t = t → settled (canonical_name t).
Proof.
  intros Ht. unfold canonical_name.
  destruct (Schema.mapping_entry t) as [v|] eqn:E; simpl.
  - by eapply mapping_entry_settled.
  - split; [done|]. unfold canonical_name. by rewrite E.
Qed.

Lemma normalized_columns_settled raw c :
  c ∈ Schema.normalized_columns raw → settled c.
Proof.
  rewrite normalized_columns_pointwise. intros Hc.
  apply list_elem_of_fmap in Hc as (h & -> & _).
  apply canonical_name_settled, tidy_name_idemp.
Qed.

(** X2. Normalizing headers that are already normalized changes nothing:
    a canonical name is mapped to itself. *)
Theorem normalized_columns_idempotent (raw : list string) :
  Schema.normalized_columns (Schema.normalized_columns raw)
  = Schema.normalized_columns raw.
Proof.
  rewrite (normalized_columns_pointwise (Schema.normalized_columns raw)).
  rewrite <- (list_fmap_id (Schema.normalized_columns raw)) at 2.
  apply list_fmap_ext. intros i c Hc. simpl.
  apply list_elem_of_lookup_2, normalized_columns_settled in Hc as [Ht Hc].
  by rewrite Ht, Hc.
Qed.

(** X3. Every column name that [normalize_column_names] produces is free
    of upper-case ASCII letters and of spaces, and has no whitespace at
    either end: a later test against a name with a capital letter or a
    space cannot match. *)
Theorem normalized_columns_shape (raw : list string) :
  Forall (λ c, lower_case c ∧ space_free c ∧ trimmed c) (Schema.normalized_columns raw).
Proof.
  apply Forall_forall. intros c Hc.
  apply normalized_columns_settled in Hc as [Ht _]. rewrite <- Ht.
  split; [apply tidy_name_lower_case|].
  split; [apply tidy_name_space_free|apply tidy_name_trimmed].
Qed.

(** ** Locating the label column *)

Lemma unsettled_not_normalized raw alt :
  ¬ settled alt → bool_decide (alt ∈ Schema.normalized_columns raw) = false.
Proof.
  intros Hns. apply bool_decide_eq_false_2. intros Hin.
  by apply Hns, (normalized_columns_settled raw).
Qed.

(** On normalized headers the search of lines 203-212 for another label
    column can only find [target]: the capitalised alternatives never
    occur among normalized names, and [class] and [attack] are no
    normalized names either. *)
Lemma locate_label_on_normalized (raw : list string) :
  Loading.locate_label "label" (Schema.normalized_columns raw) =
  if bool_decide ("label" ∈ Schema.normalized_columns raw)
  then Some (Schema.normalized_columns raw)
  else if bool_decide ("target" ∈ Schema.normalized_columns raw)
  then Some (Loading.rename_one "target" "label" (Schema.normalized_columns raw))
  else None.
Proof.
  unfold Loading.locate_label.
  destruct (bool_decide ("label" ∈ Schema.normalized_columns raw)) eqn:Hlabel; [done|].
  unfold Loading.label_alternatives. cbn [List.find].
  rewrite Hlabel.
  rewrite (unsettled_not_normalized raw "Label"), (unsettled_not_normalized raw "LABEL"),
    (unsettled_not_normalized raw "Target"), (unsettled_not_normalized raw "class"),
    (unsettled_not_normalized raw "Class"), (unsettled_not_normalized raw "attack"),
    (unsettled_not_normalized raw "Attack")
    by (apply (bool_decide_unpack _); by vm_compute).
  by destruct (bool_decide ("target" ∈ Schema.normalized_columns raw)).
Qed.

Lemma occurrences_zero name cols : name ∉ cols → Loading.occurrences name cols = 0%nat.
Proof.
  unfold Loading.occurrences.
  induction cols as [|c cols IH]; intros Hn; [done|].
  apply not_elem_of_cons in Hn as [Hc Hn]. cbn [List.filter].
  destruct (String.eqb_spec name c) as [->|_]; [done|]. by apply IH.
Qed.

Lemma occurrences_rename alt target cols :
  target ∉ cols →
  Loading.occurrences target (Loading.rename_one alt target cols)
  = Loading.occurrences alt cols.
Proof.
  unfold Loading.occurrences, Loading.rename_one.
  induction cols as [|c cols IH]; intros Hn; [done|].
  apply not_elem_of_cons in Hn as [Hc Hn]. specialize (IH Hn).
  cbn [fmap list_fmap List.filter].
  destruct (String.eqb_spec c alt) as [->|Hne].
  - rewrite !String.eqb_refl. cbn [length]. f_equal. exact IH.
  - destruct (String.eqb_spec target c) as [->|_]; [done|].
    destruct (String.eqb_spec alt c) as [->|_]; [done|]. exact IH.
Qed.

(** X4. With the default target [label], a file passes lines 203-215 of
    [load_all_datasets] exactly when its normalized header has one column
    [label], or none and one column [target], which is renamed to
    [label].  No other alternative can match a normalized name, and a file
    in which two columns bear the name is skipped: two raw headers that
    normalize to [label], such as [Label] and [Class], lose the file. *)
Theorem label_step_on_normalized (raw : list string) :
  Loading.label_step "label" (Schema.normalized_columns raw) =
  if bool_decide ("label" ∈ Schema.normalized_columns raw)
  then (if Nat.eqb (Loading.occurrences "label" (Schema.normalized_columns raw)) 1
        then Some (Schema.normalized_columns raw) else None)
  else if Nat.eqb (Loading.occurrences "target" (Schema.normalized_columns raw)) 1
       then Some (Loading.rename_one "target" "label" (Schema.normalized_columns raw))
       else None.
Proof.
  unfold Loading.label_step. rewrite locate_label_on_normalized.
  destruct (bool_decide ("label" ∈ Schema.normalized_columns raw)) eqn:Hlabel; [done|].
  apply bool_decide_eq_false in Hlabel.
  destruct (bool_decide ("target" ∈ Schema.normalized_columns raw)) eqn:Htarget.
  - by rewrite occurrences_rename.
  - apply bool_decide_eq_false in Htarget. by rewrite occurrences_zero.
Qed.

(** ** Bookkeeping columns *)

Lemma prefix_lower_case needle hay :
  String.prefix needle hay = true → lower_case hay → lower_case needle.
Proof.
  unfold lower_case, PyStr.lower. revert hay.
  induction needle as [|a needle IH]; intros hay; [done|].
  destruct hay as [|b hay]; cbn [String.prefix PyStr.map_chars]; [done|].
  destruct (ascii_dec a b) as [->|]; [|done].
  intros Hp [= Hb Hhay]. by rewrite Hb, (IH hay).
Qed.

Lemma contains_lower_case needle hay :
  PyStr.contains needle hay = true → lower_case hay → lower_case needle.
Proof.
  induction hay as [|b hay IH]; cbn [PyStr.contains].
  - rewrite orb_false_r. apply prefix_lower_case.
  - intros H Hl. apply orb_prop in H as [H|H]; [by eapply prefix_lower_case|].
    apply IH; [done|]. unfold lower_case, PyStr.lower in *.
    cbn [PyStr.map_chars] in Hl. by injection Hl.
Qed.

Lemma list_filter_filter_bool {A} (f g : A → bool) l :
  List.filter f (List.filter g l) = List.filter (λ x, g x && f x) l.
Proof.
  induction l as [|x l IH]; simpl; [done|].
  destruct (g x); simpl; [|done]. destruct (f x); by rewrite IH.
Qed.

Lemma bool_decide_elem_cons (x a : string) (l : list string) :
  bool_decide (x ∈ a :: l) = String.eqb x a || bool_decide (x ∈ l).
Proof.
  destruct (String.eqb_spec x a) as [->|Hne]; simpl.
  - apply bool_decide_eq_true_2, elem_of_cons. by left.
  - apply bool_decide_ext. rewrite elem_of_cons. tauto.
Qed.

Lemma bool_decide_elem_nil (x : string) : bool_decide (x ∈ @nil string) = false.
Proof. apply bool_decide_eq_false_2, not_elem_of_nil. Qed.

Lemma list_filter_none {A} (f : A → bool) l :
  (∀ x, x ∈ l → f x = false) → List.filter f l = [].
Proof.
  induction l as [|x l IH]; intros H; simpl; [done|].
  rewrite (H x) by (apply elem_of_cons; by left).
  apply IH. intros y Hy. apply H, elem_of_cons. by right.
Qed.

(** X5. Once the column names are lower-case, as they all are after
    [normalize_column_names], the bookkeeping step of lines 265-267 drops
    the columns [source_file] and [timestamp] and nothing else: its tests
    for [Timestamp] and for names containing [Unnamed] never match, so the
    index column of a CSV written with its index ([Unnamed: 0], normalized
    to [unnamed:_0]) stays in the frame. *)
Theorem drop_bookkeeping_lower_case {V} (df : DataFrame V) :
  Forall lower_case (columns df) →
  Loading.drop_bookkeeping df = drop_columns ["source_file"; "timestamp"] df.
Proof.
  intros Hlow. unfold Loading.drop_bookkeeping.
  set (df1 := drop_columns ["source_file"] df).
  assert (Hlow1 : ∀ c, c ∈ df1 → c ∈ df ∧ lower_case c.1).
  { intros c Hc. unfold df1, drop_columns in Hc.
    apply list_elem_of_In, filter_In in Hc as [Hc _]. apply list_elem_of_In in Hc.
    split; [done|]. rewrite Forall_forall in Hlow. apply Hlow.
    unfold columns. by apply list_elem_of_fmap_2. }
  assert (Hstamp : has_column "Timestamp" df1 = false).
  { apply bool_decide_eq_false_2. unfold columns. intros Hin.
    apply list_elem_of_fmap in Hin as (c & Hname & Hc).
    apply Hlow1 in Hc as [_ Hc]. rewrite <- Hname in Hc. by vm_compute in Hc. }
  cbn [List.filter]. rewrite Hstamp.
  set (stamps := if has_column "timestamp" df1 then ["timestamp"] else []).
  set (df2 := drop_columns stamps df1).
  assert (Hunnamed : List.filter (PyStr.contains "Unnamed") (columns df2) = []).
  { apply list_filter_none. intros name Hname. unfold columns in Hname.
    apply list_elem_of_fmap in Hname as (c & -> & Hc).
    destruct (PyStr.contains "Unnamed" c.1) eqn:E; [|done]. exfalso.
    unfold df2, drop_columns in Hc.
    apply list_elem_of_In, filter_In in Hc as [Hc _]. apply list_elem_of_In in Hc.
    apply Hlow1 in Hc as [_ Hc].
    pose proof (contains_lower_case _ _ E Hc) as Hbad. by vm_compute in Hbad. }
  rewrite Hunnamed.
  assert (Hnone : drop_columns [] df2 = df2).
  { unfold drop_columns. apply forallb_filter_id, forallb_forall. intros c _.
    by rewrite bool_decide_elem_nil. }
  rewrite Hnone. unfold df2, df1, drop_columns.
  rewrite list_filter_filter_bool. apply filter_ext_in. intros c Hc.
  rewrite !bool_decide_elem_cons, !bool_decide_elem_nil, !orb_false_r.
  destruct (String.eqb_spec c.1 "source_file") as [Hsf|Hsf]; [done|]. simpl.
  unfold stamps. destruct (has_column "timestamp" df1) eqn:Hts.
  - by rewrite bool_decide_elem_cons, bool_decide_elem_nil, orb_false_r.
  - rewrite bool_decide_elem_nil. simpl.
    destruct (String.eqb_spec c.1 "timestamp") as [Hstamp'|_]; [|done].
    exfalso. apply bool_decide_eq_false_1 in Hts. apply Hts.
    unfold columns. apply list_elem_of_fmap. exists c. split; [done|].
    unfold df1, drop_columns. apply list_elem_of_In, filter_In. split; [done|].
    by rewrite bool_decide_elem_cons, bool_decide_elem_nil, (proj2 (String.eqb_neq _ _) Hsf).
Qed.

Lemma drop_bookkeeping_lower_case_witness :
  Loading.drop_bookkeeping
    [("unnamed:_0", [0%nat]); ("timestamp", [1%nat]); ("flow_duration", [2%nat]);
     ("label", [3%nat]); ("source_file", [4%nat])]
  = drop_columns ["source_file"; "timestamp"]
      [("unnamed:_0", [0%nat]); ("timestamp", [1%nat]); ("flow_duration", [2%nat]);
       ("label", [3%nat]); ("source_file", [4%nat])].
Proof.
  apply (drop_bookkeeping_lower_case
           [("unnamed:_0", [0%nat]); ("timestamp", [1%nat]); ("flow_duration", [2%nat]);
            ("label", [3%nat]); ("source_file", [4%nat])]).
  repeat constructor.
Defined.

(** ** Labels *)

Section LabelFacts.

Import PyStr.

Lemma isspace_lower_char c : isspace (lower_char c) = isspace c.
Proof. destruct c as [[] [] [] [] [] [] [] []]; reflexivity. Qed.

Lemma lstrip_lower s : lstrip (lower s) = lower (lstrip s).
Proof.
  unfold lower. induction s as [|c s IH]; cbn [map_chars lstrip]; [done|].
  rewrite isspace_lower_char. by destruct (isspace c).
Qed.

Lemma rstrip_lower s : rstrip (lower s) = lower (rstrip s).
Proof.
  unfold lower. induction s as [|c s IH]; cbn [map_chars rstrip]; [done|].
  rewrite IH, isspace_lower_char.
  destruct (rstrip s); cbn [map_chars]; [by destruct (isspace c)|done].
Qed.

Lemma upper_lower s : upper (lower s) = upper s.
Proof.
  unfold upper, lower. rewrite map_chars_compose. apply map_chars_ext.
  intros c. destruct c as [[] [] [] [] [] [] [] []]; reflexivity.
Qed.

Lemma clean_label_lower l : Labels.clean_label (lower l) = Labels.clean_label l.
Proof.
  unfold Labels.clean_label, strip. by rewrite lstrip_lower, rstrip_lower, upper_lower.
Qed.

Lemma clean_label_upper l : Labels.clean_label (upper l) = Labels.clean_label l.
Proof. unfold Labels.clean_label. by rewrite strip_upper, upper_idemp. Qed.

Lemma clean_label_strip l : Labels.clean_label (strip l) = Labels.clean_label l.
Proof. unfold Labels.clean_label. by rewrite strip_idemp. Qed.

End LabelFacts.

(** X6. On ASCII labels, standardization does not see the case of the
    letters nor the whitespace around a label: a label, its lower-case
    and upper-case forms and its trimmed form all standardize to the same
    label.  Outside ASCII Python's case mapping is not reversible in this
    way and the statement is not made. *)
Theorem standardize_ignores_case_and_padding (l : string) :
  isascii l = true →
  Labels.standardize (PyStr.lower l) = Labels.standardize l ∧
  Labels.standardize (PyStr.upper l) = Labels.standardize l ∧
  Labels.standardize (PyStr.strip l) = Labels.standardize l.
Proof.
  intros _. unfold Labels.standardize.
  by rewrite clean_label_lower, clean_label_upper, clean_label_strip.
Qed.

Lemma standardize_ignores_case_and_padding_witness :
  Labels.standardize (PyStr.lower " Ddos ") = Labels.standardize " Ddos " ∧
  Labels.standardize (PyStr.upper " Ddos ") = Labels.standardize " Ddos " ∧
  Labels.standardize (PyStr.strip " Ddos ") = Labels.standardize " Ddos ".
Proof.
  apply (standardize_ignores_case_and_padding " Ddos "). reflexivity.
Defined.

Lemma label_mapping_values_final :
  map_Forall (λ _ v, ∀ w, Labels.label_mapping !! v = Some w → w = v)
    Labels.label_mapping.
Proof.
  intros k v Hk w Hw.
  assert (H : map_Forall (λ _ v, Labels.label_mapping !! v = None ∨
                                  Labels.label_mapping !! v = Some v)
                Labels.label_mapping).
  { eapply (bool_decide_unpack _). by vm_compute. }
  destruct (H k v Hk) as [Hn|Hs]; congruence.
Qed.

(** X7. A standardized label is never an alias that the table would still
    rewrite: if it is a key of [label_mapping], it is mapped to itself.  So
    none of NORMAL, NETBIOS, NETBIOS_NAME_SERVICE, PORTMAP, UDPLAG, DDOS,
    ATTACK and FLOOD is left in a standardized label column. *)
Theorem standardize_leaves_no_alias (l v : string) :
  Labels.label_mapping !! Labels.standardize l = Some v → v = Labels.standardize l.
Proof.
  unfold Labels.standardize, Labels.map_label, get_or_self.
  destruct (Labels.label_mapping !! Labels.clean_label l) as [w|] eqn:E; simpl.
  - intros Hw. exact (label_mapping_values_final _ _ E _ Hw).
  - intros Hv. congruence.
Qed.

Lemma standardize_leaves_no_alias_witness :
  "UDP" = Labels.standardize " ddos ".
Proof.
  apply (standardize_leaves_no_alias " ddos " "UDP"). reflexivity.
Defined.

(** ** Feature engineer *)

Section FrameFacts.

Context {V : Type}.
Implicit Types df : DataFrame V.

Lemma get_set_column_eq name (cells : list V) df :
  get_column name (set_column name cells df) = Some cells.
Proof.
  induction df as [|c df IH]; simpl.
  - by rewrite String.eqb_refl.
  - destruct (String.eqb_spec c.1 name) as [E|E]; simpl.
    + by rewrite String.eqb_refl.
    + by rewrite (proj2 (String.eqb_neq _ _) E).
Qed.

Lemma get_set_column_ne name other (cells : list V) df :
  other ≠ name → get_column other (set_column name cells df) = get_column other df.
Proof.
  intros Hne. induction df as [|c df IH]; simpl.
  - by rewrite (proj2 (String.eqb_neq name other)).
  - destruct (String.eqb_spec c.1 name) as [E|E]; simpl.
    + rewrite E. by rewrite (proj2 (String.eqb_neq name other)).
    + by rewrite IH.
Qed.

Lemma columns_set_column_prefix name (cells : list V) df :
  columns df `prefix_of` columns (set_column name cells df).
Proof.
  unfold columns. induction df as [|c df IH]; simpl.
  - apply prefix_nil.
  - destruct (String.eqb_spec c.1 name) as [E|E]; simpl.
    + by rewrite E.
    + by apply prefix_cons.
Qed.

Lemma columns_set_column_elem name (cells : list V) df c :
  c ∈ columns (set_column name cells df) → c ∈ columns df ∨ c = name.
Proof.
  unfold columns. induction df as [|x df IH]; simpl.
  - intros H. apply list_elem_of_singleton in H. by right.
  - destruct (String.eqb_spec x.1 name) as [E|E]; simpl.
    + rewrite !elem_of_cons. rewrite E. tauto.
    + rewrite !elem_of_cons. intros [->|H]; [by left; left|].
      destruct (IH H); [left; by right|by right].
Qed.


Lemma get_has_column name df cells :
  get_column name df = Some cells → has_column name df = true.
Proof.
  unfold has_column, columns. intros H. apply bool_decide_eq_true_2.
  induction df as [|c df IH]; simpl in *; [done|].
  destruct (String.eqb_spec c.1 name) as [E|E].
  - apply elem_of_cons. by left.
  - apply elem_of_cons. right. by apply IH.
Qed.

Lemma extends_by_refl D df : extends_by D df df.
Proof. split; [done|]. split; [done|]. intros c Hc. by left. Qed.

Lemma extends_by_set name (cells : list V) D df :
  name ∈ D → extends_by D df (set_column name cells df).
Proof.
  intros Hin. split; [|split].
  - intros other Ho. apply get_set_column_ne. by intros ->.
  - apply columns_set_column_prefix.
  - intros c Hc. apply columns_set_column_elem in Hc as [Hc | ->]; [by left|by right].
Qed.

Lemma extends_by_trans D df1 df2 df3 :
  extends_by D df1 df2 → extends_by D df2 df3 → extends_by D df1 df3.
Proof.
  intros (Hg1 & Hp1 & He1) (Hg2 & Hp2 & He2). split; [|split].
  - intros name Hn. by rewrite Hg2, Hg1.
  - by etrans.
  - intros c Hc. destruct (He2 c Hc) as [H|H]; [by apply He1|by right].
Qed.

End FrameFacts.

Ltac closed_name_goal := apply (bool_decide_unpack _); by vm_compute.

Ltac extends_by_steps :=
  repeat first
    [ apply extends_by_refl
    | eapply extends_by_trans; [|apply extends_by_set; closed_name_goal] ].

Lemma ratio_features_extends df :
  extends_by ["fwd_bwd_ratio"; "bwd_fwd_ratio"] df (Features.ratio_features df).
Proof.
  unfold Features.ratio_features. destruct (_ && _); extends_by_steps.
Qed.

Lemma packet_size_features_extends df :
  extends_by ["avg_fwd_pkt_size"; "avg_bwd_pkt_size"] df (Features.packet_size_features df).
Proof.
  unfold Features.packet_size_features.
  destruct (_ && _); cbv zeta; destruct (_ && _); extends_by_steps.
Qed.

Lemma flow_efficiency_feature_extends df :
  extends_by ["flow_efficiency"] df (Features.flow_efficiency_feature df).
Proof.
  unfold Features.flow_efficiency_feature. destruct (_ && _); extends_by_steps.
Qed.

Lemma flag_features_extends df :
  extends_by ["total_flags"; "flag_diversity"] df (Features.flag_features df).
Proof.
  unfold Features.flag_features. cbv zeta. destruct (Nat.leb _ _); extends_by_steps.
Qed.

Lemma protocol_features_extends df :
  extends_by ["is_tcp"; "is_udp"; "is_icmp"] df (Features.protocol_features df).
Proof.
  unfold Features.protocol_features. destruct (has_column _ _); extends_by_steps.
Qed.

Lemma port_features_extends df :
  extends_by ["src_is_wellknown"; "dst_is_wellknown"; "src_is_common"; "dst_is_common"]
    df (Features.port_features df).
Proof.
  unfold Features.port_features. destruct (_ && _); extends_by_steps.
Qed.

Lemma extends_by_weaken {V} (D D' : list string) (df df' : DataFrame V) :
  D ⊆ D' → extends_by D df df' → extends_by D' df df'.
Proof.
  intros Hsub (Hg & Hp & He). split; [|split]; [|done|].
  - intros name Hn. apply Hg. intros Hin. by apply Hn, Hsub.
  - intros c Hc. destruct (He c Hc) as [H|H]; [by left|right; by apply Hsub].
Qed.

Ltac closed_subset_goal :=
  let x := fresh in let H := fresh in
  intros x H; revert x H; apply Forall_forall; repeat constructor; closed_name_goal.

(** X8. [create_engineered_features] only adds: no column is removed or
    moved, a column whose name is none of the fourteen derived names keeps
    its cells, and every new column bears one of those names. *)
Theorem create_engineered_features_additive (df : DataFrame Np.float) :
  extends_by derived_names df (Features.create_engineered_features df).
Proof.
  unfold Features.create_engineered_features.
  eapply extends_by_trans;
    [|eapply extends_by_weaken; [|apply port_features_extends]; closed_subset_goal].
  eapply extends_by_trans;
    [|eapply extends_by_weaken; [|apply protocol_features_extends]; closed_subset_goal].
  eapply extends_by_trans;
    [|eapply extends_by_weaken; [|apply flag_features_extends]; closed_subset_goal].
  eapply extends_by_trans;
    [|eapply extends_by_weaken; [|apply flow_efficiency_feature_extends]; closed_subset_goal].
  eapply extends_by_trans;
    [|eapply extends_by_weaken; [|apply packet_size_features_extends]; closed_subset_goal].
  eapply extends_by_weaken; [|apply ratio_features_extends]. closed_subset_goal.
Qed.


(** The steps before and after a given one leave its inputs and outputs
    alone. *)
Lemma before_flags name (df : DataFrame Np.float) :
  name ∉ ["fwd_bwd_ratio"; "bwd_fwd_ratio"; "avg_fwd_pkt_size"; "avg_bwd_pkt_size";
          "flow_efficiency"] →
  get_column name
    (Features.flow_efficiency_feature
       (Features.packet_size_features (Features.ratio_features df)))
  = get_column name df.
Proof.
  intros Hn.
  destruct (flow_efficiency_feature_extends
              (Features.packet_size_features (Features.ratio_features df))) as [-> _].
  2:{ intros H. apply Hn. revert H. rewrite !elem_of_cons. tauto. }
  destruct (packet_size_features_extends (Features.ratio_features df)) as [-> _].
  2:{ intros H. apply Hn. revert H. rewrite !elem_of_cons. tauto. }
  destruct (ratio_features_extends df) as [-> _]; [done|].
  intros H. apply Hn. revert H. rewrite !elem_of_cons. tauto.
Qed.









Lemma eq_num_exclusive (j k : Q) (x : Np.float) :
  ¬ (j == k)%Q → Features.eq_num j x = true → Features.eq_num k x = false.
Proof.
  intros Hjk. destruct x as [q| | |]; simpl; try done.
  intros Hj. apply Qeq_bool_iff in Hj.
  destruct (Qeq_bool q k) eqn:Hk; [|done].
  apply Qeq_bool_iff in Hk. exfalso. apply Hjk. by rewrite <- Hj, <- Hk.
Qed.

Lemma as_int_indicator b : indicator (Features.as_int b).
Proof. destruct b; [by right|by left]. Qed.

Lemma as_int_one b : Features.as_int b = Np.Fin 1 → b = true.
Proof. by destruct b. Qed.

(** X10. With a [protocol] column present, the three protocol indicators
    hold 0 or 1 in every row and at most one of them is 1: a row is TCP,
    UDP, ICMP or none of them, never two at once. *)
Theorem protocol_indicators_exclusive (df : DataFrame Np.float) (protocol : list Np.float) :
  get_column "protocol" df = Some protocol →
  ∃ is_tcp is_udp is_icmp,
    get_column "is_tcp" (Features.create_engineered_features df) = Some is_tcp ∧
    get_column "is_udp" (Features.create_engineered_features df) = Some is_udp ∧
    get_column "is_icmp" (Features.create_engineered_features df) = Some is_icmp ∧
    length is_tcp = length protocol ∧
    length is_udp = length protocol ∧
    length is_icmp = length protocol ∧
    ∀ i t u c, is_tcp !! i = Some t → is_udp !! i = Some u → is_icmp !! i = Some c →
      indicator t ∧ indicator u ∧ indicator c ∧
      ¬ (t = Np.Fin 1 ∧ u = Np.Fin 1) ∧
      ¬ (t = Np.Fin 1 ∧ c = Np.Fin 1) ∧
      ¬ (u = Np.Fin 1 ∧ c = Np.Fin 1).
Proof.
  intros Hp. unfold Features.create_engineered_features.
  set (d := Features.flag_features _).
  assert (Hd : get_column "protocol" d = Some protocol).
  { unfold d. destruct (flag_features_extends
      (Features.flow_efficiency_feature
         (Features.packet_size_features (Features.ratio_features df)))) as [-> _];
      [|closed_name_goal].
    rewrite before_flags by closed_name_goal. done. }
  clearbody d.
  exists ((λ x, Features.as_int (Features.eq_num 6 x)) <$> protocol),
         ((λ x, Features.as_int (Features.eq_num 17 x)) <$> protocol),
         ((λ x, Features.as_int (Features.eq_num 1 x)) <$> protocol).
  destruct (port_features_extends (Features.protocol_features d)) as [Hport _].
  rewrite !Hport by closed_name_goal. clear Hport.
  unfold Features.protocol_features. rewrite (get_has_column _ _ _ Hd). cbv zeta.
  unfold Features.col.
  rewrite (get_set_column_ne "is_tcp" "protocol") by done.
  rewrite (get_set_column_ne "is_udp" "protocol") by done.
  rewrite (get_set_column_ne "is_tcp" "protocol") by done.
  rewrite Hd. cbn [default].
  rewrite get_set_column_eq.
  rewrite (get_set_column_ne "is_icmp" "is_udp") by done.
  rewrite get_set_column_eq.
  rewrite (get_set_column_ne "is_icmp" "is_tcp") by done.
  rewrite (get_set_column_ne "is_udp" "is_tcp") by done.
  rewrite get_set_column_eq.
  rewrite !length_fmap.
  split; [done|]. split; [done|]. split; [done|].
  split; [done|]. split; [done|]. split; [done|].
  intros i t u c. rewrite !list_lookup_fmap.
  destruct (protocol !! i) as [x|]; [|done]. cbn [fmap option_fmap option_map].
  intros [= <-] [= <-] [= <-].
  split; [apply as_int_indicator|]. split; [apply as_int_indicator|].
  split; [apply as_int_indicator|].
  split; [|split].
  - intros [Ht Hu]. apply as_int_one in Ht, Hu.
    rewrite (eq_num_exclusive 6 17 x) in Hu; [done| |done]. by intros H; vm_compute in H.
  - intros [Ht Hc]. apply as_int_one in Ht, Hc.
    rewrite (eq_num_exclusive 6 1 x) in Hc; [done| |done]. by intros H; vm_compute in H.
  - intros [Hu Hc]. apply as_int_one in Hu, Hc.
    rewrite (eq_num_exclusive 17 1 x) in Hc; [done| |done]. by intros H; vm_compute in H.
Qed.

Lemma protocol_indicators_exclusive_witness :
  ∃ is_tcp is_udp is_icmp,
    get_column "is_tcp"
      (Features.create_engineered_features [("protocol", integers [6; 17; 1; 47]%Z)])
      = Some is_tcp ∧
    get_column "is_udp"
      (Features.create_engineered_features [("protocol", integers [6; 17; 1; 47]%Z)])
      = Some is_udp ∧
    get_column "is_icmp"
      (Features.create_engineered_features [("protocol", integers [6; 17; 1; 47]%Z)])
      = Some is_icmp ∧
    length is_tcp = length (integers [6; 17; 1; 47]%Z) ∧
    length is_udp = length (integers [6; 17; 1; 47]%Z) ∧
    length is_icmp = length (integers [6; 17; 1; 47]%Z) ∧
    ∀ i t u c, is_tcp !! i = Some t → is_udp !! i = Some u → is_icmp !! i = Some c →
      indicator t ∧ indicator u ∧ indicator c ∧
      ¬ (t = Np.Fin 1 ∧ u = Np.Fin 1) ∧
      ¬ (t = Np.Fin 1 ∧ c = Np.Fin 1) ∧
      ¬ (u = Np.Fin 1 ∧ c = Np.Fin 1).
Proof.
  apply (protocol_indicators_exclusive
           [("protocol", integers [6; 17; 1; 47]%Z)] (integers [6; 17; 1; 47]%Z)).
  reflexivity.
Defined.

Lemma common_port_is_wellknown (x : Np.float) :
  Features.isin Features.common_ports x = true → Np.leb x (Np.Fin 1024) = true.
Proof.
  destruct x as [q| | |]; simpl; try done.
  rewrite !orb_true_iff, !Qeq_bool_iff, Qle_bool_iff.
  intros H. repeat destruct H as [H|H]; try done; rewrite H; by vm_compute.
Qed.

(** X11. With both port columns present, a row whose source (or
    destination) port is flagged as a common service port is also flagged
    as a well-known port: every port of the common list is at most 1024. *)
Theorem common_port_implies_wellknown (df : DataFrame Np.float)
    (src_port dst_port : list Np.float) :
  get_column "src_port" df = Some src_port →
  get_column "dst_port" df = Some dst_port →
  ∃ src_wk dst_wk src_common dst_common,
    get_column "src_is_wellknown" (Features.create_engineered_features df) = Some src_wk ∧
    get_column "dst_is_wellknown" (Features.create_engineered_features df) = Some dst_wk ∧
    get_column "src_is_common" (Features.create_engineered_features df) = Some src_common ∧
    get_column "dst_is_common" (Features.create_engineered_features df) = Some dst_common ∧
    length src_common = length src_port ∧
    length dst_common = length dst_port ∧
    (∀ i, src_common !! i = Some (Np.Fin 1) → src_wk !! i = Some (Np.Fin 1)) ∧
    (∀ i, dst_common !! i = Some (Np.Fin 1) → dst_wk !! i = Some (Np.Fin 1)).
Proof.
  intros Hs Hd. unfold Features.create_engineered_features.
  set (e := Features.protocol_features _).
  assert (He : ∀ name, name ∈ ["src_port"; "dst_port"] →
                 get_column name e = get_column name df).
  { intros name Hname. unfold e.
    destruct (protocol_features_extends (Features.flag_features
      (Features.flow_efficiency_feature
         (Features.packet_size_features (Features.ratio_features df))))) as [-> _].
    2:{ revert Hname. rewrite !elem_of_cons.
        intros [->|[->|H]]; [closed_name_goal|closed_name_goal|by apply not_elem_of_nil in H]. }
    destruct (flag_features_extends
      (Features.flow_efficiency_feature
         (Features.packet_size_features (Features.ratio_features df)))) as [-> _].
    2:{ revert Hname. rewrite !elem_of_cons.
        intros [->|[->|H]]; [closed_name_goal|closed_name_goal|by apply not_elem_of_nil in H]. }
    apply before_flags. revert Hname. rewrite !elem_of_cons.
    intros [->|[->|H]]; [closed_name_goal|closed_name_goal|by apply not_elem_of_nil in H]. }
  assert (Hse : get_column "src_port" e = Some src_port).
  { rewrite He; [done|]. apply elem_of_cons. by left. }
  assert (Hde : get_column "dst_port" e = Some dst_port).
  { rewrite He; [done|]. apply elem_of_cons. right. apply elem_of_cons. by left. }
  clearbody e. clear He.
  exists ((λ x, Features.as_int (Np.leb x (Np.Fin 1024))) <$> src_port),
         ((λ x, Features.as_int (Np.leb x (Np.Fin 1024))) <$> dst_port),
         ((λ x, Features.as_int (Features.isin Features.common_ports x)) <$> src_port),
         ((λ x, Features.as_int (Features.isin Features.common_ports x)) <$> dst_port).
  unfold Features.port_features.
  rewrite (get_has_column _ _ _ Hse), (get_has_column _ _ _ Hde). cbn [andb]. cbv zeta.
  unfold Features.col.
  rewrite (get_set_column_ne "src_is_wellknown" "dst_port") by done.
  rewrite (get_set_column_ne "dst_is_wellknown" "src_port") by done.
  rewrite (get_set_column_ne "src_is_wellknown" "src_port") by done.
  rewrite (get_set_column_ne "src_is_common" "dst_port") by done.
  rewrite (get_set_column_ne "dst_is_wellknown" "dst_port") by done.
  rewrite (get_set_column_ne "src_is_wellknown" "dst_port") by done.
  rewrite Hse, Hde. cbn [default].
  rewrite get_set_column_eq.
  rewrite (get_set_column_ne "dst_is_common" "src_is_common") by done.
  rewrite get_set_column_eq.
  rewrite (get_set_column_ne "dst_is_common" "dst_is_wellknown") by done.
  rewrite (get_set_column_ne "src_is_common" "dst_is_wellknown") by done.
  rewrite get_set_column_eq.
  rewrite (get_set_column_ne "dst_is_common" "src_is_wellknown") by done.
  rewrite (get_set_column_ne "src_is_common" "src_is_wellknown") by done.
  rewrite (get_set_column_ne "dst_is_wellknown" "src_is_wellknown") by done.
  rewrite get_set_column_eq.
  rewrite !length_fmap.
  split; [done|]. split; [done|]. split; [done|].
  split; [done|]. split; [done|]. split; [done|].
  split; intros i; rewrite !list_lookup_fmap.
  - destruct (src_port !! i) as [x|]; [|done]. cbn [fmap option_fmap option_map].
    intros [= H]. apply as_int_one, common_port_is_wellknown in H. by rewrite H.
  - destruct (dst_port !! i) as [x|]; [|done]. cbn [fmap option_fmap option_map].
    intros [= H]. apply as_int_one, common_port_is_wellknown in H. by rewrite H.
Qed.

Lemma common_port_implies_wellknown_witness :
  ∃ src_wk dst_wk src_common dst_common,
    get_column "src_is_wellknown"
      (Features.create_engineered_features
         [("src_port", integers [443; 50000]%Z); ("dst_port", integers [51234; 53]%Z)])
      = Some src_wk ∧
    get_column "dst_is_wellknown"
      (Features.create_engineered_features
         [("src_port", integers [443; 50000]%Z); ("dst_port", integers [51234; 53]%Z)])
      = Some dst_wk ∧
    get_column "src_is_common"
      (Features.create_engineered_features
         [("src_port", integers [443; 50000]%Z); ("dst_port", integers [51234; 53]%Z)])
      = Some src_common ∧
    get_column "dst_is_common"
      (Features.create_engineered_features
         [("src_port", integers [443; 50000]%Z); ("dst_port", integers [51234; 53]%Z)])
      = Some dst_common ∧
    length src_common = length (integers [443; 50000]%Z) ∧
    length dst_common = length (integers [51234; 53]%Z) ∧
    (∀ i, src_common !! i = Some (Np.Fin 1) → src_wk !! i = Some (Np.Fin 1)) ∧
    (∀ i, dst_common !! i = Some (Np.Fin 1) → dst_wk !! i = Some (Np.Fin 1)).
Proof.
  apply (common_port_implies_wellknown
           [("src_port", integers [443; 50000]%Z); ("dst_port", integers [51234; 53]%Z)]
           (integers [443; 50000]%Z) (integers [51234; 53]%Z)); reflexivity.
Defined.






(** ** Balanced sampling of a large file *)

Lemma insert_key_length k keys : length (Loading.insert_key k keys) = S (length keys).
Proof.
  induction keys as [|k' keys IH]; simpl; [done|].
  destruct (String.leb k k'); simpl; [done|]. by rewrite IH.
Qed.

Lemma group_keys_length y : length (Loading.group_keys y) = length (remove_dups y).
Proof.
  unfold Loading.group_keys. induction (remove_dups y) as [|k keys IH]; simpl; [done|].
  by rewrite insert_key_length, IH.
Qed.

Lemma sum_list_bounded (ns : list nat) (b : nat) :
  Forall (λ n, n ≤ b)%nat ns → (sum_list ns ≤ length ns * b)%nat.
Proof. induction 1 as [|n ns Hn _ IH]; simpl; lia. Qed.

(** X13. A file with more rows than [max_samples_per_file] is cut down to
    at most that many rows, provided [sample(n)] returns [n] rows of a
    group that has them; and when the file has more classes than the cap
    allows rows, the share of every class is zero and no row of the file
    is kept. *)
Theorem balanced_sampling_within_cap (sample : nat → list nat → nat → list nat)
    (max_samples_per_file : nat) (y : list string) :
  (∀ seed x n, (n ≤ length x)%nat → length (sample seed x n) = n) →
  (max_samples_per_file < length y)%nat →
  (length (Loading.balanced_sampling sample max_samples_per_file y)
     ≤ max_samples_per_file)%nat ∧
  ((max_samples_per_file < length (remove_dups y))%nat →
   Loading.balanced_sampling sample max_samples_per_file y = []).
Proof.
  intros Hsample Hbig. unfold Loading.balanced_sampling.
  destruct (Nat.ltb_spec max_samples_per_file (length y)) as [_|]; [|lia].
  cbv zeta.
  set (spc := (max_samples_per_file / length (remove_dups y))%nat).
  set (groups := (λ key, sample 42%nat (Loading.group_rows y key)
                           (Nat.min (length (Loading.group_rows y key)) spc))
                 <$> Loading.group_keys y).
  assert (Hall : Forall (λ n, n ≤ spc)%nat (length <$> groups)).
  { unfold groups. rewrite <- list_fmap_compose. apply Forall_fmap, Forall_forall.
    intros key _. simpl. rewrite Hsample; lia. }
  assert (Hlen : (length (mjoin groups) ≤ length (remove_dups y) * spc)%nat).
  { rewrite length_join. etrans; [by apply sum_list_bounded|].
    unfold groups. by rewrite !length_fmap, group_keys_length. }
  split.
  - etrans; [exact Hlen|]. unfold spc. apply Nat.Div0.mul_div_le.
  - intros Hmany. apply nil_length_inv.
    assert (spc = 0%nat) as Hz by (unfold spc; by apply Nat.div_small).
    rewrite Hz in Hlen. lia.
Qed.

Lemma balanced_sampling_within_cap_witness :
  (length (Loading.balanced_sampling (λ _ x n, take n x) 4
             ["SYN"; "UDP"; "SYN"; "BENIGN"; "SYN"; "UDP"; "SYN"]) ≤ 4)%nat ∧
  ((4 < length (remove_dups ["SYN"; "UDP"; "SYN"; "BENIGN"; "SYN"; "UDP"; "SYN"]))%nat →
   Loading.balanced_sampling (λ _ x n, take n x) 4
     ["SYN"; "UDP"; "SYN"; "BENIGN"; "SYN"; "UDP"; "SYN"] = []).
Proof.
  apply (balanced_sampling_within_cap (λ _ x n, take n x) 4
           ["SYN"; "UDP"; "SYN"; "BENIGN"; "SYN"; "UDP"; "SYN"]).
  - intros _ x n Hn. rewrite length_take. lia.
  - simpl. lia.
Defined.

(** ** The split covers the rows *)

Lemma omap_lookup_seq {A} (l : list A) : omap (λ i, l !! i) (seq 0 (length l)) = l.
Proof.
  induction l as [|x l IH] using rev_ind; [done|].
  rewrite length_app. simpl. rewrite Nat.add_1_r, seq_S, omap_app. simpl.
  rewrite lookup_app_r, Nat.sub_diag by done. simpl.
  f_equal. rewrite <- IH at 2. apply list_omap_ext.
  apply Forall2_same_length_lookup_2; [done|].
  intros i a b Ha Hb. simplify_eq. apply lookup_seq in Ha as [-> Hi].
  simpl. by rewrite lookup_app_l.
Qed.

Lemma length_omap_lookup {A} (l : list A) (idx : list nat) :
  (length (omap (λ i, l !! i) idx) ≤ length idx)%nat.
Proof.
  induction idx as [|i idx IH]; [done|].
  cbn [omap list_omap]. fold (omap (λ i, l !! i) idx).
  destruct (l !! i); cbn [length]; lia.
Qed.

Lemma rows_of_partition {A} (l : list A) (train test : list nat) :
  train ++ test ≡ₚ seq 0 (length l) →
  omap (λ i, l !! i) train ++ omap (λ i, l !! i) test ≡ₚ l.
Proof.
  intros Hp. rewrite <- omap_app, Hp. by rewrite omap_lookup_seq.
Qed.

Lemma take_rows_partition {V} (X : DataFrame V) (train test : list nat) (n j : nat)
    (name : string) (cells : list V) :
  train ++ test ≡ₚ seq 0 n →
  X !! j = Some (name, cells) → length cells = n →
  ∃ tr te,
    take_rows train X !! j = Some (name, tr) ∧
    take_rows test X !! j = Some (name, te) ∧
    tr ++ te ≡ₚ cells.
Proof.
  intros Hp Hj Hlen. unfold take_rows. rewrite !list_lookup_fmap, Hj. simpl.
  eexists _, _. split; [done|]. split; [done|].
  apply rows_of_partition. by rewrite Hlen.
Qed.

(** X14. Given a random generator whose permutation of [n] is a
    permutation of the rows and a stratified draw that deals all rows into
    its two parts, the split of a dataset of at least two rows succeeds,
    on either path, and loses or repeats no row: the labels of the two
    parts together are the labels of the dataset, every column of the two
    frames together is the column of the dataset, and the test part holds
    a fifth of the rows, rounded up. *)
Theorem split_covers_rows {V} permutation stratified_draw
    (X : DataFrame V) (y : list string) :
  (2 ≤ length y)%nat →
  permutation 42%nat (length y) ≡ₚ seq 0 (length y) →
  (∀ n_train n_test, (n_train + n_test)%nat = length y →
     (stratified_draw 42%nat y n_train n_test).1
       ++ (stratified_draw 42%nat y n_train n_test).2 ≡ₚ seq 0 (length y) ∧
     length (stratified_draw 42%nat y n_train n_test).2 = n_test) →
  ∃ X_train X_test y_train y_test,
    Split.split_with_fallback permutation stratified_draw X y
      = inr (X_train, X_test, y_train, y_test) ∧
    y_train ++ y_test ≡ₚ y ∧
    length y_test = ((length y + 4) / 5)%nat ∧
    (length y_train + length y_test)%nat = length y ∧
    ∀ j name cells, X !! j = Some (name, cells) → length cells = length y →
      ∃ tr te, X_train !! j = Some (name, tr) ∧ X_test !! j = Some (name, te) ∧
               tr ++ te ≡ₚ cells.
Proof.
  intros Hn Hperm Hdraw.
  destruct (validate_shuffle_split_ok _ Hn) as [Hval Htrain].
  set (n_test := ((length y + 4) / 5)%nat) in *.
  set (n_train := (length y - n_test)%nat) in *.
  assert (Hsum : (n_train + n_test)%nat = length y).
  { unfold n_train. assert (n_test < length y)%nat; [|lia].
    unfold n_test. apply Nat.Div0.div_lt_upper_bound. lia. }
  assert (Hparts : ∀ train test,
    train ++ test ≡ₚ seq 0 (length y) → length test = n_test →
    Split.take_labels train y ++ Split.take_labels test y ≡ₚ y ∧
    length (Split.take_labels test y) = n_test ∧
    (length (Split.take_labels train y) + length (Split.take_labels test y))%nat
      = length y ∧
    ∀ j name cells, X !! j = Some (name, cells) → length cells = length y →
      ∃ tr te, take_rows train X !! j = Some (name, tr) ∧
               take_rows test X !! j = Some (name, te) ∧ tr ++ te ≡ₚ cells).
  { intros train test Hp Htest.
    pose proof (rows_of_partition y train test Hp) as Hy.
    assert (Hlen : (length (Split.take_labels train y)
                    + length (Split.take_labels test y))%nat = length y).
    { rewrite <- length_app. by apply Permutation_length. }
    assert (Htl : length (Split.take_labels test y) = n_test).
    { assert (length train + length test = length y)%nat as Hidx.
      { rewrite <- length_app, (Permutation_length Hp). apply length_seq. }
      assert (length (Split.take_labels train y) ≤ length train)%nat
        by apply length_omap_lookup.
      assert (length (Split.take_labels test y) ≤ length test)%nat
        by apply length_omap_lookup.
      lia. }
    split; [done|]. split; [done|]. split; [done|].
    intros j name cells Hj Hc. by eapply take_rows_partition. }
  assert (Hshuffle :
    Split.train_test_split permutation stratified_draw X y 42 None
    = inr (take_rows (take n_train (drop n_test (permutation 42%nat (length y)))) X,
           take_rows (take n_test (permutation 42%nat (length y))) X,
           Split.take_labels (take n_train (drop n_test (permutation 42%nat (length y)))) y,
           Split.take_labels (take n_test (permutation 42%nat (length y))) y)).
  { unfold Split.train_test_split, Split.shuffle_split. by rewrite Hval. }
  assert (Hshuffle_parts :
    take n_train (drop n_test (permutation 42%nat (length y)))
      ++ take n_test (permutation 42%nat (length y)) ≡ₚ seq 0 (length y) ∧
    length (take n_test (permutation 42%nat (length y))) = n_test).
  { assert (Hlp : length (permutation 42%nat (length y)) = length y).
    { rewrite (Permutation_length Hperm). apply length_seq. }
    split; [|rewrite length_take; lia].
    rewrite take_ge by (rewrite length_drop; lia).
    rewrite (Permutation_app_comm _ _), take_drop. done. }
  unfold Split.split_with_fallback.
  destruct (Split.train_test_split permutation stratified_draw X y 42 (Some y))
    as [e|[[[Xtr Xte] ytr] yte]] eqn:Hstrat.
  - assert (e = ValueError) as ->.
    { unfold Split.train_test_split in Hstrat. rewrite Hval in Hstrat.
      unfold Split.stratified_shuffle_split in Hstrat.
      repeat (destruct (Nat.ltb _ _); [by injection Hstrat|]).
      by destruct (stratified_draw _ _ _ _). }
    rewrite Hshuffle. eexists _, _, _, _. split; [reflexivity|].
    destruct Hshuffle_parts as [Hp Hl]. by apply Hparts.
  - unfold Split.train_test_split in Hstrat. rewrite Hval in Hstrat.
    unfold Split.stratified_shuffle_split in Hstrat.
    repeat (destruct (Nat.ltb _ _); [done|]).
    destruct (Hdraw n_train n_test Hsum) as [Hp Hl].
    destruct (stratified_draw 42%nat y n_train n_test) as [train test].
    injection Hstrat as <- <- <- <-.
    eexists _, _, _, _. split; [reflexivity|]. by apply Hparts.
Qed.

Lemma split_covers_rows_witness :
  ∃ X_train X_test y_train y_test,
    Split.split_with_fallback (λ _ n, rev (seq 0 n)) (λ _ _ a b, (seq b a, seq 0 b))
      scenario_c_frame scenario_c_labels
      = inr (X_train, X_test, y_train, y_test) ∧
    y_train ++ y_test ≡ₚ scenario_c_labels ∧
    length y_test = ((length scenario_c_labels + 4) / 5)%nat ∧
    (length y_train + length y_test)%nat = length scenario_c_labels ∧
    ∀ j name cells, scenario_c_frame !! j = Some (name, cells) →
      length cells = length scenario_c_labels →
      ∃ tr te, X_train !! j = Some (name, tr) ∧ X_test !! j = Some (name, te) ∧
               tr ++ te ≡ₚ cells.
Proof.
  apply (split_covers_rows (λ _ n, rev (seq 0 n)) (λ _ _ a b, (seq b a, seq 0 b))
           scenario_c_frame scenario_c_labels).
  - simpl. lia.
  - symmetry. apply Permutation_rev.
  - intros a b Hab. cbn [fst snd]. split; [|apply length_seq].
    rewrite Permutation_app_comm, <- Hab, (Nat.add_comm a b).
    by rewrite seq_app.
Defined.

Lemma foldr_min_le (d x : nat) (ns : list nat) :
  x ∈ ns → (foldr Nat.min d ns ≤ x)%nat.
Proof.
  induction ns as [|n ns IH]; [by intros H; apply not_elem_of_nil in H|].
  intros H. apply elem_of_cons in H as [->|H]; simpl; [lia|].
  specialize (IH H). lia.
Qed.

(** X15. On a dataset of at least two rows in which some label occurs
    exactly once, the stratified split is refused and the split that is
    returned is the unstratified one with seed 42. *)
Theorem singleton_class_splits_unstratified {V} permutation stratified_draw
    (X : DataFrame V) (y : list string) (c : string) :
  (2 ≤ length y)%nat →
  length (List.filter (String.eqb c) y) = 1%nat →
  Split.train_test_split permutation stratified_draw X y 42 (Some y) = inl ValueError ∧
  Split.split_with_fallback permutation stratified_draw X y
    = Split.train_test_split permutation stratified_draw X y 42 None.
Proof.
  intros Hn Hone.
  assert (Hstrat :
    Split.train_test_split permutation stratified_draw X y 42 (Some y) = inl ValueError).
  { unfold Split.train_test_split.
    destruct (validate_shuffle_split_ok _ Hn) as [-> _].
    unfold Split.stratified_shuffle_split.
    assert (Hin : c ∈ y).
    { destruct (List.filter (String.eqb c) y) as [|x l] eqn:E; [done|].
      assert (In x (List.filter (String.eqb c) y)) as Hx by (rewrite E; by left).
      apply filter_In in Hx as [Hx Heq]. apply String.eqb_eq in Heq as ->.
      by apply list_elem_of_In. }
    assert (Hcount : 1%nat ∈ Split.class_counts y).
    { unfold Split.class_counts. apply list_elem_of_fmap. exists c.
      split; [done|]. by apply elem_of_remove_dups. }
    pose proof (foldr_min_le (hd 0%nat (Split.class_counts y)) 1 _ Hcount) as Hmin.
    destruct (Nat.ltb_spec (foldr Nat.min (hd 0%nat (Split.class_counts y))
                              (Split.class_counts y)) 2); [done|lia]. }
  split; [done|]. unfold Split.split_with_fallback. by rewrite Hstrat.
Qed.

Lemma singleton_class_splits_unstratified_witness :
  Split.train_test_split (λ _ n, seq 0 n) (λ _ _ _ _, ([], []))
    scenario_c_frame scenario_c_labels 42 (Some scenario_c_labels) = inl ValueError ∧
  Split.split_with_fallback (λ _ n, seq 0 n) (λ _ _ _ _, ([], []))
    scenario_c_frame scenario_c_labels
    = Split.train_test_split (λ _ n, seq 0 n) (λ _ _ _ _, ([], []))
        scenario_c_frame scenario_c_labels 42 None.
Proof.
  apply (singleton_class_splits_unstratified (λ _ n, seq 0 n) (λ _ _ _ _, ([], []))
           scenario_c_frame scenario_c_labels "UDP").
  - simpl. lia.
  - reflexivity.
Defined.

(** ** More on the dataset cleaner *)

Lemma columns_clip_outliers (X : DataFrame Np.float) :
  columns (Cleaner.clip_outliers X) = columns X.
Proof.
  unfold columns, Cleaner.clip_outliers. rewrite <- list_fmap_compose.
  by apply list_fmap_ext.
Qed.

Lemma columns_impute (X : DataFrame Np.float) :
  columns (Cleaner.impute X) = columns X.
Proof.
  rewrite impute_columns. unfold columns. rewrite <- list_fmap_compose.
  by apply list_fmap_ext.
Qed.

Lemma list_filter_sublist {A} (f : A → bool) (l : list A) :
  List.filter f l `sublist_of` l.
Proof.
  induction l as [|x l IH]; simpl; [constructor|].
  destruct (f x); by constructor.
Qed.

Lemma drop_constant_sublist (X : DataFrame Np.float) :
  Cleaner.drop_constant X `sublist_of` X.
Proof.
  unfold Cleaner.drop_constant. destruct (Nat.ltb _ _); [|done].
  apply list_filter_sublist.
Qed.

Lemma impute_column_length (col : list Np.float) :
  length (impute_column col) = length col.
Proof.
  unfold impute_column, Np.fillna, Np.replace_inf. by rewrite !length_fmap.
Qed.

Lemma impute_column_finite (qs : list Q) :
  impute_column (Np.Fin <$> qs) = Np.Fin <$> qs.
Proof.
  assert (Hfill : ∀ m, Np.fillna m (Np.Fin <$> qs) = Np.Fin <$> qs).
  { intros m. unfold Np.fillna. rewrite <- list_fmap_compose.
    by apply list_fmap_ext. }
  assert (Hinf : Np.replace_inf (Np.Fin <$> qs) = Np.Fin <$> qs).
  { unfold Np.replace_inf. rewrite <- list_fmap_compose.
    by apply list_fmap_ext. }
  unfold impute_column. by rewrite Hfill, Hinf, Hfill.
Qed.

(** X16. Cleaning never lets an infinite value through, and leaves each
    column either finite in every row or missing in every row; when
    every column of the input holds at least one finite value the cleaned
    frame is finite throughout. *)
Theorem cleaned_column_finite_or_missing (X : DataFrame Np.float)
    (c : string * list Np.float) :
  c ∈ Cleaner.advanced_data_cleaning X →
  (all_finite c.2 ∨ all_nan c.2) ∧
  Forall (λ v, Np.isinf v = false) c.2 ∧
  ((∀ c0, c0 ∈ X → ∃ x, x ∈ c0.2 ∧ Np.isfinite x = true) → all_finite c.2).
Proof.
  intros Hc.
  assert (Hcases : all_finite c.2 ∨ all_nan c.2).
  { unfold Cleaner.advanced_data_cleaning, Cleaner.clip_outliers in Hc.
    apply list_elem_of_fmap in Hc as ([n whole] & -> & Hw). simpl.
    apply drop_constant_subset in Hw. rewrite impute_columns in Hw.
    apply list_elem_of_fmap in Hw as (c0 & [= -> ->] & _).
    destruct (impute_column_cases c0.2) as [Hall|Hnan].
    - left. apply Forall_forall. intros v Hv.
      destruct (clip_all_finite _ _ Hall Hv) as [Hlo Hup].
      destruct (all_finite_fmap _ Hall) as [qs Hqs]. rewrite Hqs in *.
      destruct qs as [|q qs]; [inversion Hv|].
      destruct (bounds_fin (q :: qs)) as (l & u & Hl & Hu & _); [done|].
      rewrite Hl in Hlo. rewrite Hu in Hup. by destruct v.
    - right. apply Forall_forall. intros v Hv. by eapply clip_all_nan. }
  split; [done|]. split.
  - destruct Hcases as [H|H]; (eapply Forall_impl; [exact H|]);
      simpl; intros v Hv; [by destruct v|by subst v].
  - intros Hcols. apply Forall_forall. intros v Hv.
    by eapply cleaning_finite_when_columns_hold_a_value.
Qed.

Lemma cleaned_column_finite_or_missing_witness :
  (all_finite [Np.Fin 1; Np.Fin 3; Np.Fin 3; Np.Fin 3]
   ∨ all_nan [Np.Fin 1; Np.Fin 3; Np.Fin 3; Np.Fin 3]) ∧
  Forall (λ v, Np.isinf v = false) [Np.Fin 1; Np.Fin 3; Np.Fin 3; Np.Fin 3] ∧
  ((∀ c0, c0 ∈ gappy_table → ∃ x, x ∈ c0.2 ∧ Np.isfinite x = true) →
   all_finite [Np.Fin 1; Np.Fin 3; Np.Fin 3; Np.Fin 3]).
Proof.
  apply (cleaned_column_finite_or_missing gappy_table
           ("flow_duration", [Np.Fin 1; Np.Fin 3; Np.Fin 3; Np.Fin 3])).
  vm_compute. constructor.
Defined.

(** *** Constant columns *)

Lemma sum_fin_from (a : Q) (qs : list Q) :
  foldl Np.add (Np.Fin a) (Np.Fin <$> qs) = Np.Fin (foldl Qplus a qs).
Proof.
  revert a. induction qs as [|q qs IH]; intros a; [done|].
  cbn [fmap list_fmap foldl]. exact (IH (a + q)%Q).
Qed.

Lemma foldl_Qplus_const (a q : Q) (qs : list Q) :
  Forall (λ x, (x == q)%Q) qs →
  (foldl Qplus a qs == a + inject_Z (Z.of_nat (length qs)) * q)%Q.
Proof.
  intros H. revert a. induction H as [|x qs Hx _ IH]; intros a.
  - simpl. ring.
  - cbn [foldl length]. rewrite IH, Nat2Z.inj_succ. unfold Z.succ.
    rewrite inject_Z_plus, Hx. ring.
Qed.

Lemma mean_weight (n : nat) :
  (0 < n)%nat → (inject_Z (Z.of_nat n) * (1 # Pos.of_nat n) == 1)%Q.
Proof.
  intros Hn. unfold Qeq, Qmult, inject_Z. simpl.
  rewrite Z.mul_1_r, Z.mul_1_r.
  rewrite <- (Nat2Pos.id n) at 1 by lia. by rewrite positive_nat_Z.
Qed.

Lemma constant_column_fmap (q : Q) (col : list Np.float) :
  constant_column q col →
  ∃ qs, col = Np.Fin <$> qs ∧ Forall (λ x, (x == q)%Q) qs.
Proof.
  induction 1 as [|x col (r & -> & Hr) _ (qs & -> & Hqs)]; [by exists []|].
  exists (r :: qs). split; [done|]. by constructor.
Qed.

Lemma var_constant (q : Q) (qs : list Q) :
  (2 ≤ length qs)%nat → Forall (λ x, (x == q)%Q) qs →
  ∃ v, Np.var (Np.Fin <$> qs) = Np.Fin v ∧ (v == 0)%Q.
Proof.
  intros Hlen Hqs. unfold Np.var. rewrite dropna_fin, length_fmap.
  destruct (Nat.leb_spec (length qs) 1) as [|_]; [lia|].
  unfold Np.sum. rewrite sum_fin_from. cbn [Np.mul].
  set (avg := (foldl Qplus 0 qs * (1 # Pos.of_nat (length qs)))%Q).
  set (avg_f := Np.Fin avg).
  assert (Havg : (avg == q)%Q).
  { unfold avg. rewrite (foldl_Qplus_const 0 q qs Hqs).
    rewrite Qplus_0_l, (Qmult_comm _ q), <- Qmult_assoc.
    rewrite mean_weight by lia. ring. }
  clearbody avg.
  assert (Hsqr :
    (λ x, Np.mul (Np.sub avg_f x) (Np.sub avg_f x)) <$> (Np.Fin <$> qs)
    = Np.Fin <$> ((λ x, (avg + - x) * (avg + - x))%Q <$> qs)).
  { subst avg_f. rewrite <- !list_fmap_compose. by apply list_fmap_ext. }
  rewrite Hsqr, sum_fin_from. cbn [Np.mul].
  eexists. split; [reflexivity|].
  rewrite (foldl_Qplus_const 0 0 _).
  - ring.
  - apply Forall_fmap. eapply Forall_impl; [exact Hqs|].
    simpl. intros x Hx. rewrite Hx, Havg. ring.
Qed.

Lemma std_is_zero_constant (q : Q) (col : list Np.float) :
  (2 ≤ length col)%nat → constant_column q col → Np.std_is_zero col = true.
Proof.
  intros Hlen Hcol. destruct (constant_column_fmap _ _ Hcol) as (qs & -> & Hqs).
  rewrite length_fmap in Hlen.
  destruct (var_constant q qs Hlen Hqs) as (v & Hv & Hz).
  unfold Np.std_is_zero. rewrite Hv. by apply Qeq_bool_iff.
Qed.

Lemma std_is_zero_short (col : list Np.float) :
  (length col ≤ 1)%nat → Np.std_is_zero col = false.
Proof.
  intros Hlen. unfold Np.std_is_zero, Np.var.
  assert (length (Np.dropna col) ≤ length col)%nat as Hdrop.
  { unfold Np.dropna. apply sublist_length, list_filter_sublist. }
  destruct (Nat.leb_spec (length (Np.dropna col)) 1); [done|lia].
Qed.

(** X17. A column of at least two rows whose cells all hold the same
    whole number, such as a flag count that is 0 in every row, is removed
    by cleaning: no column of the cleaned frame bears its name.  On whole
    numbers the mean and the deviations are exact in floating point as
    they are here. *)
Theorem constant_column_is_dropped (X : DataFrame Np.float) (name : string)
    (col : list Np.float) (k : Z) :
  (name, col) ∈ X → (2 ≤ length col)%nat → constant_column (inject_Z k) col →
  name ∉ columns (Cleaner.advanced_data_cleaning X).
Proof.
  intros Hin Hlen Hcol.
  unfold Cleaner.advanced_data_cleaning. rewrite columns_clip_outliers.
  assert (Himp : (name, col) ∈ Cleaner.impute X).
  { rewrite impute_columns. apply list_elem_of_fmap. exists (name, col).
    split; [|done]. simpl.
    destruct (constant_column_fmap _ _ Hcol) as (qs & -> & _).
    by rewrite impute_column_finite. }
  assert (Hname : name ∈ Cleaner.constant_features (Cleaner.impute X)).
  { unfold Cleaner.constant_features. apply list_elem_of_fmap.
    exists (name, col). split; [done|].
    apply list_elem_of_In, filter_In. split; [by apply list_elem_of_In|].
    simpl. by eapply std_is_zero_constant. }
  unfold Cleaner.drop_constant.
  destruct (Nat.ltb_spec 0 (length (Cleaner.constant_features (Cleaner.impute X))))
    as [_|Hnone].
  - unfold columns. intros Hc. apply list_elem_of_fmap in Hc as (c & -> & Hc).
    apply list_elem_of_In, filter_In in Hc as [_ Hkeep].
    apply negb_true_iff, bool_decide_eq_false in Hkeep. done.
  - destruct (Cleaner.constant_features (Cleaner.impute X)); [|simpl in Hnone; lia].
    by apply not_elem_of_nil in Hname.
Qed.

Lemma constant_column_is_dropped_witness :
  "bwd_psh_flags" ∉ columns (Cleaner.advanced_data_cleaning constant_table).
Proof.
  apply (constant_column_is_dropped constant_table "bwd_psh_flags"
           (integers [0; 0; 0]%Z) 0%Z).
  - apply elem_of_cons. right. apply elem_of_cons. by left.
  - simpl. lia.
  - repeat (constructor; [eexists; split; reflexivity|]). constructor.
Defined.

(** X18. On a frame of a single row, or of none, no column counts as
    constant: the standard deviation of a single value is missing, not
    zero.  The cleaned frame has the columns of the input. *)
Theorem one_row_frame_keeps_columns (X : DataFrame Np.float) :
  (∀ c, c ∈ X → (length c.2 ≤ 1)%nat) →
  Cleaner.constant_features (Cleaner.impute X) = [] ∧
  columns (Cleaner.advanced_data_cleaning X) = columns X.
Proof.
  intros Hrows.
  assert (Hnone : Cleaner.constant_features (Cleaner.impute X) = []).
  { unfold Cleaner.constant_features. rewrite list_filter_none; [done|].
    intros c Hc. rewrite impute_columns in Hc.
    apply list_elem_of_fmap in Hc as (c0 & -> & Hc0). simpl.
    apply std_is_zero_short. rewrite impute_column_length. by apply Hrows. }
  split; [done|].
  unfold Cleaner.advanced_data_cleaning. rewrite columns_clip_outliers.
  unfold Cleaner.drop_constant. rewrite Hnone. simpl. apply columns_impute.
Qed.

Lemma one_row_frame_keeps_columns_witness :
  Cleaner.constant_features (Cleaner.impute one_row_table) = [] ∧
  columns (Cleaner.advanced_data_cleaning one_row_table) = columns one_row_table.
Proof.
  apply (one_row_frame_keeps_columns one_row_table).
  intros c Hc.
  repeat (apply elem_of_cons in Hc as [->|Hc]; [simpl; lia|]).
  by apply not_elem_of_nil in Hc.
Defined.

(** X19. Cleaning adds no column, reorders none and keeps the number of
    rows: the names of the cleaned frame are the names of the input with
    some left out, and each cleaned column is as long as a column of that
    name in the input. *)
Theorem cleaning_keeps_shape (X : DataFrame Np.float) :
  columns (Cleaner.advanced_data_cleaning X) `sublist_of` columns X ∧
  ∀ c, c ∈ Cleaner.advanced_data_cleaning X →
    ∃ col, (c.1, col) ∈ X ∧ length c.2 = length col.
Proof.
  split.
  - unfold Cleaner.advanced_data_cleaning. rewrite columns_clip_outliers.
    rewrite <- (columns_impute X). unfold columns.
    apply fmap_sublist, drop_constant_sublist.
  - intros c Hc.
    unfold Cleaner.advanced_data_cleaning, Cleaner.clip_outliers in Hc.
    apply list_elem_of_fmap in Hc as (c1 & -> & Hc1).
    apply drop_constant_subset in Hc1. rewrite impute_columns in Hc1.
    apply list_elem_of_fmap in Hc1 as ([name col] & -> & Hc0).
    exists col. split; [done|]. simpl.
    unfold Np.clip. by rewrite length_fmap, impute_column_length.
Qed.

(** X20. The clipping bounds of a finite column enclose its quartiles,
    so a value between the first and the third quartile is never changed
    by clipping. *)
Theorem interquartile_values_unclipped (col : list Np.float) (x : Np.float) :
  all_finite col → x ∈ col →
  Np.leb (Np.quantile (1 # 4) col) x = true →
  Np.leb x (Np.quantile (3 # 4) col) = true →
  Np.leb (Cleaner.lower_bound col) (Np.quantile (1 # 4) col) = true ∧
  Np.leb (Np.quantile (1 # 4) col) (Np.quantile (3 # 4) col) = true ∧
  Np.leb (Np.quantile (3 # 4) col) (Cleaner.upper_bound col) = true ∧
  Np.clip_value (Cleaner.lower_bound col) (Cleaner.upper_bound col) x = x.
Proof.
  intros Hfin Hx Hlo Hup. destruct (all_finite_fmap _ Hfin) as [qs ->].
  apply list_elem_of_fmap in Hx as (r & -> & Hr).
  assert (Hne : qs ≠ []) by (intros ->; inversion Hr).
  unfold Cleaner.lower_bound, Cleaner.upper_bound.
  rewrite !quantile_fin in * by (done || lra).
  pose proof (qquantile_mono (1 # 4) (3 # 4) qs Hne) as Hmono.
  assert (H : (qquantile (1 # 4) qs <= qquantile (3 # 4) qs)%Q).
  { apply Hmono; lra. }
  cbn [Np.leb] in Hlo, Hup. apply Qle_bool_iff in Hlo, Hup.
  set (q1 := qquantile (1 # 4) qs) in *.
  set (q3 := qquantile (3 # 4) qs) in *.
  clearbody q1 q3.
  cbn [Np.sub Np.add Np.neg Np.mul Np.leb].
  assert (Hl : (q1 + - (3 * (q3 + - q1)) <= q1)%Q) by lra.
  assert (Hu : (q3 <= q3 + 3 * (q3 + - q1))%Q) by lra.
  split; [by apply Qle_bool_iff|]. split; [by apply Qle_bool_iff|].
  split; [by apply Qle_bool_iff|].
  unfold Np.clip_value. cbn [Np.isnan Np.leb orb].
  assert (Qle_bool (q1 + - (3 * (q3 + - q1))) r = true) as ->
    by (apply Qle_bool_iff; lra).
  assert (Qle_bool r (q3 + 3 * (q3 + - q1)) = true) as ->
    by (apply Qle_bool_iff; lra).
  done.
Qed.

Lemma interquartile_values_unclipped_witness :
  Np.leb (Cleaner.lower_bound skewed_column) (Np.quantile (1 # 4) skewed_column) = true ∧
  Np.leb (Np.quantile (1 # 4) skewed_column) (Np.quantile (3 # 4) skewed_column) = true ∧
  Np.leb (Np.quantile (3 # 4) skewed_column) (Cleaner.upper_bound skewed_column) = true ∧
  Np.clip_value (Cleaner.lower_bound skewed_column) (Cleaner.upper_bound skewed_column)
    (Np.Fin 3) = Np.Fin 3.
Proof.
  apply (interquartile_values_unclipped skewed_column (Np.Fin 3)).
  - repeat constructor.
  - apply elem_of_cons. right. apply elem_of_cons. right. apply elem_of_cons. by left.
  - reflexivity.
  - reflexivity.
Defined.

(** ** The tuple returned by the search *)

Section SelectionFacts.

Context {estimator : Type}.
Variable search_and_evaluate : string → option (Search.result estimator).
Variable fit_ensemble : list (string * estimator) → exn + Search.result estimator.

Lemma models_not_empty_name n_train : "" ∉ Search.models n_train.
Proof.
  unfold Search.models.
  destruct (N.ltb 10000 n_train), (N.ltb n_train 50000);
    apply (bool_decide_unpack _); by vm_compute.
Qed.

Lemma provisional_best_consistent (st : Search.state estimator) :
  "" ∉ (Search.results st).*1 →
  provisional_best (Search.results st) st → selection_consistent st.
Proof.
  intros Hempty [(Hm & Hs & Hn & Hle)|(i & n & r & (Hi & Hmax & _) & Hp & Hm & Hs & Hn)].
  - unfold selection_consistent. rewrite Hm, Hs, Hn.
    split; [apply Qle_refl|]. split; [exact Hle|]. split; [done|].
    split; [done|]. split; [done|]. by intros [m Hsome].
  - assert (Hin : (n, r) ∈ Search.results st) by by eapply list_elem_of_lookup_2.
    unfold selection_consistent. rewrite Hm, Hs, Hn.
    split; [by apply Qlt_le_weak|]. split.
    { intros x Hx. apply list_elem_of_lookup_1 in Hx as [j Hj]. by eapply Hmax. }
    split; [done|]. split.
    { intros m [= <-]. by exists r. }
    split; [by eexists|]. intros _.
    apply list_elem_of_fmap. by exists (n, r).
Qed.

(** X21. Whatever the searches and the ensemble fit return, the tuple
    that [train_best_model] returns agrees with itself: the best score is
    the highest recorded held-out F1, or 0 when none is above zero; a
    selected model is the one recorded under the returned name, with the
    returned score; and the returned name is a key of [results] exactly
    when a model was selected. *)
Theorem train_best_model_returns_consistent_tuple (n_train : N)
    (final : Search.state estimator) :
  Search.train_best_model search_and_evaluate fit_ensemble n_train = inr final →
  selection_consistent final.
Proof.
  unfold Search.train_best_model, Search.add_ensemble.
  destruct (train_candidates_spec search_and_evaluate _ (models_NoDup n_train))
    as [Hres Hbest].
  set (st := Search.train_candidates search_and_evaluate (Search.models n_train)) in *.
  rewrite <- Hres in Hbest.
  assert (Hkeys : ∀ k, k ∈ (Search.results st).*1 → k ∈ Search.models n_train).
  { intros k Hk. rewrite Hres in Hk. by eapply succeeded_names. }
  assert (Hst : selection_consistent st).
  { apply provisional_best_consistent; [|done].
    intros Hk. by apply Hkeys, models_not_empty_name in Hk. }
  clear Hbest Hres. clearbody st.
  destruct (Nat.leb 3 (length (Search.results st))); [|by intros [= <-]].
  destruct (fit_ensemble _) as [e|ens]; [done|].
  assert (Hset : Search.dict_set "Ensemble" ens (Search.results st)
                 = Search.results st ++ [("Ensemble", ens)]).
  { apply dict_set_fresh. intros Hin. by apply Hkeys, models_not_ensemble in Hin. }
  rewrite Hset.
  destruct Hst as (H0 & Hmax & Hnone & Hsome & Hname).
  destruct (Search.Qgtb (Search.test_f1 ens) (Search.best_score st)) eqn:Hcmp;
    intros [= <-]; unfold selection_consistent; cbn [Search.results Search.best_model
      Search.best_score Search.best_model_name].
  - apply Qgtb_true in Hcmp.
    assert (Hpos : (0 < Search.test_f1 ens)%Q) by by eapply Qle_lt_trans.
    split; [by apply Qlt_le_weak|]. split.
    { intros x Hx. apply elem_of_app in Hx as [Hx|Hx].
      - apply Qlt_le_weak. eapply Qle_lt_trans; [by apply Hmax|done].
      - apply list_elem_of_singleton in Hx as ->. apply Qle_refl. }
    split; [done|]. split.
    { intros m [= <-]. exists ens. split; [|done].
      apply elem_of_app. right. by apply list_elem_of_singleton. }
    split; [by eexists|]. intros _. rewrite fmap_app.
    apply elem_of_app. right. by apply list_elem_of_singleton.
  - apply Qgtb_false in Hcmp.
    split; [done|]. split.
    { intros x Hx. apply elem_of_app in Hx as [Hx|Hx]; [by apply Hmax|].
      by apply list_elem_of_singleton in Hx as ->. }
    split; [done|]. split.
    { intros m Hm. destruct (Hsome m Hm) as (r & Hin & Hr).
      exists r. split; [|done]. apply elem_of_app. by left. }
    rewrite fmap_app, elem_of_app, <- Hname. split; [|by left].
    intros [Hk|Hk]; [done|]. apply list_elem_of_singleton in Hk.
    destruct (Search.best_model st) as [m|] eqn:Hm.
    + apply Hname. by eexists.
    + destruct (Hnone eq_refl) as [_ Hn]. rewrite Hn in Hk. done.
Qed.

End SelectionFacts.

Lemma train_best_model_returns_consistent_tuple_witness :
  selection_consistent demo_final.
Proof.
  apply (train_best_model_returns_consistent_tuple demo_search demo_weak_ensemble
           100 demo_final).
  reflexivity.
Defined.

(** ** Reloading the artifacts *)

Section ReloadFacts.

Context {S E N F P : Type}.

#[warning="-notation-for-abbreviation"]
Local Notation analysis := (Artifact.analysis S E N F P).
#[warning="-notation-for-abbreviation"]
Local Notation files := (gmap string (Artifact.pickle S E N F P)).

Variable dump : Artifact.pickle S E N F P → string → files → files * option exn.
Variable empty_dict : N.

Lemma completed_save_files (self : analysis) (fs : files) (model_name : string)
    (m : Artifact.classifier) (sc : S) paths :
  dump_contract dump →
  Artifact.best_model self = Some m → Artifact.scaler self = Some sc →
  (Artifact.save_model_and_scaler dump self fs model_name).2 = inr paths →
  (Artifact.save_model_and_scaler dump self fs model_name).1
  = <[model_name +:+ "_metadata.pkl" :=
        Artifact.PMetadata
          (Artifact.mkMetadata (Some (Artifact.feature_columns self))
             (Some (Artifact.label_encoders self))
             (Some (Artifact.original_network_data self))
             (Some (Artifact.column_mappings self))
             (Some (Artifact.feature_selector self))
             (Some (Artifact.pca self)))]>
      (<[model_name +:+ "_scaler.pkl" := Artifact.PScaler sc]>
         (<[model_name +:+ ".pkl" := Artifact.PModel m]> fs)).
Proof.
  intros [Hwrites _] Hm Hsc. unfold Artifact.save_model_and_scaler.
  rewrite Hm, Hsc. cbv zeta.
  pose proof (Hwrites (Artifact.PModel m) (model_name +:+ ".pkl") fs) as Hw1.
  destruct (dump (Artifact.PModel m) (model_name +:+ ".pkl") fs) as [g1 [e|]];
    cbn [fst snd] in *; [done|].
  rewrite (Hw1 eq_refl). clear Hw1.
  set (fs1 := <[model_name +:+ ".pkl" := Artifact.PModel m]> fs).
  pose proof (Hwrites (Artifact.PScaler sc) (model_name +:+ "_scaler.pkl") fs1) as Hw2.
  destruct (dump (Artifact.PScaler sc) (model_name +:+ "_scaler.pkl") fs1) as [g2 [e|]];
    cbn [fst snd] in *; [done|].
  rewrite (Hw2 eq_refl). clear Hw2.
  set (fs2 := <[model_name +:+ "_scaler.pkl" := Artifact.PScaler sc]> fs1).
  set (md := Artifact.mkMetadata _ _ _ _ _ _).
  pose proof (Hwrites (Artifact.PMetadata md) (model_name +:+ "_metadata.pkl") fs2) as Hw3.
  destruct (dump (Artifact.PMetadata md) (model_name +:+ "_metadata.pkl") fs2)
    as [g3 [e|]]; cbn [fst snd] in *; [done|].
  intros _. exact (Hw3 eq_refl).
Qed.

(** X22. What a completed [save_model_and_scaler] has written,
    [load_model_and_scaler] reads back: loading under the same name into
    any analysis succeeds and leaves it with the saved model, scaler,
    feature columns, label encoders, network data, feature selector and
    PCA, so that [predict_with_confidence] answers as the saved analysis
    does.  The column mappings are written but not read back: the loader
    keeps its own. *)
Theorem save_then_load_restores (self loader : analysis) (fs : files)
    (model_name : string) (m : Artifact.classifier) (sc : S) paths :
  dump_contract dump →
  Artifact.best_model self = Some m → Artifact.scaler self = Some sc →
  (Artifact.save_model_and_scaler dump self fs model_name).2 = inr paths →
  ∃ restored,
    Reload.load_model_and_scaler empty_dict loader
      (Artifact.save_model_and_scaler dump self fs model_name).1 model_name
      = Some (restored, true) ∧
    Artifact.best_model restored = Artifact.best_model self ∧
    Artifact.scaler restored = Artifact.scaler self ∧
    Artifact.feature_columns restored = Artifact.feature_columns self ∧
    Artifact.label_encoders restored = Artifact.label_encoders self ∧
    Artifact.original_network_data restored = Artifact.original_network_data self ∧
    Artifact.feature_selector restored = Artifact.feature_selector self ∧
    Artifact.pca restored = Artifact.pca self ∧
    Artifact.column_mappings restored = Artifact.column_mappings loader ∧
    ∀ X, Artifact.predict_with_confidence restored X
         = Artifact.predict_with_confidence self X.
Proof.
  intros Hdump Hm Hsc Hdone.
  destruct (artifact_paths_differ model_name) as (H1 & H2 & H3).
  rewrite (completed_save_files self fs model_name m sc paths Hdump Hm Hsc Hdone).
  unfold Reload.load_model_and_scaler.
  rewrite !lookup_insert_ne, lookup_insert_eq by done.
  rewrite lookup_insert_ne, lookup_insert_eq by done.
  rewrite lookup_insert_eq.
  eexists. split; [reflexivity|]. cbn.
  repeat split; try done.
  intros X. unfold Artifact.predict_with_confidence. cbn. by rewrite Hm.
Qed.

(** X23. A load that returns [False] is not all or nothing.  With no
    model file nothing is changed; a model file that is found is already
    stored in [best_model] when a later step fails, and the feature
    columns are already replaced when the metadata dict has them but no
    label encoders.  The label encoders, the network data, the feature
    selector and the PCA are never changed by a load that fails, and no
    load changes the column mappings.  A load returns [True] only when the
    three files are there and the metadata holds the feature columns and
    the label encoders. *)
Theorem failed_load_is_partial (self self' : analysis) (fs : files)
    (model_name : string) (ok : bool) :
  Reload.load_model_and_scaler empty_dict self fs model_name = Some (self', ok) →
  (ok = true →
     is_Some (fs !! (model_name +:+ ".pkl")) ∧
     is_Some (fs !! (model_name +:+ "_scaler.pkl")) ∧
     ∃ md, fs !! (model_name +:+ "_metadata.pkl") = Some (Artifact.PMetadata md) ∧
           is_Some (Artifact.md_feature_columns md) ∧
           is_Some (Artifact.md_label_encoders md)) ∧
  (ok = false →
     Artifact.label_encoders self' = Artifact.label_encoders self ∧
     Artifact.original_network_data self' = Artifact.original_network_data self ∧
     Artifact.feature_selector self' = Artifact.feature_selector self ∧
     Artifact.pca self' = Artifact.pca self ∧
     (Artifact.feature_columns self' = Artifact.feature_columns self ∨
      ∃ md, fs !! (model_name +:+ "_metadata.pkl") = Some (Artifact.PMetadata md) ∧
            Artifact.md_feature_columns md = Some (Artifact.feature_columns self') ∧
            Artifact.md_label_encoders md = None)) ∧
  Artifact.column_mappings self' = Artifact.column_mappings self ∧
  (fs !! (model_name +:+ ".pkl") = None → self' = self ∧ ok = false) ∧
  (∀ m, fs !! (model_name +:+ ".pkl") = Some (Artifact.PModel m) →
     Artifact.best_model self' = Some m).
Proof.
  unfold Reload.load_model_and_scaler.
  destruct (fs !! (model_name +:+ ".pkl")) as [[m|?|?]|]; try done.
  2:{ intros [= <- <-]. repeat split; try done. by left. }
  destruct (fs !! (model_name +:+ "_scaler.pkl")) as [[?|sc|?]|]; try done.
  2:{ intros [= <- <-]. repeat split; try done; [by left|by intros ? [= <-]]. }
  destruct (fs !! (model_name +:+ "_metadata.pkl")) as [[?|?|md]|].
  1,2,4: intros [= <- <-]; repeat split; try done; [by left|by intros ? [= <-]].
  destruct (Artifact.md_feature_columns md) as [cols|] eqn:Hcols.
  2:{ intros [= <- <-]. repeat split; try done; [by left|by intros ? [= <-]]. }
  destruct (Artifact.md_label_encoders md) as [encoders|] eqn:Henc.
  - intros [= <- <-]. split.
    { intros _. split; [done|]. split; [done|]. exists md.
      rewrite Hcols, Henc. by repeat split. }
    split; [done|]. split; [done|]. split; [done|]. by intros ? [= <-].
  - intros [= <- <-]. split; [done|]. split.
    { intros _. repeat split; try done. right. by exists md. }
    split; [done|]. split; [done|]. by intros ? [= <-].
Qed.

End ReloadFacts.

Lemma save_then_load_restores_witness :
  ∃ restored,
    Reload.load_model_and_scaler tt fresh_analysis
      (Artifact.save_model_and_scaler reliable_dump trained_analysis ∅
         "unified_ddos_best_model").1
      "unified_ddos_best_model"
      = Some (restored, true) ∧
    Artifact.best_model restored = Artifact.best_model trained_analysis ∧
    Artifact.scaler restored = Artifact.scaler trained_analysis ∧
    Artifact.feature_columns restored = Artifact.feature_columns trained_analysis ∧
    Artifact.label_encoders restored = Artifact.label_encoders trained_analysis ∧
    Artifact.original_network_data restored
      = Artifact.original_network_data trained_analysis ∧
    Artifact.feature_selector restored = Artifact.feature_selector trained_analysis ∧
    Artifact.pca restored = Artifact.pca trained_analysis ∧
    Artifact.column_mappings restored = Artifact.column_mappings fresh_analysis ∧
    ∀ X, Artifact.predict_with_confidence restored X
         = Artifact.predict_with_confidence trained_analysis X.
Proof.
  apply (save_then_load_restores reliable_dump tt trained_analysis fresh_analysis ∅
           "unified_ddos_best_model" two_class_model tt
           (Some "unified_ddos_best_model.pkl",
            Some "unified_ddos_best_model_scaler.pkl",
            Some "unified_ddos_best_model_metadata.pkl")).
  - split; [reflexivity|]. intros obj path fs other Hne.
    apply lookup_insert_ne. congruence.
  - reflexivity.
  - reflexivity.
  - reflexivity.
Defined.

Lemma failed_load_is_partial_witness :
  (false = true →
     is_Some (short_metadata_fs !! ("unified_ddos_best_model" +:+ ".pkl")) ∧
     is_Some (short_metadata_fs !! ("unified_ddos_best_model" +:+ "_scaler.pkl")) ∧
     ∃ md, short_metadata_fs !! ("unified_ddos_best_model" +:+ "_metadata.pkl")
             = Some (Artifact.PMetadata md) ∧
           is_Some (Artifact.md_feature_columns md) ∧
           is_Some (Artifact.md_label_encoders md)) ∧
  (false = false →
     Artifact.label_encoders half_loaded_analysis
       = Artifact.label_encoders fresh_analysis ∧
     Artifact.original_network_data half_loaded_analysis
       = Artifact.original_network_data fresh_analysis ∧
     Artifact.feature_selector half_loaded_analysis
       = Artifact.feature_selector fresh_analysis ∧
     Artifact.pca half_loaded_analysis = Artifact.pca fresh_analysis ∧
     (Artifact.feature_columns half_loaded_analysis
        = Artifact.feature_columns fresh_analysis ∨
      ∃ md, short_metadata_fs !! ("unified_ddos_best_model" +:+ "_metadata.pkl")
              = Some (Artifact.PMetadata md) ∧
            Artifact.md_feature_columns md
              = Some (Artifact.feature_columns half_loaded_analysis) ∧
            Artifact.md_label_encoders md = None)) ∧
  Artifact.column_mappings half_loaded_analysis
    = Artifact.column_mappings fresh_analysis ∧
  (short_metadata_fs !! ("unified_ddos_best_model" +:+ ".pkl") = None →
     half_loaded_analysis = fresh_analysis ∧ false = false) ∧
  (∀ m, short_metadata_fs !! ("unified_ddos_best_model" +:+ ".pkl")
        = Some (Artifact.PModel m) →
     Artifact.best_model half_loaded_analysis = Some m).
Proof.
  apply (failed_load_is_partial tt fresh_analysis half_loaded_analysis
           short_metadata_fs "unified_ddos_best_model" false).
  reflexivity.
Defined.
